(* ===== verification/_CoqProject ===== *)
-Q . S2P
Prelude.v
Redondeo.v
JsNumero.v
Dobles.v
Segmentos.v
MaximaGanancia.v
CalculoDoble.v
SumasRedondeadas.v
Accesos.v
Banco.v
BancoTiempos.v
BancoReloj.v
Pruebas.v
