(* ===== verification/Prelude.v ===== *)
(** * Verification of the "huerto maldito" maximum-harvest calculator

    The repository is a TypeScript solution of the maximum-sum contiguous
    sub-array problem (Kadane's algorithm), themed as harvesting plots of
    delicious (positive) and cursed (negative) pumpkins.  It has three source
    files:

    - [src/maximaGanancia.ts]: the interface [GananciaCalculator], its one
      implementation [CalculadorGananciaMaxima] (methods [calcular] and
      [validar]) and the exported function [maximaGanancia];
    - [src/maximaGanancia.test.ts]: a framework-free test harness
      ([TestRunner]) and the test cases that call [maximaGanancia];
    - [src/maximaGanancia.bench.ts]: a benchmark driver ([BenchmarkRunner])
      that calls [maximaGanancia] on random and on fixed arrays.

    ** Files of the development, in dependency order

    - [Prelude] (this file): the scope [huerto_scope] and its notations, the
      tactics and the hint databases [huerto] and [huerto_rw], the exception
      monad [resultado] in which throwing code is written, and the lemmas on
      sums of integer lists ([suma], [suma_abs]) every component shares.
    - [Redondeo]: the integers that are doubles ([es_doble]: a significand
      of at most 53 bits times a power of two) and [redondear], the rounding
      of an exact integer to the nearest double, ties to even.
    - [JsNumero]: the part of the JavaScript runtime the sources call.  A
      run-time value is a [valor]: an integer-valued double [Num z],
      [Infinity], [MenosInfinity], [NaN] or [Undefined].  [mas] is [+] on
      numbers: the exact sum rounded by [redondear], turned into an infinity
      by [desbordar] beyond [Number.MAX_VALUE]; [Math_max] is [Math.max];
      [leer] is an array read, which yields [Undefined] out of range;
      [estrictamente_distinto] is [!==]; [intentar] is [try ... catch];
      [includes], [String_repeat] and [o_bien] are the string operations
      the harness and the driver use.  [String_de] is [String(v)], the text
      of a value in a template literal: for a number, the decimal of fewest
      digits that reads back as the same double ([decimal_corto]), with an
      exponent from [10^21] on.
    - [Dobles]: the numbers with fractions the driver computes with.  A
      [numero] is a finite double [Finito u], counted in units of
      [2^-1074] (the smallest positive double, so that every finite double
      is an integer [u], and a double exactly when [Redondeo.es_doble u]),
      the negative zero, an infinity or [NaN].  [sumar], [menos], [por],
      [entre] and [Math_floor] are [+], [-], [*], [/] and [Math.floor];
      [redondear_cociente] is the correctly rounded quotient of two
      naturals; [toFixed] prints with a fixed number of decimals below
      [10^21] and as [String] does from there on.
    - [Segmentos]: the abstract specification.  [segmento s l] says that [s]
      is a non-empty contiguous sub-range of [l], a list of any type;
      [es_ganancia_maxima l m]
      that [m] is the largest sum of a segment of [l]; [es_mejor_final l m]
      that [m] is the largest sum of a segment that ends at the last element.
      [segmentos] enumerates the segments and [fuerza_bruta] maximises over
      them: the executable reference against which the one-pass algorithm is
      compared.
    - [MaximaGanancia]: the model of [src/maximaGanancia.ts].  The argument of
      [calcular] is an [argumento]: [Array xs] or [NoArray] (any value on
      which [Array.isArray] is false).  [validar] is the guard with both
      disjuncts; [estado] holds the loop variables [i],
      [gananciaMaximaGlobal] and [gananciaMaximaLocal]; [cuerpo] is the loop
      body, [bucle] the [for] loop (the test [i < parcelas.length] is in the
      model; the fuel only bounds the recursion); [calcular] and
      [maximaGanancia] compose them as the source does.  The class
      [GananciaCalculator] is the source's interface and
      [CalculadorGananciaMaxima] its instance; the class
      [GananciaCalculatorCorrecto] states what an implementation promises.
      The loop is also the step relation [paso], whose reachable states
      carry the invariant.
    - [CalculoDoble]: the same lines of [src/maximaGanancia.ts] on arrays
      of any numbers.  The parameter of [calcular] is declared [number[]],
      so an array may hold fractions, zeros of either sign, infinities and
      [NaN]: [leer_doble], [mas_doble] and [Math_max_doble] are the array
      read, [+] and [Math.max] on a [numero] or [undefined];
      [validar_doble], [estado_doble], [cuerpo_doble], [bucle_doble],
      [calcular_doble] and [maximaGanancia_doble] are the methods and the
      loop.  [a_doble] and [a_estado] embed the values and the states of
      [MaximaGanancia]: they are the simulation relation between the two
      loops.  [cercano B xs s] is the invariant of the loop under
      rounding: finite accumulators within [(i - 1) * B / 2^52] units of
      the exact ones.
    - [SumasRedondeadas]: the specification of [calcular] in the
      arithmetic of the numbers.  [suma_doble] is the sum of a list from
      left to right with every addition rounded;
      [es_ganancia_maxima_doble l m] says that [m] is the largest such sum
      of a segment of [l]; [maximo_leido] is the invariant of the loop.
    - [Accesos]: [validar] and [calcular] once more, in the monad
      [contado] that records every evaluation of [parcelas.length] and of
      [parcelas[k]] ([acceso]) in the order of evaluation.  The loop
      [bucle_contado] is generic in the class [Aritmetica] of the array
      read, [+] and [Math.max], whose instances are the integers of
      [MaximaGanancia] and the numbers of [CalculoDoble]; [bucle_de] is
      the same loop without the record.
    - [Banco]: the model of [src/maximaGanancia.bench.ts].  A method of
      [BenchmarkRunner] is an [efecto]: a function of the [mundo] (how many
      random numbers and clock readings were consumed, and the trace of
      [evento]s so far) that returns or throws.  What [Math.random] and
      [performance.now] return comes from an [entorno], over which every
      theorem quantifies; [siempre Q m] says that [m] returns normally
      and every event it adds satisfies [Q].  [generarArrayAleatorio],
      [ejecutarBenchmark] and
      [ejecutar] (split into [casos_aleatorios], [casos_enunciado],
      [casos_extremos] and [analisis]) follow the source line by line;
      [entero_aleatorio] is the formula
      [Math.floor(Math.random() * (max - min + 1)) + min] with the rounding
      of each operation, on scaled integers.  The clock of the
      [entorno] counts in units of [2^-1074] ms; [ejecutarBenchmark]
      computes [tiempoTotal], [tiempoPromedio] and [operacionesPorSegundo]
      on doubles, and [texto] gives the characters of each console line.
    - [BancoTiempos]: the measurements and the text of the driver: what the
      three timings are under a clock that does not run backwards
      ([reloj_valido]) and what [pantalla] shows; [entero_aleatorio_doble]
      is the formula of [entero_aleatorio] with the operators of [Dobles].
    - [BancoReloj]: two runs of the driver compared.  Traces are taken up
      to their timings (the equivalence [mismos_tiempos], with [Proper]
      instances for concatenation and for the projections of a trace), and
      [acompasados] relates two computations step by step along the monad.
    - [Pruebas]: the model of [src/maximaGanancia.test.ts].  [TestRunner]
      is the record of the fields [testsPassed], [testsFailed] and
      [errors]; a [proceso] adds the console and the exit code.  [test],
      [assertEqual], [assertThrows] and [generarReporte] are the four
      methods; a test function is a [js unit].  The script is the list of
      [sentencia]s [guion], in the groups of the source, and [correr] runs
      it.

    ** What the theorems show

    - Refinement: on a non-empty array whose absolute values sum to at most
      [MAX_SAFE_INTEGER], [maximaGanancia] returns [Num m] with
      [es_ganancia_maxima xs m] ([maximaGanancia_correcta]), and agrees with
      [fuerza_bruta] ([maximaGanancia_fuerza_bruta]).
    - Any numbers: on every array of finite numbers the result is the
      largest rounded sum of a segment ([maximaGanancia_doble_maxima]):
      the proof of the integers goes through because [+] stays monotone
      under rounding, overflow and signed zeros ([sumar_monotona]); the
      rounded sums depend on the order of the elements
      ([maximaGanancia_doble_orden]); on integers of any magnitude the
      model of [MaximaGanancia] returns that largest rounded sum too
      ([maximaGanancia_maxima_redondeada]).  On an array of integers the model
      on numbers is the model on integers, step by step
      ([maximaGanancia_doble_entero]).  On
      [n] finite numbers whose magnitudes sum to at most [B] the result is
      within [(n - 1) * B / 2^52] of the largest sum of a segment
      ([maximaGanancia_doble_precision]), and it is that sum when the
      numbers are multiples of one power of two and sum to at most [2^53]
      of them ([maximaGanancia_doble_exacta]); both follow from one
      invariant, [cercano], proved under the hypothesis that the roundings
      of the loop lose at most [B / 2^52] ([calcular_doble_cercano]).  On
      finite numbers of any magnitude the result is finite or [Infinity]
      and at least every element ([maximaGanancia_doble_cota]); a [NaN] in
      the array reaches the result ([maximaGanancia_doble_nan]), and so
      does the sum of an [Infinity] and a [-Infinity]
      ([maximaGanancia_doble_infinitos]); the result is a value of the
      type ([maximaGanancia_doble_valido]); on 0.1 and 0.2 the result is
      0.30000000000000004 ([maximaGanancia_doble_ejemplos]).
    - Errors: [maximaGanancia] throws exactly on [NoArray] and on the empty
      array, with the source's message, before any read
      ([maximaGanancia_lanza_sii]).
    - Invariant: every state reachable by [paso] from [estado_inicial]
      satisfies [invariante], which ties the two accumulators to the prefix
      already read ([alcanzable_invariante], from [cuerpo_conserva]).
    - Termination: the loop stops by its own test with [i = parcelas.length];
      the transition relation has no infinite run; the loop is one pass of
      exactly one iteration per element left, and every element is
      eventually read ([bucle_termina], [paso_sn], [bucle_una_pasada],
      [bucle_lee_todo]).
    - One pass: the recording model returns or throws what the two models
      of [calcular] do ([calcular_contado_borra]); a call on [n] elements
      reads every element twice, in the order of the indices and never out
      of range, and makes [3 n + 1] accesses ([calcular_una_pasada]),
      which depend on the length only ([accesos_independientes]); a call
      that throws has read no element ([calcular_contado_lanza]).
    - Safety: on every non-empty array, bounded or not, every read is in
      range and no sum is of opposite infinities, so the result is a finite
      number or [Infinity] and never [NaN], [Undefined] or [MenosInfinity]
      ([maximaGanancia_es_numero]).
    - Type: on an array of doubles the accumulators hold values of the type
      [number] in every reachable state ([alcanzable_tipado]).
    - Bounds: the result is at least every element and at most the sum of
      the absolute values; a single element is returned unchanged; a
      non-negative array yields its total.
    - Rounding: [redondear] is the rounding of IEEE-754: its result is a
      double, no double is nearer, ties go to the even significand
      ([redondear_spec]); the doubles are its fixed points
      ([representable_es_doble]); its relative error is at most 2^-53
      ([redondear_error]); it reaches 2^1024 exactly from 2^1024 - 2^970 on
      ([redondear_desborda]).  The quotient of two doubles is the double
      nearest to the exact quotient ([entre_cercano]); every operator
      returns a value of the type ([operadores_validos]); on integers the
      operators of [Dobles] are the addition of [JsNumero]
      ([operadores_de_entero]); [toFixed] prints the nearest decimal, the
      larger of two ([decimales_spec]), and a safe integer as [String] does
      ([toFixed_entero]).
    - Printing: the digits [String] prints for a double read back as that
      double ([decimal_corto_vuelve]), none of them can be spared
      ([decimal_corto_minimo]) and no decimal as short is nearer
      ([decimal_corto_cercano]); a safe integer prints all its digits
      ([String_de_seguro]), and beyond them [String] prints what the
      engines print ([String_de_ejemplos]).  Beyond the safe range the doubles of the
      source lose precision and the result can miss the true maximum
      ([maximaGanancia_pierde_precision]); beyond [Number.MAX_VALUE] the
      result is [Infinity] ([maximaGanancia_desborda]).
    - Interface: two calculators that keep the promise of
      [GananciaCalculatorCorrecto] agree on the domain
      ([calculadores_coinciden]); the brute-force calculator is a second
      instance.
    - Benchmark driver: the exact trace of one benchmark
      ([ejecutarBenchmark_traza]) and its failure on the empty array
      ([ejecutarBenchmark_vacio]); the random integers stay in
      [min .. max] in spite of the rounding ([generarArrayAleatorio_rango]);
      the whole run returns normally, prints 100 lines and makes 102312
      calls ([principal_termina]), every call on an array of the domain
      where the calculator is exact and with the true maximum for result
      ([principal_segura]); an array built by [Array.from] reads back what
      the callback returned ([leer_Array_from]); the results
      printed for the fixed arrays ([casos_enunciado_resultados],
      [casos_extremos_resultados]) and the correctness of the result
      printed for a random array ([caso_aleatorio_correcto]); two runs
      with the same random numbers differ in their timings only, whatever
      the clocks ([principal_sin_reloj]).
    - Timings and text of the driver: under a clock that does not run
      backwards the total and the average time are doubles that are not
      negative, the average at most the total, and the rate is a whole
      number or [Infinity] ([medidas_benchmark]); when the clock did not
      advance the benchmark prints zero, zero and [Infinity]
      ([ejecutarBenchmark_reloj_parado]); every time the whole run prints
      is printed as plain digits with decimals
      ([principal_tiempos_imprimibles]), and the seven lines of one
      benchmark are computed to the character ([pantalla_ejemplo]); the
      random
      integer on scaled integers is the one on doubles
      ([entero_aleatorio_doble_eq]).
    - Test harness: the script passes its 23 tests and runs to its end
      ([guion_pasa], [guion_escrito]); a test of the script's form passes
      exactly when the expected value is the largest segment sum
      ([espera_igual_sii]); every script keeps the counters coherent and
      counts each test once ([correr_coherente], [correr_total]); the
      process exits with code 1 exactly when a test function throws
      ([correr_codigo]); the meaning of the assertions ([assertEqual_spec],
      [assertThrows_spec], [includes_spec]); and a defect:
      [assertThrows] with a message of its own cannot fail
      ([assertThrows_ciega]).

    ** Bounds and fuel

    [bucle] receives [length parcelas] units of fuel.  The loop starts at
    [i = 1] and adds one per iteration, so [length parcelas - 1] would do;
    [bucle_termina] proves that the loop never stops for lack of fuel.  The
    bound [suma_abs xs <= MAX_SAFE_INTEGER] (2^53 - 1) makes every
    intermediate sum an exactly representable double, because each
    accumulator is the sum of a segment of the input.  The driver's random
    ranges are taken within [-2^52, 2^52), where [max - min + 1] is exact;
    the numerator of [Math.random()] ranges over [0, 2^53): the result of
    [Math.random()] is taken to be a multiple of 2^-53, which is what the
    engines return.

    [bucle_doble] has the fuel of [bucle].  [bucle_contado] spends one unit
    of fuel per test of the loop, the one that fails included: the
    [length parcelas] units it receives are the tests of a call on a
    non-empty array ([bucle_contado_eq]).  The bound of
    [maximaGanancia_doble_precision] asks for magnitudes that sum to at
    most [B <= 2^2096] units, which is [2^1022]: the argument of every sum
    then stays below [2^1023], so that no sum overflows, and its rounding
    loses at most its [2^53]th part ([redondear_error]); and for at most
    [2^52] elements, more than an array can hold, so that the error
    accumulated stays below [B].

    [ESCALA] is [2^1074] and [TECHO] is [2^2098]: the number one and the
    first magnitude beyond [Number.MAX_VALUE], in units of [2^-1074].
    [reloj_valido] bounds the clock by [10^21] ms (some thirty thousand
    million years), the magnitude from which [toFixed] changes notation.
    The search of [decimal_corto] starts at the power of ten
    [10^(log2 z + 1)], which is above [z]: no multiple of a higher power
    reads back as [z] ([potencia_grande]).

    ** What is not modelled

    [toLocaleString] formats with the locale data of the runtime (ICU): the
    text of a line takes it as a parameter, and no theorem depends on what
    it returns.  The elements of an array are numbers: an array that
    holds values of another run-time type, which the type [number[]]
    excludes, is not modelled.  [String_de] prints the numbers of integer value, which are
    the only ones the sources interpolate; on an integer that is not a
    double, which no operation produces, it prints the integer.  Array
    holes do not occur: every array of the
    repository is built by a literal, by [Array.from] or by spreading.
    Strings are sequences of bytes (UTF-8) where JavaScript has UTF-16 code
    units, which changes no comparison the sources make.  The counters of
    the test runner and the loop counters of the driver are naturals: they
    stay far below [2^53].  How long a call takes is not modelled: the
    clock is an oracle. *)

From stdpp Require Import base list numbers strings.
From Stdlib Require Import ZArith Lia.

Local Open Scope Z_scope.

(** ** Scope and notations *)

Declare Scope huerto_scope.
Delimit Scope huerto_scope with huerto.

(** ** The exception monad

    A computation that may throw: [Ok a] is a normal completion with value
    [a], [Lanza e] an abrupt completion that carries the thrown value. *)

Inductive resultado (E A : Type) : Type :=
| Ok (a : A)
| Lanza (e : E).

Arguments Ok {E A} a.
Arguments Lanza {E A} e.

#[export] Instance resultado_ret {E} : MRet (resultado E) := fun _ a => Ok a.

#[export] Instance resultado_bind {E} : MBind (resultado E) :=
  fun _ _ f m => match m with Ok a => f a | Lanza e => Lanza e end.

#[export] Instance resultado_fmap {E} : FMap (resultado E) :=
  fun _ _ f m => match m with Ok a => Ok (f a) | Lanza e => Lanza e end.

Definition es_ok {E A} (m : resultado E A) : bool :=
  match m with Ok _ => true | Lanza _ => false end.

#[export] Instance resultado_eq_dec {E A} `{EqDecision E, EqDecision A} :
  EqDecision (resultado E A).
Proof. solve_decision. Defined.

(** ** Sums of integer lists *)

Fixpoint suma (l : list Z) : Z :=
  match l with
  | [] => 0
  | x :: l => x + suma l
  end.

Fixpoint suma_abs (l : list Z) : Z :=
  match l with
  | [] => 0
  | x :: l => Z.abs x + suma_abs l
  end.

Notation "'Σ' l" := (suma l) (at level 10, l at level 9) : huerto_scope.

(** ** Tactics *)

(** [caso_bool]: case analysis on the boolean comparisons of the goal, each
    turned into the proposition it decides. *)
Ltac caso_bool :=
  repeat match goal with
  | |- context [Z.ltb ?a ?b] => destruct (Z.ltb_spec a b)
  | |- context [Z.leb ?a ?b] => destruct (Z.leb_spec a b)
  | |- context [Z.eqb ?a ?b] => destruct (Z.eqb_spec a b)
  | |- context [Nat.ltb ?a ?b] => destruct (Nat.ltb_spec a b)
  | |- context [Nat.leb ?a ?b] => destruct (Nat.leb_spec a b)
  | |- context [Nat.eqb ?a ?b] => destruct (Nat.eqb_spec a b)
  end.

(** [resultado_simpl]: unfold the monad operations of [resultado]. *)
Ltac resultado_simpl :=
  repeat (unfold mbind, mret, fmap, resultado_bind, resultado_ret,
          resultado_fmap in *; simpl in *).

Create HintDb huerto discriminated.
Create Rewrite HintDb huerto_rw.

(** ** Lemmas on the exception monad *)

Section Resultado.
Context {E A B : Type}.
Implicit Types (m : resultado E A) (f : A -> resultado E B).

Lemma bind_Ok a f : (Ok a ≫= f) = f a.
Proof. reflexivity. Qed.

Lemma bind_Lanza e f : (Lanza e ≫= f) = Lanza e.
Proof. reflexivity. Qed.

Lemma bind_Ok_inv m f b :
  (m ≫= f) = Ok b -> exists a, m = Ok a /\ f a = Ok b.
Proof. destruct m; resultado_simpl; [eauto | discriminate]. Qed.

Lemma bind_Lanza_inv m f e :
  (m ≫= f) = Lanza e -> m = Lanza e \/ exists a, m = Ok a /\ f a = Lanza e.
Proof. destruct m; resultado_simpl; intros H; [eauto | left; congruence]. Qed.

Lemma es_ok_true m : es_ok m = true <-> exists a, m = Ok a.
Proof.
  destruct m; simpl; (split; [intros H | intros [b H]]);
    first [discriminate | eauto].
Qed.

End Resultado.

(** ** Lemmas on sums *)

Section Sumas.
Implicit Types (l k : list Z) (x y : Z).

Lemma suma_nil : suma [] = 0.
Proof. reflexivity. Qed.

Lemma suma_cons x l : suma (x :: l) = x + suma l.
Proof. reflexivity. Qed.

Lemma suma_app l k : suma (l ++ k) = suma l + suma k.
Proof. induction l; simpl; lia. Qed.

Lemma suma_snoc l x : suma (l ++ [x]) = suma l + x.
Proof. rewrite suma_app; simpl; lia. Qed.

Lemma suma_abs_cons x l : suma_abs (x :: l) = Z.abs x + suma_abs l.
Proof. reflexivity. Qed.

Lemma suma_abs_app l k : suma_abs (l ++ k) = suma_abs l + suma_abs k.
Proof. induction l; simpl; lia. Qed.

Lemma suma_abs_nonneg l : 0 <= suma_abs l.
Proof. induction l; simpl; lia. Qed.

Lemma abs_suma_le l : Z.abs (suma l) <= suma_abs l.
Proof. induction l; simpl; lia. Qed.

Lemma suma_abs_elem x l : x ∈ l -> Z.abs x <= suma_abs l.
Proof.
  induction 1 as [x l|x y l _ IH]; simpl;
    [pose proof (suma_abs_nonneg l)|]; lia.
Qed.

Lemma suma_nonneg l : Forall (fun x => 0 <= x) l -> 0 <= suma l.
Proof. induction 1; simpl; lia. Qed.

Lemma suma_abs_nonneg_eq l : Forall (fun x => 0 <= x) l -> suma_abs l = suma l.
Proof. induction 1; simpl; lia. Qed.

(** A bound on every element bounds the sum of the magnitudes. *)
Lemma suma_abs_Forall (B : Z) (xs : list Z) :
  Forall (fun x => Z.abs x <= B) xs -> suma_abs xs <= Z.of_nat (length xs) * B.
Proof.
  induction 1 as [|x xs Hx _ IH]; [done|].
  rewrite suma_abs_cons. simpl length. lia.
Qed.

Lemma suma_replicate n x : suma (replicate n x) = Z.of_nat n * x.
Proof. induction n; simpl replicate; simpl suma; lia. Qed.

Lemma suma_abs_replicate n x : suma_abs (replicate n x) = Z.of_nat n * Z.abs x.
Proof. induction n; simpl replicate; simpl suma_abs; lia. Qed.

End Sumas.

#[export] Hint Rewrite suma_nil suma_cons suma_app suma_abs_cons suma_abs_app
  suma_replicate suma_abs_replicate : huerto_rw.
#[export] Hint Resolve suma_abs_nonneg abs_suma_le suma_abs_elem suma_nonneg
  : huerto.
