(* ===== verification/Redondeo.v ===== *)
(** * Redondeo: the integers that are doubles, and rounding to them

    The type [number] of the sources is IEEE-754 binary64.  On integers a
    double is a significand of at most 53 bits times a power of two
    ([es_doble]); [redondear] maps an integer to the double nearest to it,
    ties to the even significand, with the exponent left unbounded (the
    overflow to [Infinity] is applied by the operators of [JsNumero]).

    The theorems say that [redondear] is that rounding: its result is a
    double, it is the identity on doubles, no double is nearer, it is
    monotone and odd, and its relative error is at most 2^-53. *)

From stdpp Require Import base numbers.
From Stdlib Require Import ZArith Lia.
From S2P Require Import Prelude.

Local Open Scope Z_scope.

(** ** Definitions *)

(** [Number.MAX_SAFE_INTEGER]. *)
Definition MAX_SAFE_INTEGER : Z := 2 ^ 53 - 1.

(** The double nearest to the integer [z], ties to even.  Below 2^53 every
    integer is a double.  From there on a double keeps the 53 leading bits
    [q] of the magnitude; the [e] bits [r] that are dropped decide the
    direction. *)
Definition redondear (z : Z) : Z :=
  let a := Z.abs z in
  if a <? 2 ^ 53 then z
  else
    let e := Z.log2 a - 52 in
    let q := a / 2 ^ e in
    let r := a mod 2 ^ e in
    let mitad := 2 ^ (e - 1) in
    let q' := if r <? mitad then q
              else if mitad <? r then q + 1
              else if Z.even q then q else q + 1 in
    Z.sgn z * (q' * 2 ^ e).

(** [z] is a fixed point of the rounding: the executable test for a
    double. *)
Definition representable (z : Z) : Prop := redondear z = z.

(** The integer [z] is a double: a significand of at most 53 bits times a
    power of two. *)
Definition es_doble (z : Z) : Prop :=
  exists m e, 0 <= e /\ Z.abs m < 2 ^ 53 /\ z = m * 2 ^ e.

(** ** Rounding within and beyond the safe range *)

Section Redondeo.
Implicit Types (z x y m e : Z).

Lemma redondear_seguro z : Z.abs z < 2 ^ 53 -> redondear z = z.
Proof.
  intros H. unfold redondear.
  destruct (Z.ltb_spec (Z.abs z) (2 ^ 53)); [reflexivity | lia].
Qed.

Lemma redondear_limite : redondear (2 ^ 53) = 2 ^ 53 /\ redondear (- 2 ^ 53) = - 2 ^ 53.
Proof. split; reflexivity. Qed.

Lemma redondear_exacto z : Z.abs z <= 2 ^ 53 -> redondear z = z.
Proof.
  intros H. destruct (decide (Z.abs z = 2 ^ 53)) as [E|E].
  - destruct (Z.abs_spec z) as [[_ Ez]|[_ Ez]]; rewrite Ez in E.
    + rewrite E. apply redondear_limite.
    + replace z with (- 2 ^ 53) by lia. apply redondear_limite.
  - apply redondear_seguro. lia.
Qed.

Lemma redondear_MAX_SAFE z : Z.abs z <= MAX_SAFE_INTEGER -> redondear z = z.
Proof. unfold MAX_SAFE_INTEGER. intros H. apply redondear_seguro. lia. Qed.

Lemma redondear_opp z : redondear (- z) = - redondear z.
Proof.
  unfold redondear. rewrite Z.abs_opp, Z.sgn_opp.
  destruct (Z.abs z <? 2 ^ 53); lia.
Qed.

(** From 2^53 on: the exponent [e] of the last bit kept is at least 1, half
    a unit of that bit is [2 ^ (e - 1)], and 2^53 halves do not exceed [z]. *)
Lemma exponente_spec z :
  2 ^ 53 <= z ->
  1 <= Z.log2 z - 52 /\
  2 ^ (Z.log2 z - 53) * 2 = 2 ^ (Z.log2 z - 52) /\
  2 ^ (Z.log2 z - 53) * 2 ^ 53 <= z /\
  0 < 2 ^ (Z.log2 z - 53).
Proof.
  intros Hz.
  assert (53 <= Z.log2 z) as HL.
  { rewrite <- (Z.log2_pow2 53) by lia. by apply Z.log2_le_mono. }
  destruct (Z.log2_spec z) as [Hlo _]; [lia|].
  split; [lia|]. split; [|split].
  - rewrite Z.mul_comm, <- (Z.pow_succ_r 2 (Z.log2 z - 53)) by lia. f_equal. lia.
  - rewrite <- Z.pow_add_r by lia.
    by replace (Z.log2 z - 53 + 53) with (Z.log2 z) by lia.
  - apply Z.pow_pos_nonneg; lia.
Qed.

Lemma redondear_grande z :
  2 ^ 53 <= z ->
  redondear z =
  (let e := Z.log2 z - 52 in
   let q := z / 2 ^ e in
   let r := z mod 2 ^ e in
   let mitad := 2 ^ (e - 1) in
   if r <? mitad then q
   else if mitad <? r then q + 1
   else if Z.even q then q else q + 1) * 2 ^ (Z.log2 z - 52).
Proof.
  intros Hz. unfold redondear. rewrite Z.abs_eq, Z.sgn_pos by lia.
  destruct (Z.ltb_spec z (2 ^ 53)); [lia|]. cbv zeta. lia.
Qed.

(** From 2^53 on, rounding moves [z] by at most half a unit of the last bit
    kept. *)
Lemma redondear_desviacion z :
  2 ^ 53 <= z ->
  exists d, redondear z = z + d /\ Z.abs d <= 2 ^ (Z.log2 z - 53).
Proof.
  intros Hz. destruct (exponente_spec z Hz) as (He & Hdos & Hcota & Hpos).
  rewrite (redondear_grande z Hz). cbv zeta.
  replace (Z.log2 z - 52 - 1) with (Z.log2 z - 53) by lia.
  set (P := 2 ^ (Z.log2 z - 52)) in *. set (H := 2 ^ (Z.log2 z - 53)) in *.
  pose proof (Z.div_mod z P ltac:(lia)) as Hdm.
  pose proof (Z.mod_pos_bound z P ltac:(lia)) as Hr.
  set (q := z / P) in *. set (r := z mod P) in *.
  destruct (Z.ltb_spec r H); [|destruct (Z.ltb_spec H r); [|destruct (Z.even q)]].
  - exists (- r). lia.
  - exists (P - r). lia.
  - exists (- r). lia.
  - exists (P - r). lia.
Qed.

Lemma redondear_error_pos z :
  2 ^ 53 <= z -> Z.abs (redondear z - z) * 2 ^ 53 <= z.
Proof.
  intros Hz. destruct (exponente_spec z Hz) as (_ & _ & Hcota & _).
  destruct (redondear_desviacion z Hz) as (d & -> & Hd).
  replace (z + d - z) with d by lia. nia.
Qed.

(** The relative error of rounding is at most 2^-53: the distance from
    [z] to the double nearest to it, times 2^53, does not exceed the
    magnitude of [z]. *)
Theorem redondear_error z : Z.abs (redondear z - z) * 2 ^ 53 <= Z.abs z.
Proof.
  destruct (Z.lt_ge_cases (Z.abs z) (2 ^ 53)) as [H|H].
  - rewrite redondear_seguro by done. lia.
  - destruct (Z.le_ge_cases 0 z) as [Hz|Hz].
    + rewrite (Z.abs_eq z) by done. apply redondear_error_pos. lia.
    + rewrite <- (Z.opp_involutive z) at 1 2. rewrite redondear_opp.
      pose proof (redondear_error_pos (- z) ltac:(lia)). lia.
Qed.

Lemma redondear_nonneg z : 0 <= z -> 0 <= redondear z.
Proof.
  intros Hz. destruct (Z.lt_ge_cases z (2 ^ 53)) as [H|H].
  - rewrite redondear_seguro; lia.
  - pose proof (redondear_error_pos z H). lia.
Qed.

Lemma redondear_cota_sup z :
  0 <= z -> redondear z * 2 ^ 53 <= z * (2 ^ 53 + 1).
Proof.
  intros Hz. destruct (Z.lt_ge_cases z (2 ^ 53)) as [H|H].
  - rewrite redondear_seguro; lia.
  - pose proof (redondear_error_pos z H). lia.
Qed.

Lemma redondear_0 : redondear 0 = 0.
Proof. reflexivity. Qed.

End Redondeo.

(** ** The doubles, and rounding as the nearest double *)

Section Dobles.
Implicit Types (z x y w m e k q : Z).

Lemma es_doble_opp z : es_doble z -> es_doble (- z).
Proof. intros (m & e & He & Hm & ->). exists (- m), e. split_and!; [done | lia | lia]. Qed.

Lemma es_doble_seguro z : Z.abs z < 2 ^ 53 -> es_doble z.
Proof. intros H. exists z, 0. split_and!; [done | done | lia]. Qed.

(** A significand of exactly 2^53 is one of 2^52 with the next exponent. *)
Lemma es_doble_limite m e : 0 <= e -> Z.abs m <= 2 ^ 53 -> es_doble (m * 2 ^ e).
Proof.
  intros He Hm. assert (0 < 2 ^ e) by (apply Z.pow_pos_nonneg; lia).
  destruct (Z.eq_dec (Z.abs m) (2 ^ 53)) as [H1|H1].
  - exists (m / 2), (e + 1). rewrite Z.pow_add_r, Z.pow_1_r by lia.
    assert (m = 2 * (m / 2)) by (apply Z.div_exact; [lia|]; 
      assert (m = 2 ^ 53 \/ m = - 2 ^ 53) as [-> | ->] by lia; reflexivity).
    split_and!; [lia | lia | lia].
  - exists m, e. split_and!; [done | lia | done].
Qed.

(** The quotient by the unit of the last bit kept has exactly 53 bits. *)
Lemma significando_cota z :
  2 ^ 53 <= z -> 2 ^ 52 <= z / 2 ^ (Z.log2 z - 52) < 2 ^ 53.
Proof.
  intros Hz. destruct (exponente_spec z Hz) as (He & _ & _ & _).
  destruct (Z.log2_spec z) as [Hlo Hhi]; [lia|].
  set (E := Z.log2 z - 52) in *.
  assert (0 < 2 ^ E) by (apply Z.pow_pos_nonneg; lia).
  replace (Z.log2 z) with (52 + E) in Hlo by lia.
  replace (Z.succ (Z.log2 z)) with (53 + E) in Hhi by lia.
  rewrite Z.pow_add_r in Hlo, Hhi by lia. split.
  - apply Z.div_le_lower_bound; lia.
  - apply Z.div_lt_upper_bound; lia.
Qed.

Lemma redondear_divisible z :
  2 ^ 53 <= z -> z mod 2 ^ (Z.log2 z - 52) = 0 -> redondear z = z.
Proof.
  intros Hz Hmod. destruct (exponente_spec z Hz) as (He & _ & _ & Hpos).
  rewrite (redondear_grande z Hz). cbv zeta. rewrite Hmod.
  replace (Z.log2 z - 52 - 1) with (Z.log2 z - 53) by lia.
  destruct (Z.ltb_spec 0 (2 ^ (Z.log2 z - 53))); [|lia].
  pose proof (Z.div_mod z (2 ^ (Z.log2 z - 52))) as Hdm. lia.
Qed.

Lemma multiplo_divisible m e :
  0 <= e -> 0 < m <= 2 ^ 53 -> 2 ^ 53 <= m * 2 ^ e ->
  (m * 2 ^ e) mod 2 ^ (Z.log2 (m * 2 ^ e) - 52) = 0.
Proof.
  intros He Hm Hz. rewrite Z.log2_mul_pow2 by lia.
  destruct (exponente_spec _ Hz) as (HE & _). rewrite Z.log2_mul_pow2 in HE by lia.
  destruct (Z.eq_dec m (2 ^ 53)) as [->|Hne].
  - rewrite Z.log2_pow2 by lia. rewrite <- Z.pow_add_r by lia.
    replace (53 + e) with (52 + (e + 53 - 52)) by lia.
    rewrite Z.pow_add_r by lia. apply Z.mod_mul, Z.pow_nonzero; lia.
  - assert (Z.log2 m < 53) by (apply Z.log2_lt_pow2; lia).
    set (E := e + Z.log2 m - 52) in *.
    replace e with ((e - E) + E) at 1 by lia.
    rewrite Z.pow_add_r, Z.mul_assoc by lia. apply Z.mod_mul, Z.pow_nonzero; lia.
Qed.

Lemma redondear_multiplo m e :
  0 <= e -> Z.abs m <= 2 ^ 53 -> redondear (m * 2 ^ e) = m * 2 ^ e.
Proof.
  intros He Hm. assert (0 < 2 ^ e) by (apply Z.pow_pos_nonneg; lia).
  assert (forall k, 0 <= k <= 2 ^ 53 -> redondear (k * 2 ^ e) = k * 2 ^ e) as Hpos.
  { intros k Hk. destruct (Z.lt_ge_cases (k * 2 ^ e) (2 ^ 53)).
    - apply redondear_seguro. nia.
    - apply redondear_divisible; [done|]. apply multiplo_divisible; [done| nia |done]. }
  destruct (Z.le_ge_cases 0 m); [apply Hpos; lia|].
  replace (m * 2 ^ e) with (- (- m * 2 ^ e)) by lia.
  rewrite redondear_opp, Hpos by lia. done.
Qed.

Lemma redondear_forma z :
  exists m e, 0 <= e /\ Z.abs m <= 2 ^ 53 /\ redondear z = m * 2 ^ e.
Proof.
  assert (forall x, 2 ^ 53 <= x ->
    exists m e, 0 <= e /\ 0 <= m <= 2 ^ 53 /\ redondear x = m * 2 ^ e) as Hpos.
  { intros x Hx. destruct (exponente_spec x Hx) as (He & _).
    pose proof (significando_cota x Hx) as Hq.
    rewrite (redondear_grande x Hx). cbv zeta.
    eexists _, (Z.log2 x - 52). split; [lia|]. split; [|reflexivity].
    repeat case_match; lia. }
  destruct (Z.lt_ge_cases (Z.abs z) (2 ^ 53)) as [H|H].
  { exists z, 0. rewrite redondear_seguro by done. split_and!; lia. }
  destruct (Z.le_ge_cases 0 z).
  - destruct (Hpos z) as (m & e & ? & ? & ?); [lia|]. exists m, e. split_and!; [done | lia | done].
  - destruct (Hpos (- z)) as (m & e & ? & ? & Hr); [lia|]. exists (- m), e.
    rewrite redondear_opp in Hr. split_and!; [done | lia | lia].
Qed.

Lemma redondear_es_doble z : es_doble (redondear z).
Proof.
  destruct (redondear_forma z) as (m & e & He & Hm & ->). by apply es_doble_limite.
Qed.

Lemma redondear_idempotente z : redondear (redondear z) = redondear z.
Proof.
  destruct (redondear_forma z) as (m & e & He & Hm & ->). by apply redondear_multiplo.
Qed.

(** Rounding leaves a double as it is. *)
Lemma redondear_doble z : es_doble z -> redondear z = z.
Proof. intros (m & e & He & Hm & ->). apply redondear_multiplo; lia. Qed.

(** The doubles are the fixed points of the rounding: an integer written
    as a significand of at most 53 bits times a power of two is read back
    unchanged, and only such integers are. *)
Theorem representable_es_doble z : representable z <-> es_doble z.
Proof. split; [intros <-; apply redondear_es_doble | apply redondear_doble]. Qed.


(** Between two consecutive multiples of the unit of the last bit there is
    no double. *)
Lemma dobles_separados q E w :
  0 <= E -> 2 ^ 52 <= q -> es_doble w ->
  w <= q * 2 ^ E \/ (q + 1) * 2 ^ E <= w.
Proof.
  intros HE Hq (m & e & He & Hm & ->).
  assert (0 < 2 ^ E) by (apply Z.pow_pos_nonneg; lia).
  assert (0 < 2 ^ e) by (apply Z.pow_pos_nonneg; lia).
  destruct (Z.le_gt_cases (m * 2 ^ e) (q * 2 ^ E)) as [|Hgt]; [by left | right].
  assert (0 < m) by nia.
  assert (E <= e) as Hle.
  { assert (2 ^ (52 + E) < 2 ^ (53 + e)) as Hpow.
    { rewrite !Z.pow_add_r by lia. nia. }
    apply Z.pow_lt_mono_r_iff in Hpow; lia. }
  replace e with ((e - E) + E) in * by lia.
  rewrite Z.pow_add_r, Z.mul_assoc in * by lia.
  apply Z.mul_le_mono_nonneg_r; [lia|].
  assert (q < m * 2 ^ (e - E)); [|lia].
  apply (Z.mul_lt_mono_pos_r (2 ^ E)); lia.
Qed.

(** Beyond 2^53, [z] lies between two consecutive doubles, and its rounding
    is at most as far from [z] as each of them. *)
Lemma redondear_entre z :
  2 ^ 53 <= z ->
  exists lo hi,
    lo <= z <= hi /\ (forall w, es_doble w -> w <= lo \/ hi <= w) /\
    Z.abs (redondear z - z) <= z - lo /\ Z.abs (redondear z - z) <= hi - z.
Proof.
  intros Hz. destruct (exponente_spec z Hz) as (He & Hdos & _ & Hpos).
  pose proof (significando_cota z Hz) as Hq.
  rewrite (redondear_grande z Hz). cbv zeta.
  replace (Z.log2 z - 52 - 1) with (Z.log2 z - 53) by lia.
  set (E := Z.log2 z - 52) in *. set (H := 2 ^ (Z.log2 z - 53)) in *.
  pose proof (Z.div_mod z (2 ^ E) ltac:(lia)) as Hdm.
  pose proof (Z.mod_pos_bound z (2 ^ E) ltac:(lia)) as Hr.
  exists (z / 2 ^ E * 2 ^ E), ((z / 2 ^ E + 1) * 2 ^ E).
  split; [lia|]. split; [intros w Hw; apply dobles_separados; [lia | lia | done]|].
  set (q := z / 2 ^ E) in *. set (r := z mod 2 ^ E) in *.
  repeat case_match; lia.
Qed.

(** No double is nearer to [z] than [redondear z]. *)
Lemma redondear_mas_cercano z w :
  es_doble w -> Z.abs (redondear z - z) <= Z.abs (w - z).
Proof.
  intros Hw. destruct (Z.lt_ge_cases (Z.abs z) (2 ^ 53)) as [H|H].
  { rewrite redondear_seguro by done. lia. }
  destruct (Z.le_ge_cases 0 z).
  - destruct (redondear_entre z) as (lo & hi & ? & Hsep & ? & ?); [lia|].
    destruct (Hsep w Hw); lia.
  - destruct (redondear_entre (- z)) as (lo & hi & ? & Hsep & Hlo & Hhi); [lia|].
    rewrite redondear_opp in Hlo, Hhi.
    destruct (Hsep (- w) (es_doble_opp w Hw)); lia.
Qed.

(** Rounding is monotone. *)
Lemma redondear_monotona x y : x <= y -> redondear x <= redondear y.
Proof.
  intros Hxy. destruct (Z.eq_dec x y) as [->|Hne]; [done|].
  pose proof (redondear_mas_cercano x (redondear y) (redondear_es_doble y)).
  pose proof (redondear_mas_cercano y (redondear x) (redondear_es_doble x)).
  lia.
Qed.

(** The threshold of the overflow: an integer rounds to 2^1024 or more,
    beyond [Number.MAX_VALUE] = 2^1024 - 2^971, exactly when it is at least
    2^1024 - 2^970, half a unit of the last bit above the largest double. *)
Theorem redondear_desborda z :
  2 ^ 1024 <= redondear z <-> 2 ^ 1024 - 2 ^ 970 <= z.
Proof.
  split.
  - intros H. destruct (Z.le_gt_cases (2 ^ 1024 - 2 ^ 970) z) as [|Hlt]; [done|].
    pose proof (redondear_monotona z (2 ^ 1024 - 2 ^ 970 - 1) ltac:(lia)) as Hm.
    assert (redondear (2 ^ 1024 - 2 ^ 970 - 1) = 2 ^ 1024 - 2 ^ 971) as E by (by vm_compute).
    rewrite E in Hm. assert (2 ^ 1024 - 2 ^ 971 < 2 ^ 1024) by (by vm_compute). lia.
  - intros H. pose proof (redondear_monotona _ _ H) as Hm.
    assert (redondear (2 ^ 1024 - 2 ^ 970) = 2 ^ 1024) as E by (by vm_compute).
    by rewrite E in Hm.
Qed.

(** On a tie the even significand wins. *)
Lemma redondear_empate z :
  2 ^ 53 <= z ->
  z mod 2 ^ (Z.log2 z - 52) = 2 ^ (Z.log2 z - 53) ->
  Z.even (redondear z / 2 ^ (Z.log2 z - 52)) = true.
Proof.
  intros Hz Hr. destruct (exponente_spec z Hz) as (He & _ & _ & Hpos).
  rewrite (redondear_grande z Hz). cbv zeta. rewrite Hr.
  replace (Z.log2 z - 52 - 1) with (Z.log2 z - 53) by lia.
  rewrite Z.ltb_irrefl, Z.div_mul by (apply Z.pow_nonzero; lia).
  destruct (Z.even (z / _)) eqn:E; [done|].
  by rewrite Z.add_1_r, Z.even_succ, <- Z.negb_even, E.
Qed.

(** C24: [redondear] is the rounding to nearest, ties to even, of IEEE-754:
    its result is a double, no double is nearer to [z], and when [z] is
    exactly half way between two doubles the result has an even
    significand. *)
Theorem redondear_spec z :
  es_doble (redondear z) /\
  (forall w, es_doble w -> Z.abs (redondear z - z) <= Z.abs (w - z)) /\
  (2 ^ 53 <= z -> z mod 2 ^ (Z.log2 z - 52) = 2 ^ (Z.log2 z - 53) ->
   Z.even (redondear z / 2 ^ (Z.log2 z - 52)) = true).
Proof.
  split_and!; [apply redondear_es_doble | | by apply redondear_empate].
  intros w Hw. by apply redondear_mas_cercano.
Qed.

End Dobles.

#[export] Hint Resolve redondear_exacto redondear_MAX_SAFE : huerto.
