(* ===== verification/JsNumero.v ===== *)
(** * JsNumero: the JavaScript values and operators the sources use

    [src/maximaGanancia.ts] computes with the type [number] (IEEE-754
    binary64), reads array elements by index, compares with [Math.max] and
    throws an [Error].  This file gives each of these its run-time meaning on
    the values that occur when the input holds integers:

    - [valor]: an integer-valued double [Num z], [Infinity],
      [MenosInfinity] (that is, [-Infinity]), [NaN], or [Undefined];
    - [desbordar]: the overflow of a rounded result to an infinity;
    - [mas]: [a + b], the exact sum rounded by [Redondeo.redondear] and
      then [desbordar]; [Math_max]: [Math.max(a, b)]; [leer]: [parcelas[k]];
    - [bien_formado]: the values of the type [number], whose finite members
      are doubles below 2^1024 in magnitude;
    - [estrictamente_igual], [estrictamente_distinto]: [===] and [!==];
    - [Error] and [js]: the thrown object and the monad of throwing code;
      [intentar]: [try ... catch];
    - [String_repeat], [includes], [o_bien]: the string operations of the
      test harness and of the benchmark driver;
    - [String_de]: [String(v)], the text of a value in a template literal.
      A number prints the decimal of fewest digits that reads back as the
      same double ([decimal_corto]), in full up to 21 digits and with an
      exponent beyond ([notacion_exponencial]).

    The theorems give the operators their equations, show that they
    return values of the type, and give [includes] its meaning. *)

From stdpp Require Import base list numbers strings pretty.
From Stdlib Require Import ZArith Lia.
From S2P Require Import Prelude Redondeo.

Local Open Scope Z_scope.

(** ** Values *)

Inductive valor : Type :=
| Num (z : Z)
| Infinity
| MenosInfinity
| NaN
| Undefined.

#[export] Instance valor_eq_dec : EqDecision valor.
Proof. solve_decision. Defined.

#[export] Instance valor_inhabited : Inhabited valor := populate Undefined.

(** [new Error(message)]. *)
Record Error : Type := new_Error { message : string }.

#[export] Instance Error_eq_dec : EqDecision Error.
Proof. solve_decision. Defined.

(** Code that may throw an [Error]. *)
Abbreviation js := (resultado Error).

(** ** Operators *)

(** [ToNumber]: [undefined] becomes [NaN]. *)
Definition ToNumber (v : valor) : valor :=
  match v with
  | Undefined => NaN
  | _ => v
  end.

(** The value of a rounded result: a magnitude of 2^1024 or more is beyond
    [Number.MAX_VALUE] and becomes an infinity. *)
Definition desbordar (r : Z) : valor :=
  if 2 ^ 1024 <=? r then Infinity
  else if r <=? - 2 ^ 1024 then MenosInfinity
  else Num r.

(** [a + b] on operands that are numbers or [undefined]: the exact sum is
    rounded, and overflows to an infinity; infinities of opposite signs add
    up to [NaN]. *)
Definition mas (a b : valor) : valor :=
  match ToNumber a, ToNumber b with
  | Num x, Num y => desbordar (redondear (x + y))
  | Infinity, (Num _ | Infinity) | Num _, Infinity => Infinity
  | MenosInfinity, (Num _ | MenosInfinity) | Num _, MenosInfinity => MenosInfinity
  | _, _ => NaN
  end.

(** [Math.max(a, b)]: [NaN] as soon as one argument converts to [NaN]. *)
Definition Math_max (a b : valor) : valor :=
  match ToNumber a, ToNumber b with
  | NaN, _ | _, NaN => NaN
  | Infinity, _ | _, Infinity => Infinity
  | MenosInfinity, v | v, MenosInfinity => v
  | Num x, Num y => Num (Z.max x y)
  | _, _ => NaN
  end.

(** [parcelas[k]]: [undefined] when [k] is not an index of the array. *)
Definition leer (parcelas : list Z) (k : nat) : valor :=
  match parcelas !! k with
  | Some z => Num z
  | None => Undefined
  end.

(** [a === b]. *)
Definition estrictamente_igual (a b : valor) : bool :=
  match a, b with
  | Num x, Num y => x =? y
  | Infinity, Infinity | MenosInfinity, MenosInfinity => true
  | Undefined, Undefined => true
  | _, _ => false
  end.

(** [a !== b]. *)
Definition estrictamente_distinto (a b : valor) : bool :=
  negb (estrictamente_igual a b).

(** [v] is a number other than [NaN]. *)
Definition es_numero (v : valor) : bool :=
  match v with
  | Num _ | Infinity | MenosInfinity => true
  | _ => false
  end.

(** [v] is a finite number or [Infinity]: a number with a lower bound. *)
Definition es_ganancia (v : valor) : bool :=
  match v with
  | Num _ | Infinity => true
  | _ => false
  end.

(** [v] is a value of the type [number] as the engine holds it: when finite,
    a double within the range of the exponent. *)
Definition bien_formado (v : valor) : Prop :=
  match v with
  | Num z => es_doble z /\ Z.abs z < 2 ^ 1024
  | _ => True
  end.

(** An array that holds integer-valued doubles. *)
Definition array_de_dobles (xs : list Z) : Prop :=
  Forall (fun z => bien_formado (Num z)) xs.

(** [s.repeat(n)]. *)
Fixpoint String_repeat (s : string) (n : nat) : string :=
  match n with
  | O => EmptyString
  | S n' => String.append s (String_repeat s n')
  end.

(** The string ["\n"]. *)
Definition salto : string := String (Ascii.ascii_of_nat 10) EmptyString.

(** [s.includes(sub)]. *)
Fixpoint includes (s sub : string) : bool :=
  String.prefix sub s ||
  match s with
  | EmptyString => false
  | String _ s' => includes s' sub
  end.

(** The decimal with the fewest digits that reads back as the double
    [z > 0]: the search goes down from the multiples of [p = 10^e], and at
    each level tries the two multiples next to [z]; of two that read back
    as [z] the nearer is taken, and the even one when they are equally
    near. *)
Fixpoint decimal_corto_desde (z : Z) (e : nat) (p : Z) : Z :=
  match e with
  | O => z
  | S e' =>
      let lo := z / p * p in
      let hi := lo + p in
      match redondear lo =? z, redondear hi =? z with
      | true, true =>
          if z - lo <? hi - z then lo
          else if hi - z <? z - lo then hi
          else if Z.even (z / p) then lo else hi
      | true, false => lo
      | false, true => hi
      | false, false => decimal_corto_desde z e' (p / 10)
      end
  end.

(** The search starts at a power of ten above [z]. *)
Definition decimal_corto (z : Z) : Z :=
  let e := S (Z.to_nat (Z.log2 z)) in
  decimal_corto_desde z e (10 ^ Z.of_nat e).

(** [v] without its zeros on the right, of which it has at most [n]. *)
Fixpoint quitar_ceros (v : Z) (n : nat) : Z :=
  match n with
  | O => v
  | S n' => if v mod 10 =? 0 then quitar_ceros (v / 10) n' else v
  end.

(** The decimal [v] of 22 digits or more, as [String] prints it: the first
    digit, the others after a point, and the exponent. *)
Definition notacion_exponencial (v : Z) : string :=
  let n := String.length (pretty v) in
  let exponente := "e+" +:+ pretty (n - 1)%nat in
  match pretty (quitar_ceros v n) with
  | String c EmptyString => String c exponente
  | String c resto => String c ("." +:+ resto +:+ exponente)
  | EmptyString => exponente
  end.

(** [String(z)] for a double [z > 0] of integer value. *)
Definition String_de_positivo (z : Z) : string :=
  let v := decimal_corto z in
  if v <? 10 ^ 21 then pretty v else notacion_exponencial v.

(** [String(v)] and the interpolation [${v}] of a value. *)
Definition String_de (v : valor) : string :=
  match v with
  | Num z =>
      if z =? 0 then "0"
      else if z <? 0 then "-" +:+ String_de_positivo (- z)
      else String_de_positivo z
  | Infinity => "Infinity"
  | MenosInfinity => "-Infinity"
  | NaN => "NaN"
  | Undefined => "undefined"
  end.

(** [mensaje || defecto] on an optional string: [undefined] and the empty
    string are falsy. *)
Definition o_bien (mensaje : option string) (defecto : string) : string :=
  match mensaje with
  | Some (String _ _ as m) => m
  | _ => defecto
  end.

(** [try { cuerpo } catch (error) { manejador }]. *)
Definition intentar {A} (cuerpo : js A) (manejador : Error -> js A) : js A :=
  match cuerpo with
  | Ok a => Ok a
  | Lanza error => manejador error
  end.

Infix "⊞" := mas (at level 50, left associativity) : huerto_scope.
Notation "a ⊔js b" := (Math_max a b) (at level 50, left associativity) : huerto_scope.

(** ** Lemmas *)

Section Operadores.
Implicit Types (x y z : Z) (a b v : valor).

Lemma desbordar_Num r : Z.abs r < 2 ^ 1024 -> desbordar r = Num r.
Proof.
  intros H. unfold desbordar.
  destruct (Z.leb_spec (2 ^ 1024) r); [lia|].
  destruct (Z.leb_spec r (- 2 ^ 1024)); [lia | done].
Qed.

Lemma desbordar_Infinity r : 2 ^ 1024 <= r -> desbordar r = Infinity.
Proof. intros H. unfold desbordar. by destruct (Z.leb_spec (2 ^ 1024) r); [|lia]. Qed.

Lemma desbordar_casos r :
  (desbordar r = Num r /\ Z.abs r < 2 ^ 1024) \/
  (desbordar r = Infinity /\ 2 ^ 1024 <= r) \/
  (desbordar r = MenosInfinity /\ r <= - 2 ^ 1024).
Proof.
  unfold desbordar. destruct (Z.leb_spec (2 ^ 1024) r); [auto|].
  destruct (Z.leb_spec r (- 2 ^ 1024)); [auto|]. left. split; [done | lia].
Qed.

Lemma mas_Num x y : mas (Num x) (Num y) = desbordar (redondear (x + y)).
Proof. reflexivity. Qed.

(** [+] is exact when the exact sum is a safe integer. *)
Lemma mas_exacta x y :
  Z.abs (x + y) <= MAX_SAFE_INTEGER -> mas (Num x) (Num y) = Num (x + y).
Proof.
  intros H. rewrite mas_Num, redondear_MAX_SAFE by done.
  apply desbordar_Num. unfold MAX_SAFE_INTEGER in H. lia.
Qed.

Lemma mas_exacta_testigo :
  mas (Num 9007199254740990) (Num 1) = Num (9007199254740990 + 1).
Proof. apply mas_exacta. unfold MAX_SAFE_INTEGER. simpl. lia. Defined.

(** [+] is commutative on numbers, infinities, [NaN] and [undefined]. *)
Lemma mas_conmutativa a b : mas a b = mas b a.
Proof.
  destruct a as [x| | | |], b as [y| | | |]; try reflexivity.
  by rewrite !mas_Num, (Z.add_comm x y).
Qed.

Lemma Math_max_Num x y : Math_max (Num x) (Num y) = Num (Z.max x y).
Proof. reflexivity. Qed.

(** [Math.max] of a finite number and a number with a lower bound has a
    lower bound; so has the sum of two such numbers. *)
Lemma Math_max_es_ganancia a b :
  es_ganancia a = true -> es_numero b = true -> es_ganancia (Math_max a b) = true.
Proof. by destruct a, b. Qed.

Lemma mas_es_ganancia_numero a x :
  es_ganancia a = true -> es_numero (mas a (Num x)) = true.
Proof.
  destruct a as [y| | | |]; try done. intros _. rewrite mas_Num.
  by destruct (desbordar_casos (redondear (y + x))) as [[-> _]|[[-> _]|[-> _]]].
Qed.

Lemma es_ganancia_es_numero v : es_ganancia v = true -> es_numero v = true.
Proof. by destruct v. Qed.

Lemma es_ganancia_casos v :
  es_ganancia v = true <-> v = Infinity \/ exists z, v = Num z.
Proof.
  destruct v; simpl; split; try done; try (intros [?|[? ?]]; done); eauto.
Qed.

(** The operators return well-formed values. *)
Lemma desbordar_bien_formado r : es_doble r -> bien_formado (desbordar r).
Proof. intros Hr. by destruct (desbordar_casos r) as [[-> ?]|[[-> _]|[-> _]]]. Qed.

Lemma mas_bien_formado a b : bien_formado (mas a b).
Proof.
  destruct a as [x| | | |], b as [y| | | |]; try done;
    rewrite mas_Num; apply desbordar_bien_formado, redondear_es_doble.
Qed.

Lemma Math_max_bien_formado a b :
  bien_formado a -> bien_formado b -> bien_formado (Math_max a b).
Proof.
  destruct a as [x| | | |], b as [y| | | |]; try done.
  rewrite Math_max_Num. intros Hx Hy. by destruct (Z.max_spec x y) as [[_ ->]|[_ ->]].
Qed.

Lemma leer_bien_formado xs k : array_de_dobles xs -> bien_formado (leer xs k).
Proof.
  intros Hxs. unfold leer. destruct (xs !! k) as [z|] eqn:E; [|done].
  by apply (Forall_lookup_1 _ _ _ _ Hxs E).
Qed.

Lemma leer_Some parcelas k z : parcelas !! k = Some z -> leer parcelas k = Num z.
Proof. unfold leer. intros ->. reflexivity. Qed.

Lemma leer_dentro parcelas k :
  (k < length parcelas)%nat -> exists z, parcelas !! k = Some z /\ leer parcelas k = Num z.
Proof.
  intros H. destruct (lookup_lt_is_Some_2 parcelas k H) as [z Hz].
  exists z. split; [exact Hz | apply leer_Some, Hz].
Qed.

Lemma leer_fuera parcelas k :
  (length parcelas <= k)%nat -> leer parcelas k = Undefined.
Proof. intros H. unfold leer. rewrite lookup_ge_None_2; [reflexivity | lia]. Qed.

Lemma estrictamente_igual_Num x y :
  estrictamente_igual (Num x) (Num y) = true <-> x = y.
Proof. simpl. apply Z.eqb_eq. Qed.

Lemma estrictamente_igual_eq a b :
  estrictamente_igual a b = true -> a = b.
Proof. destruct a, b; simpl; try done. by intros ->%Z.eqb_eq. Qed.

Lemma NaN_distinto v : estrictamente_distinto NaN v = true.
Proof. reflexivity. Qed.

End Operadores.

#[export] Hint Rewrite Math_max_Num
  : huerto_rw.

(** ** Strings and [try ... catch] *)

Section Cadenas.
Implicit Types (s sub pre post : string).

Lemma prefix_append sub post : String.prefix sub (sub +:+ post) = true.
Proof.
  induction sub as [|c sub IH]; simpl; [by destruct post|].
  by destruct (Ascii.ascii_dec c c).
Qed.

Lemma prefix_inv sub s : String.prefix sub s = true -> exists post, s = sub +:+ post.
Proof.
  revert s. induction sub as [|c sub IH]; intros s H; [by exists s|].
  destruct s as [|c' s]; simpl in H; [done|].
  destruct (Ascii.ascii_dec c c') as [->|]; [|done].
  destruct (IH s H) as [post ->]. by exists post.
Qed.

Lemma includes_eq s sub :
  includes s sub =
  String.prefix sub s ||
  match s with EmptyString => false | String _ s' => includes s' sub end.
Proof. by destruct s. Qed.

Lemma includes_prefix s sub : String.prefix sub s = true -> includes s sub = true.
Proof. intros H. by rewrite includes_eq, H. Qed.

(** [s.includes(sub)] is true exactly when [sub] occurs in [s]: [s] is
    some prefix, then [sub], then some suffix. *)
Theorem includes_spec s sub :
  includes s sub = true <-> exists pre post, s = pre +:+ sub +:+ post.
Proof.
  split.
  - induction s as [|c s IH]; rewrite includes_eq; intros [H|H]%orb_true_iff;
      try done;
      try (destruct (prefix_inv _ _ H) as [post ->]; by exists EmptyString, post).
    destruct (IH H) as (pre & post & ->). by exists (String c pre), post.
  - intros (pre & post & ->). induction pre as [|c pre IH].
    + apply includes_prefix. apply (prefix_append sub post).
    + rewrite includes_eq. simpl in *. by rewrite IH, orb_true_r.
Qed.

Lemma includes_refl s : includes s s = true.
Proof.
  apply includes_prefix. induction s as [|c s IH]; simpl; [done|].
  by destruct (Ascii.ascii_dec c c).
Qed.

Lemma o_bien_Some c m defecto : o_bien (Some (String c m)) defecto = String c m.
Proof. done. Qed.

Lemma o_bien_None defecto : o_bien None defecto = defecto.
Proof. done. Qed.

Lemma intentar_Ok {A} (a : A) manejador : intentar (Ok a) manejador = Ok a.
Proof. done. Qed.

Lemma intentar_Lanza {A} error (manejador : Error -> js A) :
  intentar (Lanza error) manejador = manejador error.
Proof. done. Qed.

End Cadenas.

(** ** Printing numbers *)

Section Impresion.
Implicit Types (z p v : Z) (e : nat).


(** On a safe integer the search returns the integer. *)
Lemma decimal_corto_desde_seguro z e p :
  0 < z < 2 ^ 53 -> 0 <= p -> decimal_corto_desde z e p = z.
Proof.
  intros Hz. revert p. induction e as [|e IH]; intros p Hp; [done|]. simpl.
  assert (0 <= z / p * p <= z /\ z < z / p * p + p \/ p = 0) as [[Hlo Hhi]| ->].
  { destruct (Z.eq_dec p 0); [by right | left].
    pose proof (Z.div_mod z p ltac:(done)). pose proof (Z.mod_pos_bound z p ltac:(lia)).
    pose proof (Z.div_pos z p ltac:(lia) ltac:(lia)).
    pose proof (Z.mul_nonneg_nonneg (z / p) p ltac:(lia) ltac:(lia)). lia. }
  - rewrite (redondear_seguro (z / p * p)) by lia.
    assert (redondear (z / p * p + p) <> z) as Hno.
    { destruct (Z.lt_ge_cases (z / p * p + p) (2 ^ 53)).
      - rewrite redondear_seguro; lia.
      - pose proof (redondear_monotona (2 ^ 53) (z / p * p + p) ltac:(lia)) as Hm.
        rewrite (redondear_exacto (2 ^ 53)) in Hm by done. lia. }
    destruct (Z.eqb_spec (z / p * p) z) as [Heq|_],
      (Z.eqb_spec (redondear (z / p * p + p)) z) as [?|_]; try done.
    apply IH. apply Z.div_pos; lia.
  - rewrite Z.div_0_r, Z.mul_0_l, Z.add_0_l, redondear_0.
    destruct (Z.eqb_spec 0 z); [lia|]. by apply IH.
Qed.

(** A multiple of [p] that reads back as [z] makes one of the two
    multiples next to [z] read back as [z]. *)
Lemma multiplo_valido z p v :
  es_doble z -> 0 < p -> (p | v) -> redondear v = z ->
  redondear (z / p * p) = z \/ redondear (z / p * p + p) = z.
Proof.
  intros Hz Hp [k ->] Hv.
  pose proof (Z.div_mod z p ltac:(lia)). pose proof (Z.mod_pos_bound z p Hp).
  pose proof (redondear_doble z Hz) as Hzz.
  destruct (Z.le_gt_cases k (z / p)) as [Hle|Hgt].
  - left. assert (k * p <= z / p * p) by (apply Z.mul_le_mono_nonneg_r; lia).
    pose proof (redondear_monotona (k * p) (z / p * p) ltac:(done)).
    pose proof (redondear_monotona (z / p * p) z ltac:(lia)). lia.
  - right. assert ((z / p + 1) * p <= k * p) by (apply Z.mul_le_mono_nonneg_r; lia).
    assert (z / p * p + p <= k * p) by lia.
    pose proof (redondear_monotona (z / p * p + p) (k * p) ltac:(done)).
    pose proof (redondear_monotona z (z / p * p + p) ltac:(lia)). lia.
Qed.

(** The decimal found is a multiple of every power of ten, up to the level
    the search started from, that divides a decimal that reads back as
    [z]. *)
Lemma decimal_corto_desde_minimo z e e' v :
  es_doble z -> (e' <= e)%nat -> (10 ^ Z.of_nat e' | v) -> redondear v = z ->
  (10 ^ Z.of_nat e' | decimal_corto_desde z e (10 ^ Z.of_nat e)).
Proof.
  intros Hz. induction e as [|e IH]; intros He' Hdiv Hv.
  { assert (e' = 0)%nat as -> by lia. apply Z.divide_1_l. }
  cbn [decimal_corto_desde]. set (p := 10 ^ Z.of_nat (S e)).
  assert (0 < p) as Hp by (apply Z.pow_pos_nonneg; lia).
  assert (p / 10 = 10 ^ Z.of_nat e) as Hp10.
  { unfold p. rewrite Nat2Z.inj_succ, Z.pow_succ_r by lia.
    rewrite Z.mul_comm, Z.div_mul; lia. }
  assert (forall k, (10 ^ Z.of_nat e' | k * p)) as Hmult.
  { intros k. apply Z.divide_mul_r. unfold p.
    replace (Z.of_nat (S e)) with (Z.of_nat e' + (Z.of_nat (S e) - Z.of_nat e')) by lia.
    rewrite Z.pow_add_r by lia. apply Z.divide_factor_l. }
  assert ((10 ^ Z.of_nat e' | z / p * p) /\ (10 ^ Z.of_nat e' | z / p * p + p)) as [Dlo Dhi].
  { split; [apply Hmult|]. replace (z / p * p + p) with ((z / p + 1) * p) by ring. apply Hmult. }
  destruct (Z.eqb_spec (redondear (z / p * p)) z) as [Hlo|Hlo],
    (Z.eqb_spec (redondear (z / p * p + p)) z) as [Hhi|Hhi];
    repeat case_match; try done.
  rewrite Hp10. destruct (decide (e' = S e)) as [->|]; [|apply IH; [lia | done..]].
  destruct (multiplo_valido z p v Hz Hp Hdiv Hv); done.
Qed.

(** Of the decimals that read back as [z] and have no more digits than the
    decimal found, none is nearer to [z]. *)
Lemma decimal_corto_desde_cercano z e v :
  es_doble z -> redondear v = z ->
  (forall e', (10 ^ Z.of_nat e' | decimal_corto_desde z e (10 ^ Z.of_nat e)) ->
              (10 ^ Z.of_nat e' | v)) ->
  Z.abs (decimal_corto_desde z e (10 ^ Z.of_nat e) - z) <= Z.abs (v - z).
Proof.
  intros Hz Hv. induction e as [|e IH]; [simpl; lia|].
  cbn [decimal_corto_desde]. set (p := 10 ^ Z.of_nat (S e)).
  assert (0 < p) as Hp by (apply Z.pow_pos_nonneg; lia).
  assert (p / 10 = 10 ^ Z.of_nat e) as ->.
  { unfold p. rewrite Nat2Z.inj_succ, Z.pow_succ_r by lia.
    rewrite Z.mul_comm, Z.div_mul; lia. }
  pose proof (Z.div_mod z p ltac:(lia)). pose proof (Z.mod_pos_bound z p Hp).
  pose proof (redondear_doble z Hz) as Hzz.
  assert ((p | z / p * p) /\ (p | z / p * p + p)) as [Dlo Dhi].
  { split; [apply Z.divide_factor_r|]. exists (z / p + 1). ring. }
  assert ((p | v) -> (v <= z / p * p \/ z / p * p + p <= v) /\
          (v <= z / p * p -> redondear (z / p * p) = z) /\
          (z / p * p + p <= v -> redondear (z / p * p + p) = z)) as Hsep.
  { intros [k ->]. split_and!.
    - destruct (Z.le_gt_cases k (z / p)); [left | right].
      + apply Z.mul_le_mono_nonneg_r; lia.
      + replace (z / p * p + p) with ((z / p + 1) * p) by ring.
        apply Z.mul_le_mono_nonneg_r; lia.
    - intros Hle. apply redondear_monotona in Hle as Hm.
      pose proof (redondear_monotona (z / p * p) z ltac:(lia)). lia.
    - intros Hle. apply redondear_monotona in Hle as Hm.
      pose proof (redondear_monotona z (z / p * p + p) ltac:(lia)). lia. }
  destruct (Z.eqb_spec (redondear (z / p * p)) z) as [Hlo|Hlo],
    (Z.eqb_spec (redondear (z / p * p + p)) z) as [Hhi|Hhi];
    repeat case_match; try (by apply IH);
    intros Hdiv; destruct Hsep as ([?|?] & ? & ?); first [by apply (Hdiv (S e)) | lia].
Qed.

Lemma decimal_corto_seguro z : 0 < z < 2 ^ 53 -> decimal_corto z = z.
Proof.
  intros Hz. apply decimal_corto_desde_seguro; [done|]. apply Z.pow_nonneg. lia.
Qed.

(** No positive multiple of a power of ten above the start of the search
    reads back as [z]. *)
Lemma potencia_grande z e v :
  0 < z -> (Z.to_nat (Z.log2 z) < e)%nat -> 0 < v -> (10 ^ Z.of_nat e | v) ->
  redondear v <> z.
Proof.
  intros Hz He Hv Hdiv Heq. pose proof (Z.log2_nonneg z) as HL.
  destruct (Z.log2_spec z Hz) as [_ Hlt].
  assert (2 ^ Z.succ (Z.log2 z) <= v) as Hle.
  { etrans; [|apply Z.divide_pos_le; [exact Hv | exact Hdiv]].
    etrans; [apply (Z.pow_le_mono_r 2 _ (Z.of_nat e)); lia|].
    apply Z.pow_le_mono_l. lia. }
  apply redondear_monotona in Hle.
  rewrite (redondear_doble (2 ^ Z.succ (Z.log2 z))) in Hle; [lia|].
  rewrite <- (Z.mul_1_l (2 ^ _)). apply es_doble_limite; [lia | done].
Qed.

(** Without decimals to drop, a safe integer prints all its digits. *)
Lemma String_de_seguro z : Z.abs z < 2 ^ 53 -> String_de (Num z) = pretty z.
Proof.
  intros Hz. unfold String_de, String_de_positivo.
  destruct (Z.eqb_spec z 0) as [->|]; [done|].
  destruct (Z.ltb_spec z 0).
  - rewrite decimal_corto_seguro by lia.
    destruct (Z.ltb_spec (- z) (10 ^ 21)); [|lia]. by destruct z.
  - rewrite decimal_corto_seguro by lia.
    destruct (Z.ltb_spec z (10 ^ 21)); [done | lia].
Qed.

Lemma String_de_inj x y :
  Z.abs x < 2 ^ 53 -> Z.abs y < 2 ^ 53 ->
  String_de (Num x) = String_de (Num y) -> x = y.
Proof. intros Hx Hy. rewrite !String_de_seguro by done. apply (inj pretty). Qed.

End Impresion.

(** ** Properties of the printing *)

Section PropiedadesImpresion.
Implicit Types (z v : Z) (e : nat).


(** [String] prints no digit it could spare: every power of ten that
    divides some positive decimal that reads back as the double [z] also
    divides the decimal chosen for [z], which therefore ends in at least as
    many zeros. *)
Theorem decimal_corto_minimo z e v :
  es_doble z -> 0 < z -> 0 < v -> (10 ^ Z.of_nat e | v) -> redondear v = z ->
  (10 ^ Z.of_nat e | decimal_corto z).
Proof.
  intros Hz Hpos Hv Hdiv Hr. unfold decimal_corto.
  destruct (le_lt_dec e (S (Z.to_nat (Z.log2 z)))) as [Hle|Hgt].
  - by apply (decimal_corto_desde_minimo z _ e v).
  - by destruct (potencia_grande z e v Hpos ltac:(lia) Hv Hdiv).
Qed.

(** Of the decimals that read back as the double [z] and are as
    short as the decimal [String] prints (they end in as many zeros), none
    is nearer to [z]. *)
Theorem decimal_corto_cercano z v :
  es_doble z -> redondear v = z ->
  (forall e, (10 ^ Z.of_nat e | decimal_corto z) -> (10 ^ Z.of_nat e | v)) ->
  Z.abs (decimal_corto z - z) <= Z.abs (v - z).
Proof. intros Hz Hv Hdiv. by apply decimal_corto_desde_cercano. Qed.

(** What [String] prints beyond the safe integers: 2^60, whose digits end
    in zeros that are not its own; 10^21, the first number with an
    exponent; and a negative number with a point and an exponent. *)
Example String_de_ejemplos :
  String_de (Num (2 ^ 60)) = "1152921504606847000" /\
  String_de (Num (10 ^ 21)) = "1e+21" /\
  String_de (Num (- 2 ^ 70)) = "-1.1805916207174113e+21".
Proof. by vm_compute. Qed.

End PropiedadesImpresion.

(** ** Witnesses *)

Section TestigosImpresion.


(** 2^60 is 1152921504606846976, and 1152921504606847000 reads back as
    2^60: the decimal chosen ends in three zeros too. *)
Lemma decimal_corto_minimo_testigo : (10 ^ Z.of_nat 3 | decimal_corto (2 ^ 60)).
Proof.
  apply (decimal_corto_minimo (2 ^ 60) 3 1152921504606847000);
    [apply (es_doble_limite 1 60); lia | lia | lia
    | by exists 1152921504606847 | by vm_compute].
Defined.

(** 2^56 + 48 is 72057594037927984: the decimals ...980 and ...990 both
    read back as it, no multiple of 100 does, and ...980 is printed. *)
Lemma decimal_corto_cercano_testigo :
  Z.abs (decimal_corto 72057594037927984 - 72057594037927984) <=
  Z.abs (72057594037927990 - 72057594037927984).
Proof.
  apply decimal_corto_cercano;
    [apply (es_doble_limite (2 ^ 52 + 3) 4); lia | by vm_compute |].
  replace (decimal_corto 72057594037927984) with 72057594037927980 by (by vm_compute).
  intros [|[|e]] Hdiv; [apply Z.divide_1_l | by exists 7205759403792799 |].
  exfalso. assert ((100 | 72057594037927980)) as [k Hk]; [|lia].
  etrans; [|exact Hdiv]. exists (10 ^ Z.of_nat e).
  rewrite !Nat2Z.inj_succ, !Z.pow_succ_r by lia. ring.
Defined.

End TestigosImpresion.

#[export] Hint Rewrite @intentar_Ok @intentar_Lanza o_bien_Some o_bien_None : huerto_rw.
