(* ===== verification/Dobles.v ===== *)
(** * Dobles: JavaScript numbers with fractions, signed zero and infinities

    [JsNumero] keeps the numbers of [maximaGanancia] as integers, which is
    what the arrays of the repository hold.  The benchmark driver also
    computes with readings of a clock in milliseconds, divides them and
    prints them with decimals (lines 37 to 46 of
    [src/maximaGanancia.bench.ts]), and draws fractions from [Math.random]
    (line 15).  This file models those numbers.

    Every finite double is an integer number of units of [2^-1074], the
    smallest positive double: [Finito u] is the double [u * 2^-1074].  In
    these units a subnormal double is an integer below [2^52] and a normal
    one an integer of at most 53 significant bits, so that [Redondeo.es_doble]
    and [Redondeo.redondear] are the doubles and their rounding here as they
    are on integers.  [TECHO] is [2^1024] in units: a result that rounds to
    it or beyond is an infinity.

    - [numero]: a double, with its negative zero, infinities and NaN;
    - [sumar], [menos], [por], [entre], [Math_floor]: the operators [+],
      [-], [*], [/] and [Math.floor] of IEEE 754 in round to nearest, ties
      to even;
    - [toFixed]: [Number.prototype.toFixed]: below [10^21] the digits of
      the nearest decimal (ties up), from [10^21] on what [String] prints;
    - [de_valor]: the numbers of [JsNumero] among these. *)

From stdpp Require Import base numbers strings pretty.
From Stdlib Require Import ZArith Lia.
From S2P Require Import Prelude Redondeo JsNumero.

Local Open Scope Z_scope.

(** ** The numbers *)

Inductive numero : Type :=
| Finito (u : Z)
| MenosCero
| MasInf
| MenosInf
| NoNum.

#[export] Instance numero_eq_dec : EqDecision numero.
Proof. solve_decision. Defined.

(** [2^1074]: the number one, in units. *)
Definition ESCALA : Z := 2 ^ 1074.

(** [2^1024], in units: the first magnitude that is not finite. *)
Definition TECHO : Z := 2 ^ 2098.

(** The integer [z] as a double, when it is one. *)
Definition de_entero (z : Z) : numero := Finito (z * ESCALA).

Definition negativo (x : numero) : bool :=
  match x with
  | Finito u => u <? 0
  | MenosCero | MenosInf => true
  | _ => false
  end.

Definition unidades (x : numero) : Z :=
  match x with
  | Finito u => u
  | _ => 0
  end.

Definition cero (neg : bool) : numero := if neg then MenosCero else Finito 0.
Definition infinito (neg : bool) : numero := if neg then MenosInf else MasInf.

Definition es_infinito (x : numero) : bool :=
  match x with MasInf | MenosInf => true | _ => false end.

Definition es_cero (x : numero) : bool :=
  match x with Finito 0 | MenosCero => true | _ => false end.

(** The double of sign [neg] and of magnitude [r], a rounded number of
    units: a zero keeps its sign, and [TECHO] is already infinite. *)
Definition con_signo (neg : bool) (r : Z) : numero :=
  if r =? 0 then cero neg
  else if TECHO <=? r then infinito neg
  else Finito (if neg then - r else r).

(** The quotient [a / q] of two naturals rounded to a double of integer
    value: to the nearest integer below [2^53], to 53 significant bits from
    there on, ties to even.  A remainder of the division breaks a tie of
    the dropped bits upwards. *)
Definition redondear_cociente (a q : Z) : Z :=
  let f := a / q in
  let resto := a mod q in
  if f <? 2 ^ 53 then
    if 2 * resto <? q then f
    else if q <? 2 * resto then f + 1
    else if Z.even f then f else f + 1
  else
    let e := Z.log2 f - 52 in
    let m := f / 2 ^ e in
    let r := f mod 2 ^ e in
    let mitad := 2 ^ (e - 1) in
    let m' := if r <? mitad then m
              else if (mitad <? r) || (0 <? resto) then m + 1
              else if Z.even m then m else m + 1 in
    m' * 2 ^ e.

(** ** The operators *)

(** [x + y]. *)
Definition sumar (x y : numero) : numero :=
  match x, y with
  | NoNum, _ | _, NoNum => NoNum
  | MasInf, MenosInf | MenosInf, MasInf => NoNum
  | MasInf, _ | _, MasInf => MasInf
  | MenosInf, _ | _, MenosInf => MenosInf
  | MenosCero, MenosCero => MenosCero
  | _, _ =>
      let d := redondear (unidades x + unidades y) in
      con_signo (d <? 0) (Z.abs d)
  end.

(** [x - y]. *)
Definition menos (x y : numero) : numero :=
  match x, y with
  | NoNum, _ | _, NoNum => NoNum
  | MasInf, MasInf | MenosInf, MenosInf => NoNum
  | MasInf, _ | _, MenosInf => MasInf
  | MenosInf, _ | _, MasInf => MenosInf
  | MenosCero, Finito 0 => MenosCero
  | _, _ =>
      let d := redondear (unidades x - unidades y) in
      con_signo (d <? 0) (Z.abs d)
  end.

(** [x * y]. *)
Definition por (x y : numero) : numero :=
  match x, y with
  | NoNum, _ | _, NoNum => NoNum
  | _, _ =>
      let neg := xorb (negativo x) (negativo y) in
      if es_infinito x || es_infinito y then
        (if es_cero x || es_cero y then NoNum else infinito neg)
      else
        con_signo neg
          (redondear_cociente (Z.abs (unidades x) * Z.abs (unidades y)) ESCALA)
  end.

(** [x / y]. *)
Definition entre (x y : numero) : numero :=
  match x, y with
  | NoNum, _ | _, NoNum => NoNum
  | _, _ =>
      let neg := xorb (negativo x) (negativo y) in
      if es_infinito x then (if es_infinito y then NoNum else infinito neg)
      else if es_infinito y then cero neg
      else
        let p := Z.abs (unidades x) in
        let q := Z.abs (unidades y) in
        if q =? 0 then (if p =? 0 then NoNum else infinito neg)
        else con_signo neg (redondear_cociente (p * ESCALA) q)
  end.

(** [Math.floor(x)]. *)
Definition Math_floor (x : numero) : numero :=
  match x with
  | Finito u => Finito (u / ESCALA * ESCALA)
  | _ => x
  end.

(** ** Printing *)

(** The integer [n] for which [n / 10^f] is nearest to [a] units, the
    larger one of two. *)
Definition decimales (a : Z) (f : nat) : Z :=
  (2 * a * 10 ^ Z.of_nat f + ESCALA) / (2 * ESCALA).

(** The digits [m] of [decimales] with the point [f] places from the right,
    after zeros on the left when there are too few. *)
Definition poner_punto (m : string) (f : nat) : string :=
  if (f =? 0)%nat then m
  else
    let m := if (String.length m <=? f)%nat
             then String_repeat "0" (f + 1 - String.length m) +:+ m
             else m in
    let k := String.length m in
    String.substring 0 (k - f) m +:+ "." +:+ String.substring (k - f) f m.

(** [x.toFixed(f)], for [f] from 0 to 100.  A magnitude of [10^21] or
    more, which is an integer, prints as [String] prints it. *)
Definition toFixed (x : numero) (f : nat) : string :=
  match x with
  | NoNum => "NaN"
  | MasInf => "Infinity"
  | MenosInf => "-Infinity"
  | MenosCero | Finito _ =>
      let u := unidades x in
      let a := Z.abs u in
      if 10 ^ 21 * ESCALA <=? a then String_de (Num (u / ESCALA))
      else
        let m := poner_punto (pretty (decimales a f)) f in
        if u <? 0 then "-" +:+ m else m
  end.

(** The numbers [toFixed] prints as digits with a fixed number of decimals
    and no sign: the finite ones from zero to [10^21], excluded. *)
Definition imprimible (x : numero) : Prop :=
  match x with
  | Finito u => 0 <= u < 10 ^ 21 * ESCALA
  | _ => False
  end.

(** ** Well-formed numbers, and the integers among them *)

Definition numero_valido (x : numero) : Prop :=
  match x with
  | Finito u => es_doble u /\ Z.abs u < TECHO
  | _ => True
  end.

Definition de_valor (v : valor) : numero :=
  match v with
  | Num z => de_entero z
  | Infinity => MasInf
  | MenosInfinity => MenosInf
  | NaN | Undefined => NoNum
  end.

(** ** The rounded quotient *)

Section Cociente.
Implicit Types (a q f w m r : Z).

(** Dividing by one is rounding. *)
Lemma redondear_cociente_uno a : 0 <= a -> redondear_cociente a 1 = redondear a.
Proof.
  intros Ha. unfold redondear_cociente. rewrite Z.div_1_r, Z.mod_1_r.
  destruct (Z.ltb_spec a (2 ^ 53)).
  - rewrite redondear_seguro by lia. done.
  - rewrite (redondear_grande a) by done. cbv zeta.
    by rewrite Z.ltb_irrefl, orb_false_r.
Qed.

(** Two facts on a quotient with a remainder, used with (r, M) the dropped
    bits and half a unit, or the whole unit. *)
Lemma resto_menor q r resto M :
  0 < q -> 0 <= resto < q -> r < M -> q * r + resto < q * M.
Proof. intros Hq Hr Hlt. assert (q * (r + 1) <= q * M) by (apply Z.mul_le_mono_nonneg_l; lia). lia. Qed.

Lemma resto_mayor q r resto M :
  0 < q -> 0 <= resto -> M < r -> q * M < q * r + resto.
Proof. intros Hq Hr Hlt. assert (q * (M + 1) <= q * r) by (apply Z.mul_le_mono_nonneg_l; lia). lia. Qed.

Lemma producto_separado q f w :
  0 < q -> w <= f \/ f + 1 <= w -> w * q <= f * q \/ f * q + q <= w * q.
Proof.
  intros Hq [H|H]; [left | right].
  - apply Z.mul_le_mono_nonneg_r; lia.
  - replace (f * q + q) with ((f + 1) * q) by ring. apply Z.mul_le_mono_nonneg_r; lia.
Qed.

(** Below 2^53 the doubles are one unit apart. *)
Lemma redondear_cociente_pequeno a q w :
  0 <= a -> 0 < q -> a / q < 2 ^ 53 ->
  Z.abs (redondear_cociente a q * q - a) <= Z.abs (w * q - a).
Proof.
  intros Ha Hq Hf. unfold redondear_cociente.
  destruct (Z.ltb_spec (a / q) (2 ^ 53)) as [_|?]; [|lia].
  pose proof (Z.div_mod a q ltac:(lia)) as Hdm.
  pose proof (Z.mod_pos_bound a q Hq) as Hr.
  set (f := a / q) in *. set (r := a mod q) in *.
  pose proof (producto_separado q f w Hq ltac:(lia)) as Hw.
  rewrite (Z.mul_comm q f) in Hdm. clear Hf.
  repeat case_match; rewrite ?Z.mul_add_distr_r, ?Z.mul_1_l;
    set (X := f * q) in *; set (Y := w * q) in *; lia.
Qed.

(** From 2^53 on, the quotient lies between two consecutive doubles, and its
    rounding is at most as far from it as each of them. *)
Lemma redondear_cociente_grande a q :
  0 <= a -> 0 < q -> 2 ^ 53 <= a / q ->
  exists lo hi,
    lo * q <= a <= hi * q /\ (forall w, es_doble w -> w <= lo \/ hi <= w) /\
    Z.abs (redondear_cociente a q * q - a) <= a - lo * q /\
    Z.abs (redondear_cociente a q * q - a) <= hi * q - a.
Proof.
  intros Ha Hq Hf. unfold redondear_cociente.
  destruct (Z.ltb_spec (a / q) (2 ^ 53)) as [?|_]; [lia|].
  pose proof (Z.div_mod a q ltac:(lia)) as Hdm.
  pose proof (Z.mod_pos_bound a q Hq) as Hr.
  set (f := a / q) in *. set (resto := a mod q) in *.
  destruct (exponente_spec f Hf) as (He & Hdos & _ & Hpos).
  pose proof (significando_cota f Hf) as Hm.
  replace (Z.log2 f - 52 - 1) with (Z.log2 f - 53) by lia.
  set (E := Z.log2 f - 52) in *. set (M := 2 ^ (Z.log2 f - 53)) in *.
  pose proof (Z.div_mod f (2 ^ E) ltac:(lia)) as Hdm'.
  pose proof (Z.mod_pos_bound f (2 ^ E) ltac:(lia)) as Hr'.
  set (m := f / 2 ^ E) in *. set (r := f mod 2 ^ E) in *.
  set (P := 2 ^ E) in *.
  exists (m * P), ((m + 1) * P).
  assert (m * P * q = a - (q * r + resto)) as Hlo by (rewrite Hdm, Hdm'; ring).
  assert ((m + 1) * P * q = a - (q * r + resto) + 2 * (q * M)) as Hhi
    by (rewrite Hdm, Hdm', <- Hdos; ring).
  pose proof (resto_menor q r resto P Hq Hr ltac:(lia)) as HltP.
  pose proof (Z.mul_nonneg_nonneg q r ltac:(lia) ltac:(lia)) as Hqr.
  assert (q * P = 2 * (q * M)) as HP by (rewrite <- Hdos; ring).
  split_and!; [rewrite Hlo; lia | rewrite Hhi; lia
              | intros w Hw; apply dobles_separados; [lia | lia | done] |..].
  all: destruct (Z.ltb_spec r M) as [Hlt|Hge];
    [pose proof (resto_menor q r resto M Hq Hr Hlt)|
     destruct (Z.ltb_spec M r) as [Hgt|Hle]; simpl;
       [pose proof (resto_mayor q r resto M Hq ltac:(lia) Hgt)|
        assert (q * r = q * M) by (f_equal; lia);
        destruct (Z.ltb_spec 0 resto); [|destruct (Z.even m)]]].
  all: rewrite ?Hlo, ?Hhi; lia.
Qed.

(** No double is nearer to the quotient than its rounding. *)
Lemma redondear_cociente_cercano a q w :
  0 <= a -> 0 < q -> es_doble w ->
  Z.abs (redondear_cociente a q * q - a) <= Z.abs (w * q - a).
Proof.
  intros Ha Hq Hw. destruct (Z.lt_ge_cases (a / q) (2 ^ 53)).
  { by apply redondear_cociente_pequeno. }
  destruct (redondear_cociente_grande a q) as (lo & hi & ? & Hsep & ? & ?); [done..|].
  destruct (Hsep w Hw) as [Hle|Hle];
    apply (Z.mul_le_mono_nonneg_r _ _ q) in Hle; lia.
Qed.

Lemma redondear_cociente_forma a q :
  0 <= a -> 0 < q ->
  exists m e, 0 <= e /\ 0 <= m <= 2 ^ 53 /\ redondear_cociente a q = m * 2 ^ e.
Proof.
  intros Ha Hq. unfold redondear_cociente.
  pose proof (Z.div_pos a q Ha Hq) as Hf.
  destruct (Z.ltb_spec (a / q) (2 ^ 53)) as [Hlt|Hge].
  - eexists _, 0. split; [done|]. rewrite Z.pow_0_r, Z.mul_1_r.
    split; [|reflexivity]. repeat case_match; lia.
  - destruct (exponente_spec _ Hge) as (He & _).
    pose proof (significando_cota _ Hge) as Hm. cbv zeta.
    eexists _, _. split; [|split; [|reflexivity]]; [lia|].
    repeat case_match; lia.
Qed.

Lemma redondear_cociente_es_doble a q :
  0 <= a -> 0 < q -> es_doble (redondear_cociente a q).
Proof.
  intros Ha Hq. destruct (redondear_cociente_forma a q Ha Hq) as (m & e & He & Hm & ->).
  apply es_doble_limite; lia.
Qed.

Lemma redondear_cociente_nonneg a q : 0 <= a -> 0 < q -> 0 <= redondear_cociente a q.
Proof.
  intros Ha Hq. destruct (redondear_cociente_forma a q Ha Hq) as (m & e & He & Hm & ->).
  apply Z.mul_nonneg_nonneg; [lia|]. apply Z.pow_nonneg. lia.
Qed.

(** The rounded quotient does not exceed a double above the exact one. *)
Lemma redondear_cociente_cota a q w :
  0 <= a -> 0 < q -> es_doble w -> a <= w * q -> redondear_cociente a q <= w.
Proof.
  intros Ha Hq Hw Hle. pose proof (redondear_cociente_cercano a q w Ha Hq Hw) as Hc.
  destruct (Z.le_gt_cases (redondear_cociente a q) w) as [|Hgt]; [done|].
  assert ((w + 1) * q <= redondear_cociente a q * q)
    by (apply Z.mul_le_mono_nonneg_r; lia). lia.
Qed.

End Cociente.

(** ** The operators on clock readings and counts *)

Section Numeros.
Implicit Types (x y : numero) (u p q r t d n z k : Z).

Lemma ESCALA_pos : 0 < ESCALA.
Proof. by vm_compute. Qed.

Lemma TECHO_ESCALA : TECHO = 2 ^ 1024 * ESCALA.
Proof. by vm_compute. Qed.

Lemma TECHO_ESCALA_def neg r :
  con_signo neg r =
  if r =? 0 then cero neg
  else if 2 ^ 1024 * ESCALA <=? r then infinito neg
  else Finito (if neg then - r else r).
Proof. unfold con_signo. by rewrite TECHO_ESCALA. Qed.

Lemma infinito_valido neg : numero_valido (infinito neg).
Proof. by destruct neg. Qed.

Lemma cero_valido neg : numero_valido (cero neg).
Proof. destruct neg; [done|]. split; [by apply es_doble_seguro | by vm_compute]. Qed.

Lemma con_signo_valido neg r : 0 <= r -> es_doble r -> numero_valido (con_signo neg r).
Proof.
  intros Hr Hd. unfold con_signo.
  destruct (Z.eqb_spec r 0) as [->|]; [apply cero_valido|].
  destruct (Z.leb_spec TECHO r); [by destruct neg|].
  destruct neg; simpl; (split; [|lia]); [by apply es_doble_opp | done].
Qed.

Lemma con_signo_Finito r : 0 <= r < TECHO -> con_signo false r = Finito r.
Proof.
  intros Hr. unfold con_signo. destruct (Z.eqb_spec r 0) as [->|]; [done|].
  destruct (Z.leb_spec TECHO r); [lia | done].
Qed.

(** The difference of two clock readings. *)
Lemma menos_Finito t1 t0 :
  0 <= t0 <= t1 -> es_doble t1 -> t1 < TECHO ->
  menos (Finito t1) (Finito t0) = Finito (redondear (t1 - t0)) /\
  0 <= redondear (t1 - t0) <= t1.
Proof.
  intros Ht Hd Hlt.
  assert (0 <= redondear (t1 - t0) <= t1) as Hr.
  { split; [apply redondear_nonneg; lia|].
    rewrite <- (redondear_doble t1 Hd) at 2.
    apply redondear_monotona. lia. }
  split; [|done]. unfold menos. simpl.
  destruct (Z.ltb_spec (redondear (t1 - t0)) 0); [lia|].
  rewrite Z.abs_eq by lia. apply con_signo_Finito. lia.
Qed.

(** The quotient of a time by a count. *)
Lemma entre_Finito p n :
  0 <= p -> es_doble p -> p < TECHO -> 0 < n ->
  entre (Finito p) (de_entero n) =
    Finito (redondear_cociente (p * ESCALA) (n * ESCALA)) /\
  0 <= redondear_cociente (p * ESCALA) (n * ESCALA) <= p.
Proof.
  intros Hp Hd Hlt Hn. pose proof ESCALA_pos as HE.
  assert (0 < n * ESCALA) as Hq by (apply Z.mul_pos_pos; lia).
  assert (0 <= p * ESCALA) as Ha by (apply Z.mul_nonneg_nonneg; lia).
  assert (0 <= redondear_cociente (p * ESCALA) (n * ESCALA) <= p) as Hr.
  { split; [by apply redondear_cociente_nonneg|].
    apply redondear_cociente_cota; [done..|].
    rewrite Z.mul_assoc. apply Z.mul_le_mono_nonneg_r; [lia|].
    rewrite <- (Z.mul_1_r p) at 1. apply Z.mul_le_mono_nonneg_l; lia. }
  split; [|done]. unfold entre, de_entero. simpl.
  destruct (Z.ltb_spec p 0); [lia|]. destruct (Z.ltb_spec (n * ESCALA) 0); [lia|].
  simpl. rewrite (Z.abs_eq p), (Z.abs_eq (n * ESCALA)) by lia.
  destruct (Z.eqb_spec (n * ESCALA) 0); [lia|]. apply con_signo_Finito. lia.
Qed.

(** Dividing by a time that is zero. *)
Lemma entre_cero n : 0 < n -> entre (de_entero n) (Finito 0) = MasInf.
Proof.
  intros Hn. pose proof ESCALA_pos. unfold entre, de_entero. simpl.
  destruct (Z.ltb_spec (n * ESCALA) 0); [lia|]. simpl.
  destruct (Z.eqb_spec (Z.abs (n * ESCALA)) 0); [lia | done].
Qed.


(** Rounding commutes with a change of unit by a power of two. *)
Lemma redondear_escala z k : 0 <= k -> redondear (z * 2 ^ k) = redondear z * 2 ^ k.
Proof.
  intros Hk. assert (0 < 2 ^ k) as Hpk by (apply Z.pow_pos_nonneg; lia).
  assert (forall t, 0 <= t -> redondear (t * 2 ^ k) = redondear t * 2 ^ k) as Hpos.
  { intros t Ht. destruct (Z.lt_ge_cases t (2 ^ 53)) as [Hlt|Hge].
    { rewrite (redondear_seguro t) by lia. apply redondear_multiplo; lia. }
    assert (2 ^ 53 <= t * 2 ^ k) as Hge'.
    { rewrite <- (Z.mul_1_r (2 ^ 53)). apply Z.mul_le_mono_nonneg; lia. }
    destruct (exponente_spec t Hge) as (He & _).
    rewrite (redondear_grande t Hge), (redondear_grande _ Hge'). cbv zeta.
    rewrite Z.log2_mul_pow2 by lia.
    replace (k + Z.log2 t - 52) with (Z.log2 t - 52 + k) by lia.
    replace (Z.log2 t - 52 + k - 1) with (Z.log2 t - 52 - 1 + k) by lia.
    rewrite !Z.pow_add_r by lia.
    rewrite Z.div_mul_cancel_r, Z.mul_mod_distr_r by lia.
    set (r := t mod _). set (M := 2 ^ (Z.log2 t - 52 - 1)).
    assert ((r * 2 ^ k <? M * 2 ^ k) = (r <? M)) as ->.
    { destruct (Z.ltb_spec r M), (Z.ltb_spec (r * 2 ^ k) (M * 2 ^ k)); nia || done. }
    assert ((M * 2 ^ k <? r * 2 ^ k) = (M <? r)) as ->.
    { destruct (Z.ltb_spec M r), (Z.ltb_spec (M * 2 ^ k) (r * 2 ^ k)); nia || done. }
    ring. }
  destruct (Z.le_ge_cases 0 z); [by apply Hpos|].
  replace (z * 2 ^ k) with (- (- z * 2 ^ k)) by lia.
  rewrite redondear_opp, Hpos, redondear_opp by lia. lia.
Qed.

Lemma redondear_ESCALA z : redondear (z * ESCALA) = redondear z * ESCALA.
Proof. by apply redondear_escala. Qed.

Lemma desbordar_de_valor r :
  de_valor (desbordar r) = con_signo (r <? 0) (Z.abs r * ESCALA).
Proof.
  pose proof ESCALA_pos as HE. rewrite TECHO_ESCALA_def. unfold con_signo.
  destruct (desbordar_casos r) as [[-> Hr]|[[-> Hr]|[-> Hr]]]; simpl.
  - destruct (Z.eqb_spec (Z.abs r * ESCALA) 0) as [E|E].
    { assert (r = 0) as -> by nia. done. }
    destruct (Z.leb_spec (2 ^ 1024 * ESCALA) (Z.abs r * ESCALA)); [nia|].
    unfold de_entero. destruct (Z.ltb_spec r 0); f_equal; lia.
  - destruct (Z.eqb_spec (Z.abs r * ESCALA) 0); [nia|].
    destruct (Z.leb_spec (2 ^ 1024 * ESCALA) (Z.abs r * ESCALA)); [|nia].
    by destruct (Z.ltb_spec r 0); [lia|].
  - destruct (Z.eqb_spec (Z.abs r * ESCALA) 0); [nia|].
    destruct (Z.leb_spec (2 ^ 1024 * ESCALA) (Z.abs r * ESCALA)); [|nia].
    by destruct (Z.ltb_spec r 0); [|lia].
Qed.

(** ** The results are doubles *)

Lemma redondeo_valido neg z : numero_valido (con_signo neg (Z.abs (redondear z))).
Proof.
  apply con_signo_valido; [lia|]. destruct (Z.abs_spec (redondear z)) as [[_ ->]|[_ ->]];
    [|apply es_doble_opp]; apply redondear_es_doble.
Qed.

Lemma cociente_valido neg a q :
  0 <= a -> 0 < q -> numero_valido (con_signo neg (redondear_cociente a q)).
Proof.
  intros Ha Hq. apply con_signo_valido;
    [by apply redondear_cociente_nonneg | by apply redondear_cociente_es_doble].
Qed.

Lemma sumar_valido x y : numero_valido (sumar x y).
Proof. destruct x, y; try exact I; apply redondeo_valido. Qed.

Lemma menos_valido x y : numero_valido (menos x y).
Proof. destruct x, y as [[| |]| | | |]; try exact I; apply redondeo_valido. Qed.

Lemma por_valido x y : numero_valido (por x y).
Proof.
  pose proof ESCALA_pos. unfold por.
  destruct x, y; try exact I; cbv beta iota zeta; repeat case_match;
    first [exact I | apply infinito_valido | apply cociente_valido; lia].
Qed.

Lemma entre_valido x y : numero_valido (entre x y).
Proof.
  pose proof ESCALA_pos. unfold entre.
  destruct x, y; try exact I; cbv beta iota zeta; repeat case_match;
    first [exact I | apply infinito_valido | apply cero_valido
          | apply cociente_valido; lia].
Qed.

(** ** [Math.floor] *)

(** The floor is the integer just below. *)
Lemma Math_floor_spec u :
  Math_floor (Finito u) = de_entero (u / ESCALA) /\
  u / ESCALA * ESCALA <= u < (u / ESCALA + 1) * ESCALA.
Proof.
  pose proof ESCALA_pos as HE. split; [done|].
  pose proof (Z.div_mod u ESCALA ltac:(lia)).
  pose proof (Z.mod_pos_bound u ESCALA HE). lia.
Qed.

(** An integer of at most 53 bits is a double in units too. *)
Lemma de_entero_es_doble n : Z.abs n <= 2 ^ 53 -> es_doble (n * ESCALA).
Proof.
  intros Hn. destruct (Z.abs_spec n) as [[? Habs]|[? Habs]].
  - apply es_doble_limite; [done | lia].
  - replace (n * ESCALA) with (- (- n * 2 ^ 1074)) by (unfold ESCALA; ring).
    apply es_doble_opp, es_doble_limite; [done | lia].
Qed.

(** A double of [2^53] units of one or more is an integer. *)
Lemma doble_grande_entero u : es_doble u -> 2 ^ 53 * ESCALA <= Z.abs u -> (ESCALA | u).
Proof.
  intros (m & e & He & Hm & ->) Hu.
  destruct (Z.le_gt_cases 1074 e) as [Hle|Hgt].
  { exists (m * 2 ^ (e - 1074)). unfold ESCALA.
    rewrite <- Z.mul_assoc, <- Z.pow_add_r by lia. do 2 f_equal. lia. }
  exfalso. rewrite Z.abs_mul, (Z.abs_eq (2 ^ e)) in Hu by (apply Z.pow_nonneg; lia).
  assert (2 ^ e < ESCALA) by (apply Z.pow_lt_mono_r; lia).
  assert (0 < 2 ^ e) by (apply Z.pow_pos_nonneg; lia).
  assert (Z.abs m * 2 ^ e < 2 ^ 53 * ESCALA); [|lia].
  apply Z.le_lt_trans with (2 ^ 53 * 2 ^ e).
  - apply Z.mul_le_mono_nonneg_r; lia.
  - apply Z.mul_lt_mono_pos_l; lia.
Qed.

Lemma Math_floor_valido x : numero_valido x -> numero_valido (Math_floor x).
Proof.
  destruct x as [u| | | |]; try done. intros [Hd Hlt]. pose proof ESCALA_pos as HE.
  destruct (Math_floor_spec u) as [-> Hu]. unfold de_entero. simpl.
  destruct (Z.le_gt_cases (2 ^ 53 * ESCALA) (Z.abs u)) as [Hbig|Hsmall].
  { destruct (doble_grande_entero u Hd Hbig) as [k ->].
    rewrite Z.div_mul by lia. done. }
  assert (- 2 ^ 53 <= u / ESCALA < 2 ^ 53) as Hq.
  { split; [apply Z.div_le_lower_bound | apply Z.div_lt_upper_bound]; lia. }
  split; [apply de_entero_es_doble; lia|].
  rewrite TECHO_ESCALA, Z.abs_mul, (Z.abs_eq ESCALA) by lia.
  apply Z.mul_lt_mono_pos_r; [done|]. assert (2 ^ 53 < 2 ^ 1024) by done. lia.
Qed.

(** ** Exact cases *)

(** A quotient that is an integer rounds as the integer does. *)
Lemma redondear_cociente_exacto a q :
  0 <= a -> 0 < q -> redondear_cociente (a * q) q = redondear a.
Proof.
  intros Ha Hq. rewrite <- redondear_cociente_uno by done.
  unfold redondear_cociente.
  rewrite Z.div_mul, Z.mod_mul, Z.div_1_r, Z.mod_1_r by lia.
  destruct (Z.ltb_spec a (2 ^ 53)); [|done].
  destruct (Z.ltb_spec (2 * 0) q); [done | lia].
Qed.

(** On integers, [+] is the addition of [JsNumero]. *)
Lemma sumar_de_entero a b :
  sumar (de_entero a) (de_entero b) = de_valor (mas (Num a) (Num b)).
Proof.
  rewrite mas_Num, desbordar_de_valor. unfold sumar, de_entero, unidades.
  rewrite <- Z.mul_add_distr_r, redondear_ESCALA. pose proof ESCALA_pos as HE.
  rewrite Z.abs_mul, (Z.abs_eq ESCALA) by lia. f_equal.
  destruct (Z.ltb_spec (redondear (a + b)) 0), (Z.ltb_spec (redondear (a + b) * ESCALA) 0);
    nia || done.
Qed.

(** On integers, [-] is the addition of the opposite. *)
Lemma menos_de_entero a b :
  menos (de_entero a) (de_entero b) = de_valor (mas (Num a) (Num (- b))).
Proof.
  rewrite <- sumar_de_entero. unfold menos, sumar, de_entero, unidades.
  pose proof ESCALA_pos. replace (- b * ESCALA) with (- (b * ESCALA)) by ring.
  rewrite Z.add_opp_r. destruct (b * ESCALA) eqn:E; done.
Qed.

(** ** Printing *)

(** No multiple of [10^-f] is nearer to [a] units than [decimales a f]. *)
Lemma decimales_cercano a f :
  2 * Z.abs (decimales a f * ESCALA - a * 10 ^ Z.of_nat f) <= ESCALA.
Proof.
  pose proof ESCALA_pos as HE. unfold decimales.
  pose proof (Z.div_mod (2 * a * 10 ^ Z.of_nat f + ESCALA) (2 * ESCALA) ltac:(lia)).
  pose proof (Z.mod_pos_bound (2 * a * 10 ^ Z.of_nat f + ESCALA) (2 * ESCALA) ltac:(lia)).
  lia.
Qed.

Lemma decimales_entero n : 0 <= n -> decimales (n * ESCALA) 0 = n.
Proof.
  intros Hn. pose proof ESCALA_pos as HE. unfold decimales.
  rewrite Z.pow_0_r, Z.mul_1_r.
  symmetry. apply Z.div_unique with ESCALA; lia.
Qed.

(** Without decimals, a safe integer prints as [String] prints it. *)
Lemma toFixed_entero z :
  Z.abs z < 2 ^ 53 -> toFixed (de_entero z) 0 = String_de (Num z).
Proof.
  intros Hz. pose proof ESCALA_pos as HE. rewrite String_de_seguro by done.
  cbv beta iota zeta delta [toFixed de_entero unidades].
  rewrite Z.abs_mul, (Z.abs_eq ESCALA) by lia.
  destruct (Z.leb_spec (10 ^ 21 * ESCALA) (Z.abs z * ESCALA)) as [Hle|_].
  { apply Z.mul_le_mono_pos_r in Hle; lia. }
  rewrite decimales_entero by lia. unfold poner_punto. simpl (0 =? 0)%nat. cbv iota.
  destruct z as [|p|p]; [done| |].
  - by destruct (Z.ltb_spec (Z.pos p * ESCALA) 0); [lia|].
  - by destruct (Z.ltb_spec (Z.neg p * ESCALA) 0); [|lia].
Qed.

(** A time prints its digits: no sign, no exponent. *)
Lemma toFixed_imprimible x f :
  imprimible x ->
  toFixed x f = poner_punto (pretty (decimales (unidades x) f)) f.
Proof.
  destruct x as [u| | | |]; try done. intros [Hu Hlt]. unfold toFixed, unidades.
  rewrite Z.abs_eq by lia.
  destruct (Z.leb_spec (10 ^ 21 * ESCALA) u); [lia|].
  by destruct (Z.ltb_spec u 0); [lia|].
Qed.

(** ** Quotients of numbers that are not negative *)

Lemma entre_no_negativo p q :
  0 <= p -> 0 <= q ->
  (p = 0 /\ q = 0 /\ entre (Finito p) (Finito q) = NoNum) \/
  entre (Finito p) (Finito q) = MasInf \/
  exists r, 0 <= r /\ entre (Finito p) (Finito q) = Finito r.
Proof.
  intros Hp Hq. pose proof ESCALA_pos as HE.
  cbv beta iota zeta delta [entre negativo es_infinito unidades].
  destruct (Z.ltb_spec p 0); [lia|]. destruct (Z.ltb_spec q 0); [lia|]. simpl xorb.
  rewrite !Z.abs_eq by lia.
  destruct (Z.eqb_spec q 0); [destruct (Z.eqb_spec p 0); auto|].
  pose proof (redondear_cociente_nonneg (p * ESCALA) q ltac:(lia) ltac:(lia)).
  unfold con_signo. repeat case_match; simpl;
    [right; right; by exists 0 | by right; left | right; right; eauto].
Qed.

Lemma Math_floor_no_negativo r :
  0 <= r -> exists n, 0 <= n /\ Math_floor (Finito r) = de_entero n.
Proof.
  intros Hr. exists (r / ESCALA). split; [|done].
  apply Z.div_pos; [done | apply ESCALA_pos].
Qed.

Lemma con_signo_inv neg r u :
  0 <= r -> con_signo neg r = Finito u -> r < TECHO /\ u = if neg then - r else r.
Proof.
  intros Hr. unfold con_signo.
  destruct (Z.eqb_spec r 0) as [->|]; [destruct neg; [done|]; intros [= <-]; by vm_compute|].
  destruct (Z.leb_spec TECHO r); [by destruct neg|]. by intros [= <-].
Qed.

Lemma entre_positivos p q :
  0 <= p -> 0 < q ->
  entre (Finito p) (Finito q) = con_signo false (redondear_cociente (p * ESCALA) q).
Proof.
  intros Hp Hq. cbv beta iota zeta delta [entre negativo es_infinito unidades].
  destruct (Z.ltb_spec p 0); [lia|]. destruct (Z.ltb_spec q 0); [lia|]. cbn [xorb].
  rewrite !Z.abs_eq by lia. by destruct (Z.eqb_spec q 0); [lia|].
Qed.

End Numeros.

(** ** Properties of the operators *)

Section PropiedadesDobles.
Implicit Types (x y : numero) (p q r w a b z : Z).

(** C26: the quotient of two finite doubles, the divisor positive and the
    dividend not negative, is correctly rounded when it is finite: it is a
    double, and no double is nearer to the exact quotient. *)
Theorem entre_cercano p q r w :
  0 <= p -> 0 < q -> entre (Finito p) (Finito q) = Finito r -> es_doble w ->
  es_doble r /\ Z.abs (r * q - p * ESCALA) <= Z.abs (w * q - p * ESCALA).
Proof.
  intros Hp Hq Hr Hw. pose proof ESCALA_pos as HE.
  assert (0 <= p * ESCALA) as Ha by lia.
  rewrite entre_positivos in Hr by done.
  apply con_signo_inv in Hr as [_ ->]; [|by apply redondear_cociente_nonneg].
  split; [by apply redondear_cociente_es_doble | by apply redondear_cociente_cercano].
Qed.

(** C27: the operators return doubles: the result of [+], [-], [*] and [/]
    on any two numbers, and of [Math.floor] on a double, is a double of
    magnitude below [2^1024], a zero, an infinity or [NaN]. *)
Theorem operadores_validos x y :
  numero_valido x ->
  numero_valido (sumar x y) /\ numero_valido (menos x y) /\
  numero_valido (por x y) /\ numero_valido (entre x y) /\
  numero_valido (Math_floor x).
Proof.
  intros Hx. split_and!;
    [apply sumar_valido | apply menos_valido | apply por_valido | apply entre_valido
    | by apply Math_floor_valido].
Qed.

(** On integers the operators of this file are those of [JsNumero]:
    the sum and the difference of two integers, as doubles, are the sum
    [JsNumero.mas] computes, overflow to an infinity included. *)
Theorem operadores_de_entero a b :
  sumar (de_entero a) (de_entero b) = de_valor (mas (Num a) (Num b)) /\
  menos (de_entero a) (de_entero b) = de_valor (mas (Num a) (Num (- b))).
Proof. split; [apply sumar_de_entero | apply menos_de_entero]. Qed.

(** [toFixed] picks the nearest decimal: no multiple of [10^-f] is
    nearer to the number than the one whose digits are printed, and of two
    that are equally near the larger is printed. *)
Theorem decimales_spec a f n :
  Z.abs (decimales a f * ESCALA - a * 10 ^ Z.of_nat f) <=
    Z.abs (n * ESCALA - a * 10 ^ Z.of_nat f) /\
  (Z.abs (decimales a f * ESCALA - a * 10 ^ Z.of_nat f) =
     Z.abs (n * ESCALA - a * 10 ^ Z.of_nat f) -> n <= decimales a f).
Proof.
  pose proof ESCALA_pos as HE. pose proof (decimales_cercano a f) as Hc.
  unfold decimales in *.
  pose proof (Z.div_mod (2 * a * 10 ^ Z.of_nat f + ESCALA) (2 * ESCALA) ltac:(lia)) as Hdm.
  pose proof (Z.mod_pos_bound (2 * a * 10 ^ Z.of_nat f + ESCALA) (2 * ESCALA) ltac:(lia)).
  set (d := (2 * a * 10 ^ Z.of_nat f + ESCALA) / (2 * ESCALA)) in *.
  set (X := a * 10 ^ Z.of_nat f) in *.
  replace (2 * a * 10 ^ Z.of_nat f) with (2 * X) in * by (unfold X; ring).
  destruct (Z.lt_trichotomy n d) as [Hlt|[->|Hgt]]; [|lia|].
  - assert (n * ESCALA <= d * ESCALA - ESCALA) by nia. lia.
  - assert (d * ESCALA + ESCALA <= n * ESCALA) by nia. lia.
Qed.

End PropiedadesDobles.

(** ** Witnesses *)

Section TestigosDobles.

(** One third: the quotient of 1 by 3 and a double next to it. *)
Lemma entre_cercano_testigo :
  es_doble (6004799503160661 * 2 ^ 1020) /\
  Z.abs (6004799503160661 * 2 ^ 1020 * (3 * ESCALA) - ESCALA * ESCALA) <=
  Z.abs (6004799503160662 * 2 ^ 1020 * (3 * ESCALA) - ESCALA * ESCALA).
Proof.
  apply (entre_cercano ESCALA (3 * ESCALA));
    [by vm_compute | by vm_compute | by vm_compute | apply es_doble_limite; lia].
Defined.

Lemma operadores_validos_testigo :
  let x := entre (de_entero 1) (de_entero 3) in
  let y := de_entero 7 in
  numero_valido (sumar x y) /\ numero_valido (menos x y) /\
  numero_valido (por x y) /\ numero_valido (entre x y) /\
  numero_valido (Math_floor x).
Proof. apply operadores_validos, entre_valido. Defined.

Lemma toFixed_entero_testigo :
  toFixed (de_entero (-1234567)) 0 = String_de (Num (-1234567)).
Proof. apply toFixed_entero. lia. Defined.

End TestigosDobles.
