(* ===== verification/Segmentos.v ===== *)
(** * Segmentos: what the calculator promises

    The abstract specification of the maximum-harvest problem, on exact
    integers: the segments (non-empty contiguous sub-ranges) of a list, the
    predicate [es_ganancia_maxima] that singles out the largest segment sum,
    the executable reference [fuerza_bruta] that enumerates every segment,
    and the two-accumulator recurrence [kadane] on exact integers, proved
    against the predicate.  The model of the source is compared with these
    in [MaximaGanancia]. *)

From stdpp Require Import base list numbers.
From Stdlib Require Import ZArith Lia.
From S2P Require Import Prelude.

Local Open Scope Z_scope.

(** ** Segments *)

(** [s] is a non-empty run of consecutive elements of [l]. *)
Definition segmento {A} (s l : list A) : Prop :=
  s <> [] /\ exists pre post, l = pre ++ s ++ post.

(** [s] is a segment of [l] that ends at the last element of [l]. *)
Definition final {A} (s l : list A) : Prop :=
  s <> [] /\ s `suffix_of` l.

(** [m] is the largest sum of a segment of [l]. *)
Definition es_ganancia_maxima (l : list Z) (m : Z) : Prop :=
  (exists s, segmento s l /\ suma s = m) /\
  (forall s, segmento s l -> suma s <= m).

(** [m] is the largest sum of a segment that ends at the last element. *)
Definition es_mejor_final (l : list Z) (m : Z) : Prop :=
  (exists s, final s l /\ suma s = m) /\
  (forall s, final s l -> suma s <= m).

(** ** The executable reference *)

(** The non-empty prefixes of [l], shortest first. *)
Fixpoint prefijos (l : list Z) : list (list Z) :=
  match l with
  | [] => []
  | x :: l' => [x] :: map (cons x) (prefijos l')
  end.

(** Every segment of [l]: the non-empty prefixes of every suffix. *)
Fixpoint segmentos (l : list Z) : list (list Z) :=
  match l with
  | [] => []
  | _ :: l' => prefijos l ++ segmentos l'
  end.

(** The largest element of [x :: l]. *)
Definition maximo (x : Z) (l : list Z) : Z := foldr Z.max x l.

(** The largest segment sum by enumeration; [None] on the empty list, which
    has no segment. *)
Definition fuerza_bruta (l : list Z) : option Z :=
  match map suma (segmentos l) with
  | [] => None
  | m :: ms => Some (maximo m ms)
  end.

(** ** The recurrence on exact integers *)

(** One element [x] read with accumulators [(local, global)]. *)
Definition paso_ideal (lg : Z * Z) (x : Z) : Z * Z :=
  let local := Z.max x (lg.1 + x) in
  (local, Z.max lg.2 local).

(** Both accumulators start at the first element; the rest is folded. *)
Definition kadane (l : list Z) : option Z :=
  match l with
  | [] => None
  | x :: l' => Some (foldl paso_ideal (x, x) l').2
  end.

(** ** Segments: structure *)

Section Estructura.
Context {A : Type}.
Implicit Types (s l p k : list A) (x y : A).

Lemma final_segmento s l : final s l -> segmento s l.
Proof. intros [Hs [k ->]]. split; [exact Hs|]. exists k, []. by rewrite app_nil_r. Qed.

Lemma segmento_no_vacio s l : segmento s l -> l <> [].
Proof. intros [Hs (pre & post & ->)] H. by destruct pre, s. Qed.

Lemma segmento_nil s : ~ segmento s [].
Proof. intros H. by apply segmento_no_vacio in H. Qed.

Lemma segmento_refl l : l <> [] -> segmento l l.
Proof. intros H. split; [exact H|]. exists [], []. by rewrite app_nil_r. Qed.

Lemma final_refl l : l <> [] -> final l l.
Proof. intros H. by split. Qed.

Lemma segmento_app_l s l k : segmento s l -> segmento s (l ++ k).
Proof.
  intros [Hs (pre & post & ->)]. split; [exact Hs|].
  exists pre, (post ++ k). by rewrite <- !app_assoc.
Qed.

Lemma segmento_app_r s l k : segmento s l -> segmento s (k ++ l).
Proof.
  intros [Hs (pre & post & ->)]. split; [exact Hs|].
  exists (k ++ pre), post. by rewrite <- !app_assoc.
Qed.

Lemma segmento_elem x l : x ∈ l -> segmento [x] l.
Proof.
  intros (pre & post & ->)%list_elem_of_split. split; [done|]. by exists pre, post.
Qed.

Lemma segmento_take s l n : segmento s (take n l) -> segmento s l.
Proof. intros H. rewrite <- (take_drop n l). by apply segmento_app_l. Qed.

Lemma segmento_singleton s x : segmento s [x] <-> s = [x].
Proof.
  split; [|intros ->; by apply segmento_refl].
  intros [Hs (pre & post & E)].
  assert (length pre = 0 /\ length post = 0)%nat as [Hp Hq].
  { apply (f_equal length) in E. rewrite !length_app in E.
    destruct s; [done|]. simpl in E. lia. }
  apply nil_length_inv in Hp, Hq. subst. simpl in E. by rewrite app_nil_r in E.
Qed.

Lemma final_snoc s p x :
  final s (p ++ [x]) <-> exists s', s = s' ++ [x] /\ s' `suffix_of` p.
Proof.
  split.
  - intros [Hs Hsuf]. destruct s as [|y s' _] using rev_ind; [done|].
    pose proof (suffix_snoc_inv_1 _ _ _ _ Hsuf) as ->.
    exists s'. split; [done|]. by apply suffix_snoc_inv_2 in Hsuf.
  - intros (s' & -> & Hsuf). split; [by destruct s'|]. by apply suffix_snoc.
Qed.

Lemma segmento_snoc s p x :
  segmento s (p ++ [x]) <-> segmento s p \/ final s (p ++ [x]).
Proof.
  split.
  - intros [Hs (pre & post & E)].
    destruct post as [|y post _] using rev_ind.
    + right. split; [exact Hs|]. exists pre. by rewrite E, app_nil_r.
    + left. split; [exact Hs|]. exists pre, post.
      rewrite !app_assoc in E. apply app_inj_tail in E as [-> _].
      by rewrite <- app_assoc.
  - intros [H|H]; [by apply segmento_app_l | by apply final_segmento].
Qed.

Lemma segmento_Forall (P : A -> Prop) s l : Forall P l -> segmento s l -> Forall P s.
Proof.
  intros Hl [_ (pre & post & ->)].
  by apply Forall_app in Hl as [_ [Hs _]%Forall_app].
Qed.

End Estructura.

(** ** The largest sums, one element at a time *)

Section Recurrencia.
Implicit Types (s l p k : list Z) (x y m g : Z).

Lemma segmento_suma_abs s l : segmento s l -> Z.abs (suma s) <= suma_abs l.
Proof.
  intros [_ (pre & post & ->)]. rewrite !suma_abs_app.
  pose proof (abs_suma_le s). pose proof (suma_abs_nonneg pre).
  pose proof (suma_abs_nonneg post). lia.
Qed.

Lemma es_mejor_final_singleton x : es_mejor_final [x] x.
Proof.
  split.
  - exists [x]. split; [by apply final_refl | simpl; lia].
  - intros s ->%final_segmento%segmento_singleton. simpl; lia.
Qed.

Lemma es_ganancia_maxima_singleton x : es_ganancia_maxima [x] x.
Proof.
  split.
  - exists [x]. split; [by apply segmento_refl | simpl; lia].
  - intros s ->%segmento_singleton. simpl; lia.
Qed.

Lemma es_mejor_final_snoc p m x :
  es_mejor_final p m -> es_mejor_final (p ++ [x]) (Z.max x (m + x)).
Proof.
  intros [(s & [Hs Hsuf] & <-) Hmax]. split.
  - destruct (Z.max_spec x (suma s + x)) as [[_ ->]|[_ ->]].
    + exists (s ++ [x]). rewrite suma_snoc. split; [|done].
      apply final_snoc. by exists s.
    + exists [x]. split; [|simpl; lia].
      apply final_snoc. exists []. split; [done | apply suffix_nil].
  - intros s' (s'' & -> & Hsuf')%final_snoc. rewrite suma_snoc.
    destruct (decide (s'' = [])) as [->|Hne]; [simpl; lia|].
    specialize (Hmax s'' (conj Hne Hsuf')). lia.
Qed.

Lemma es_ganancia_maxima_snoc p g m x :
  es_ganancia_maxima p g -> es_mejor_final (p ++ [x]) m ->
  es_ganancia_maxima (p ++ [x]) (Z.max g m).
Proof.
  intros [(s & Hs & <-) Hg] [(t & Ht & <-) Hm]. split.
  - destruct (Z.max_spec (suma s) (suma t)) as [[_ ->]|[_ ->]].
    + exists t. split; [by apply final_segmento | done].
    + exists s. split; [by apply segmento_app_l | done].
  - intros u [Hu|Hu]%segmento_snoc.
    + specialize (Hg u Hu). lia.
    + specialize (Hm u Hu). lia.
Qed.

(** The best sum of a segment that ends before [x], extended by [x], is
    the sum of a segment: its magnitude is at most the sum of the
    magnitudes. *)
Lemma final_take_segmento l n x m :
  l !! n = Some x -> es_mejor_final (take n l) m ->
  exists s, segmento s l /\ suma s = m + x.
Proof.
  intros Hx [(t & Ht & <-) _]. exists (t ++ [x]). split; [|apply suma_snoc].
  apply (segmento_take _ _ (S n)). rewrite (take_S_r _ _ _ Hx).
  apply final_segmento, final_snoc. exists t. split; [done | apply Ht].
Qed.

Lemma final_take_suma_abs l n x m :
  l !! n = Some x -> es_mejor_final (take n l) m -> Z.abs (m + x) <= suma_abs l.
Proof.
  intros Hx Hm. destruct (final_take_segmento l n x m Hx Hm) as (s & Hs & <-).
  by apply segmento_suma_abs.
Qed.

Lemma es_ganancia_maxima_unica l m m' :
  es_ganancia_maxima l m -> es_ganancia_maxima l m' -> m = m'.
Proof.
  intros [(s & Hs & <-) Hm] [(s' & Hs' & <-) Hm'].
  specialize (Hm s' Hs'). specialize (Hm' s Hs). lia.
Qed.

Lemma es_mejor_final_unica l m m' :
  es_mejor_final l m -> es_mejor_final l m' -> m = m'.
Proof.
  intros [(s & Hs & <-) Hm] [(s' & Hs' & <-) Hm'].
  specialize (Hm s' Hs'). specialize (Hm' s Hs). lia.
Qed.

Lemma es_ganancia_maxima_no_vacio l m : es_ganancia_maxima l m -> l <> [].
Proof. intros [(s & Hs & _) _]. by eapply segmento_no_vacio. Qed.

Lemma es_mejor_final_le l m g :
  es_mejor_final l m -> es_ganancia_maxima l g -> m <= g.
Proof. intros [(s & Hs & <-) _] [_ Hg]. by apply Hg, final_segmento. Qed.

End Recurrencia.

(** ** The enumeration is exact *)

Section Enumeracion.
Implicit Types (s l p k : list Z) (x y m g : Z).

Lemma elem_of_prefijos s l : s ∈ prefijos l <-> s <> [] /\ s `prefix_of` l.
Proof.
  revert s. induction l as [|x l IH]; intros s; simpl.
  - rewrite elem_of_nil. split; [done|]. by intros [Hs ->%prefix_nil_inv].
  - rewrite elem_of_cons, list_elem_of_fmap. split.
    + intros [->|(t & -> & [Ht Hpre]%IH)].
      * split; [done|]. apply prefix_cons, prefix_nil.
      * split; [done|]. by apply prefix_cons.
    + intros [Hs Hpre]. destruct s as [|y [|z t]]; [done| |].
      * apply prefix_cons_inv_1 in Hpre as ->. by left.
      * right. pose proof (prefix_cons_inv_1 _ _ _ _ Hpre) as ->.
        exists (z :: t). split; [done|]. apply IH. split; [done|].
        by apply prefix_cons_inv_2 in Hpre.
Qed.

Lemma segmento_cons s x l :
  segmento s (x :: l) <-> (s <> [] /\ s `prefix_of` (x :: l)) \/ segmento s l.
Proof.
  split.
  - intros [Hs (pre & post & E)]. destruct pre as [|y pre]; simpl in E.
    + left. split; [exact Hs|]. by exists post.
    + right. simplify_eq. split; [exact Hs|]. by exists pre, post.
  - intros [[Hs [post ->]]|H]; [|by apply (segmento_app_r _ _ [x])].
    split; [exact Hs|]. by exists [], post.
Qed.

Lemma elem_of_segmentos s l : s ∈ segmentos l <-> segmento s l.
Proof.
  induction l as [|x l IH].
  - simpl. rewrite elem_of_nil. split; [done | apply segmento_nil].
  - change (segmentos (x :: l)) with (prefijos (x :: l) ++ segmentos l).
    by rewrite elem_of_app, elem_of_prefijos, IH, segmento_cons.
Qed.

Lemma segmentos_nil_inv l : segmentos l = [] -> l = [].
Proof. destruct l as [|x l]; [done|]. discriminate. Qed.

Lemma maximo_elem x l : maximo x l ∈ x :: l.
Proof.
  unfold maximo. induction l as [|y l IH]; simpl; [by left|].
  destruct (Z.max_spec y (foldr Z.max x l)) as [[_ ->]|[_ ->]].
  - apply elem_of_cons in IH as [IH|IH]; [rewrite IH; by left|].
    by do 2 right.
  - right; by left.
Qed.

Lemma maximo_cota x l y : y ∈ x :: l -> y <= maximo x l.
Proof.
  unfold maximo. revert y. induction l as [|z l IH]; intros y; simpl.
  - intros ->%list_elem_of_singleton. lia.
  - intros H. assert (x <= foldr Z.max x l) by (apply IH; by left).
    apply elem_of_cons in H as [->|H]; [lia|].
    apply elem_of_cons in H as [->|H]; [lia|].
    assert (y <= foldr Z.max x l) by (apply IH; by right). lia.
Qed.

Lemma fuerza_bruta_Some l m : fuerza_bruta l = Some m -> es_ganancia_maxima l m.
Proof.
  unfold fuerza_bruta. destruct (map suma (segmentos l)) as [|m0 ms] eqn:E; [done|].
  intros [= <-]. split.
  - pose proof (maximo_elem m0 ms) as H. rewrite <- E in H.
    apply list_elem_of_fmap in H as (s & -> & Hs%elem_of_segmentos). eauto.
  - intros s Hs%elem_of_segmentos. apply maximo_cota. rewrite <- E.
    by apply list_elem_of_fmap_2.
Qed.

Lemma fuerza_bruta_total l : l <> [] -> exists m, fuerza_bruta l = Some m.
Proof.
  intros H. unfold fuerza_bruta.
  destruct (map suma (segmentos l)) as [|m0 ms] eqn:E; [|eauto].
  by apply fmap_nil_inv, segmentos_nil_inv in E.
Qed.

Lemma fuerza_bruta_spec l m : fuerza_bruta l = Some m <-> es_ganancia_maxima l m.
Proof.
  split; [apply fuerza_bruta_Some|]. intros H.
  destruct (fuerza_bruta_total l) as [m' E]; [by eapply es_ganancia_maxima_no_vacio|].
  rewrite E. f_equal. eapply es_ganancia_maxima_unica; [|exact H].
  by apply fuerza_bruta_Some.
Qed.

Lemma fuerza_bruta_None l : fuerza_bruta l = None <-> l = [].
Proof.
  split; [|by intros ->]. intros E. destruct l as [|x l]; [done|].
  destruct (fuerza_bruta_total (x :: l)) as [m E']; [done | congruence].
Qed.

End Enumeracion.

#[export] Instance segmento_dec (s l : list Z) : Decision (segmento s l).
Proof.
  refine (cast_if (decide (s ∈ segmentos l))); by rewrite <- elem_of_segmentos.
Defined.

(** ** The recurrence computes the largest sum *)

Section Kadane.
Implicit Types (s l p k : list Z) (x y m g : Z) (lg : Z * Z).

Lemma paso_ideal_spec p lg x :
  es_mejor_final p lg.1 -> es_ganancia_maxima p lg.2 ->
  es_mejor_final (p ++ [x]) (paso_ideal lg x).1 /\
  es_ganancia_maxima (p ++ [x]) (paso_ideal lg x).2.
Proof.
  intros Hl Hg. unfold paso_ideal. simpl.
  pose proof (es_mejor_final_snoc p _ x Hl) as Hl'.
  split; [exact Hl' | by apply es_ganancia_maxima_snoc].
Qed.

Lemma foldl_paso_ideal_spec l p lg :
  es_mejor_final p lg.1 -> es_ganancia_maxima p lg.2 ->
  es_mejor_final (p ++ l) (foldl paso_ideal lg l).1 /\
  es_ganancia_maxima (p ++ l) (foldl paso_ideal lg l).2.
Proof.
  revert p lg. induction l as [|x l IH]; intros p lg Hl Hg; simpl.
  - by rewrite app_nil_r.
  - rewrite (cons_middle x p l), app_assoc.
    by apply IH; apply paso_ideal_spec.
Qed.

Lemma kadane_Some l m : kadane l = Some m -> es_ganancia_maxima l m.
Proof.
  destruct l as [|x l]; [done|]. intros [= <-].
  destruct (foldl_paso_ideal_spec l [x] (x, x)) as [_ H]; simpl;
    [apply es_mejor_final_singleton | apply es_ganancia_maxima_singleton | exact H].
Qed.

Lemma kadane_spec l m : kadane l = Some m <-> es_ganancia_maxima l m.
Proof.
  split; [apply kadane_Some|]. intros H. destruct l as [|x l].
  - by apply es_ganancia_maxima_no_vacio in H.
  - simpl. f_equal. eapply es_ganancia_maxima_unica; [|exact H].
    by apply kadane_Some.
Qed.

Lemma kadane_fuerza_bruta l : kadane l = fuerza_bruta l.
Proof.
  destruct (kadane l) as [m|] eqn:E.
  - symmetry. by apply fuerza_bruta_spec, kadane_spec.
  - destruct l; [done | discriminate].
Qed.

End Kadane.

(** ** Consequences of the specification *)

Section Consecuencias.
Implicit Types (s l p k : list Z) (x y m g : Z).

Lemma es_ganancia_maxima_elem l m x : es_ganancia_maxima l m -> x ∈ l -> x <= m.
Proof.
  intros [_ Hm] Hx%segmento_elem. specialize (Hm [x] Hx). simpl in Hm. lia.
Qed.

Lemma es_ganancia_maxima_abs l m : es_ganancia_maxima l m -> Z.abs m <= suma_abs l.
Proof. intros [(s & Hs & <-) _]. by apply segmento_suma_abs. Qed.

Lemma es_ganancia_maxima_total l m : es_ganancia_maxima l m -> suma l <= m.
Proof.
  intros H. apply H, segmento_refl. by eapply es_ganancia_maxima_no_vacio.
Qed.

Lemma segmento_no_negativos s l :
  Forall (fun x => 0 <= x) l -> segmento s l -> suma s <= suma l.
Proof.
  intros Hl [_ (pre & post & ->)].
  apply Forall_app in Hl as [Hpre [_ Hpost]%Forall_app].
  apply suma_nonneg in Hpre, Hpost. rewrite !suma_app. lia.
Qed.

Lemma es_ganancia_maxima_no_negativos l :
  l <> [] -> Forall (fun x => 0 <= x) l -> es_ganancia_maxima l (suma l).
Proof.
  intros Hne Hl. split.
  - exists l. split; [by apply segmento_refl | done].
  - intros s. by apply segmento_no_negativos.
Qed.

Lemma suma_negativos_cabeza x l : Forall (fun y => y < 0) l -> suma (x :: l) <= x.
Proof.
  intros Hl. simpl. enough (suma l <= 0) by lia.
  induction Hl; simpl; lia.
Qed.

Lemma es_ganancia_maxima_negativos x l :
  Forall (fun y => y < 0) (x :: l) -> es_ganancia_maxima (x :: l) (maximo x l).
Proof.
  intros Hl. split.
  - exists [maximo x l]. split; [apply segmento_elem, maximo_elem | simpl; lia].
  - intros s Hs. pose proof (segmento_Forall _ _ _ Hl Hs) as Hneg.
    destruct s as [|y t]; [by destruct Hs|].
    etrans; [apply suma_negativos_cabeza; by inv Hneg|].
    apply maximo_cota. destruct Hs as [_ (pre & post & ->)].
    apply elem_of_app; right. by left.
Qed.

Lemma es_ganancia_maxima_replicate n x :
  (0 < n)%nat ->
  es_ganancia_maxima (replicate n x) (if 0 <=? x then Z.of_nat n * x else x).
Proof.
  intros Hn. destruct n as [|n]; [lia|]. destruct (Z.leb_spec 0 x) as [Hx|Hx].
  - rewrite <- suma_replicate. apply es_ganancia_maxima_no_negativos; [done|].
    by apply Forall_replicate.
  - replace x with (maximo x (replicate n x)) at 2.
    + apply es_ganancia_maxima_negativos. by apply (Forall_replicate _ (S n)).
    + unfold maximo. induction n as [|n IH]; simpl; [done | rewrite IH; lia].
Qed.

End Consecuencias.

#[export] Hint Resolve final_segmento segmento_refl final_refl segmento_app_l
  segmento_app_r segmento_elem segmento_take es_mejor_final_singleton
  es_ganancia_maxima_singleton es_mejor_final_snoc es_ganancia_maxima_snoc
  : huerto.
