(* ===== verification/MaximaGanancia.v ===== *)
(** * MaximaGanancia: the model of [src/maximaGanancia.ts]

    The interface [GananciaCalculator], the class [CalculadorGananciaMaxima]
    with its methods [calcular] and [validar], and the exported function
    [maximaGanancia], each translated from the source.  The [for] loop of
    [calcular] is the function [bucle] over the record [estado] of the loop
    variables, and also the step relation [paso]; [cuerpo] is one iteration.
    The theorems relate the loop to the specification of [Segmentos]. *)

From stdpp Require Import base list numbers strings relations.
From Stdlib Require Import ZArith Lia.
From S2P Require Import Prelude Redondeo JsNumero Segmentos.

Local Open Scope Z_scope.

(** ** The argument of [calcular]

    The parameter is declared [number[]], and [validar] still asks
    [Array.isArray] at run time.  [NoArray] stands for a value that is no
    array and on which [length] and indexed reads give [undefined]. *)

Inductive argumento : Type :=
| NoArray
| Array (xs : list Z).

#[export] Instance argumento_eq_dec : EqDecision argumento.
Proof. solve_decision. Defined.

(** [Array.isArray(parcelas)]. *)
Definition Array_isArray (parcelas : argumento) : bool :=
  match parcelas with
  | Array _ => true
  | NoArray => false
  end.

(** The elements that indexed reads of [parcelas] see. *)
Definition elementos (parcelas : argumento) : list Z :=
  match parcelas with
  | Array xs => xs
  | NoArray => []
  end.

(** ** [interface GananciaCalculator] *)

Class GananciaCalculator (C : Type) : Type := {
  calcular : C -> argumento -> js valor
}.

(** ** [class CalculadorGananciaMaxima] *)

Inductive CalculadorGananciaMaxima : Type :=
| new_CalculadorGananciaMaxima.

Definition mensaje_vacio : string :=
  "El array de parcelas no puede estar vacío".

(** [private validar(parcelas)]. *)
Definition validar (parcelas : argumento) : js unit :=
  if negb (Array_isArray parcelas) || (length (elementos parcelas) =? 0)%nat
  then Lanza (new_Error mensaje_vacio)
  else Ok tt.

(** The variables of the loop of [calcular]. *)
Record estado : Type := {
  i : nat;
  gananciaMaximaGlobal : valor;
  gananciaMaximaLocal : valor
}.

(** The two [let] declarations and [let i = 1]. *)
Definition estado_inicial (parcelas : list Z) : estado :=
  {| i := 1;
     gananciaMaximaGlobal := leer parcelas 0;
     gananciaMaximaLocal := leer parcelas 0 |}.

(** One iteration: the two assignments of the body, then [i++]. *)
Definition cuerpo (parcelas : list Z) (s : estado) : estado :=
  let local := Math_max (leer parcelas (i s))
                        (mas (gananciaMaximaLocal s) (leer parcelas (i s))) in
  let global := Math_max (gananciaMaximaGlobal s) local in
  {| i := S (i s);
     gananciaMaximaGlobal := global;
     gananciaMaximaLocal := local |}.

(** [for (...; i < parcelas.length; ...)]: iterate while the test holds. *)
Fixpoint bucle (combustible : nat) (parcelas : list Z) (s : estado) : estado :=
  match combustible with
  | O => s
  | S c =>
      if (i s <? length parcelas)%nat
      then bucle c parcelas (cuerpo parcelas s)
      else s
  end.

(** [calcular(parcelas)] of [CalculadorGananciaMaxima]. *)
Definition calcular_maxima (parcelas : argumento) : js valor :=
  validar parcelas ;;
  let xs := elementos parcelas in
  mret (gananciaMaximaGlobal (bucle (length xs) xs (estado_inicial xs))).

#[export] Instance CalculadorGananciaMaxima_calculator :
  GananciaCalculator CalculadorGananciaMaxima :=
  {| calcular _ := calcular_maxima |}.

(** [export function maximaGanancia(parcelas)]. *)
Definition maximaGanancia (parcelas : argumento) : js valor :=
  let calculador := new_CalculadorGananciaMaxima in
  calcular calculador parcelas.

(** ** The loop as a transition system *)

(** One transition: the test holds and the body runs. *)
Inductive paso (parcelas : list Z) : estado -> estado -> Prop :=
| paso_cuerpo s :
    (i s < length parcelas)%nat -> paso parcelas s (cuerpo parcelas s).

(** The loop has left: the test fails. *)
Definition salida (parcelas : list Z) (s : estado) : Prop :=
  (length parcelas <= i s)%nat.

(** ** Invariant and precondition *)

(** Every sum the loop can form is an exact double. *)
Definition acotada (xs : list Z) : Prop := suma_abs xs <= MAX_SAFE_INTEGER.

#[export] Instance acotada_dec xs : Decision (acotada xs).
Proof. unfold acotada. apply _. Defined.

(** After reading the first [i] elements, [gananciaMaximaLocal] is the best
    sum of a segment that ends at element [i - 1] and [gananciaMaximaGlobal]
    the best sum of a segment of the elements read. *)
Record invariante (xs : list Z) (s : estado) : Prop := {
  inv_rango : (1 <= i s <= length xs)%nat;
  inv_local : exists m,
    gananciaMaximaLocal s = Num m /\ es_mejor_final (take (i s) xs) m;
  inv_global : exists g,
    gananciaMaximaGlobal s = Num g /\ es_ganancia_maxima (take (i s) xs) g
}.

(** Both accumulators hold numbers with a lower bound: finite, or
    [Infinity] after an overflow. *)
Definition numerico (s : estado) : bool :=
  es_ganancia (gananciaMaximaLocal s) && es_ganancia (gananciaMaximaGlobal s).


(** ** What the interface promises *)

Class GananciaCalculatorCorrecto (C : Type) `{GananciaCalculator C} : Prop := {
  calcular_rechaza (c : C) parcelas :
    parcelas = NoArray \/ parcelas = Array [] ->
    exists e, calcular c parcelas = Lanza e;
  calcular_maximiza (c : C) xs :
    xs <> [] -> acotada xs ->
    exists m, calcular c (Array xs) = Ok (Num m) /\ es_ganancia_maxima xs m
}.

(** The integer a call returned, if it returned one. *)
Definition resultado_entero (r : js valor) : option Z :=
  match r with
  | Ok (Num m) => Some m
  | _ => None
  end.

(** A second implementation of the interface, by enumeration: the reference
    the one-pass calculator is compared with through the interface. *)
Inductive CalculadorFuerzaBruta : Type :=
| new_CalculadorFuerzaBruta.

Definition calcular_fuerza_bruta (parcelas : argumento) : js valor :=
  validar parcelas ;;
  match fuerza_bruta (elementos parcelas) with
  | Some m => mret (Num m)
  | None => mret Undefined
  end.

#[export] Instance CalculadorFuerzaBruta_calculator :
  GananciaCalculator CalculadorFuerzaBruta :=
  {| calcular _ := calcular_fuerza_bruta |}.

(** ** Validation *)

Section Validacion.
Implicit Types (parcelas : argumento) (xs : list Z) (e : Error).

Lemma validar_Array xs : xs <> [] -> validar (Array xs) = Ok tt.
Proof. intros H. by destruct xs. Qed.

(** [validar] returns normally exactly on a non-empty array. *)
Lemma validar_Ok parcelas :
  validar parcelas = Ok tt <-> exists xs, parcelas = Array xs /\ xs <> [].
Proof.
  split; [|intros (xs & -> & H); by apply validar_Array].
  destruct parcelas as [|[|x xs]]; try discriminate. intros _. by exists (x :: xs).
Qed.

Lemma validar_Lanza parcelas e :
  validar parcelas = Lanza e <->
  (parcelas = NoArray \/ parcelas = Array []) /\ e = new_Error mensaje_vacio.
Proof.
  destruct parcelas as [|[|x xs]]; cbn; split;
    first [intros [= <-]; auto | intros [_ ->]; done | discriminate
          | intros [[?|?] _]; discriminate].
Qed.

Lemma maximaGanancia_Ok xs :
  xs <> [] -> exists v, maximaGanancia (Array xs) = Ok v.
Proof.
  intros H. unfold maximaGanancia. simpl. unfold calcular_maxima.
  rewrite validar_Array by done. by eexists.
Qed.

Lemma maximaGanancia_vacio :
  maximaGanancia (Array []) = Lanza (new_Error mensaje_vacio).
Proof. reflexivity. Qed.

Lemma calcular_maxima_Array xs :
  xs <> [] ->
  calcular_maxima (Array xs) =
  Ok (gananciaMaximaGlobal (bucle (length xs) xs (estado_inicial xs))).
Proof. intros H. unfold calcular_maxima. by rewrite validar_Array. Qed.

End Validacion.

(** ** The loop *)

Section Bucle.
Implicit Types (xs : list Z) (s : estado) (n : nat) (x m g : Z).

Lemma bucle_salida n xs s : salida xs s -> bucle n xs s = s.
Proof.
  unfold salida. intros H. destruct n; simpl; [done|].
  destruct (Nat.ltb_spec (i s) (length xs)); [lia | done].
Qed.

Lemma bucle_paso n xs s :
  (i s < length xs)%nat -> bucle (S n) xs s = bucle n xs (cuerpo xs s).
Proof.
  intros H. simpl. destruct (Nat.ltb_spec (i s) (length xs)); [done | lia].
Qed.

Lemma paso_determinista xs s s1 s2 : paso xs s s1 -> paso xs s s2 -> s1 = s2.
Proof. by intros [] []. Qed.

Lemma paso_salida xs s s' : paso xs s s' -> ~ salida xs s.
Proof. unfold salida. intros []. lia. Qed.

Lemma bucle_rtc n xs s : rtc (paso xs) s (bucle n xs s).
Proof.
  revert s. induction n as [|n IH]; intros s; simpl; [done|].
  destruct (Nat.ltb_spec (i s) (length xs)); [|done].
  eapply rtc_l; [by constructor | apply IH].
Qed.

Lemma bucle_sale n xs s :
  (length xs - i s <= n)%nat -> salida xs (bucle n xs s).
Proof.
  revert s. induction n as [|n IH]; intros s H; simpl.
  - unfold salida. lia.
  - destruct (Nat.ltb_spec (i s) (length xs)); [|done].
    apply IH. simpl. lia.
Qed.

(** Once the fuel covers the elements left to read, more fuel changes
    nothing: the loop has stopped by its own test. *)
Lemma bucle_mas_combustible n n' xs s :
  (length xs - i s <= n)%nat -> (n <= n')%nat -> bucle n' xs s = bucle n xs s.
Proof.
  revert n' s. induction n as [|n IH]; intros n' s H Hn.
  - simpl. apply bucle_salida. unfold salida. lia.
  - destruct n' as [|n']; [lia|]. simpl.
    destruct (Nat.ltb_spec (i s) (length xs)); [|done].
    apply IH; simpl; lia.
Qed.

Lemma rtc_paso_i xs s s' :
  rtc (paso xs) s s' -> (i s <= length xs)%nat ->
  (i s <= i s' <= length xs)%nat.
Proof.
  induction 1 as [|s s1 s2 [] _ IH]; [lia|]. simpl in IH. lia.
Qed.

End Bucle.

(** ** The invariant *)

Section Invariante.
Implicit Types (xs : list Z) (s : estado) (n : nat) (x m g : Z).

Lemma final_take_acotada xs n x m :
  acotada xs -> xs !! n = Some x -> es_mejor_final (take n xs) m ->
  Z.abs (m + x) <= MAX_SAFE_INTEGER.
Proof.
  unfold acotada. intros Hxs Hx Hm. etrans; [|exact Hxs].
  by apply (final_take_suma_abs xs n).
Qed.

Lemma estado_inicial_invariante xs : xs <> [] -> invariante xs (estado_inicial xs).
Proof.
  destruct xs as [|x xs]; [done|]. intros _. split; simpl.
  - lia.
  - exists x. split; [done | apply es_mejor_final_singleton].
  - exists x. split; [done | apply es_ganancia_maxima_singleton].
Qed.

(** One iteration on finite accumulators whose sum is exact. *)
Lemma cuerpo_Num xs s x m g :
  xs !! i s = Some x -> gananciaMaximaLocal s = Num m ->
  gananciaMaximaGlobal s = Num g -> Z.abs (m + x) <= MAX_SAFE_INTEGER ->
  cuerpo xs s =
  {| i := S (i s);
     gananciaMaximaGlobal := Num (Z.max g (Z.max x (m + x)));
     gananciaMaximaLocal := Num (Z.max x (m + x)) |}.
Proof.
  intros Hx Hm Hg Hsum. unfold cuerpo.
  by rewrite (leer_Some _ _ _ Hx), Hm, Hg, mas_exacta.
Qed.

Lemma cuerpo_conserva xs s :
  acotada xs -> invariante xs s -> (i s < length xs)%nat ->
  invariante xs (cuerpo xs s).
Proof.
  intros Hxs [Hi (m & Hm & Hlocal) (g & Hg & Hglobal)] Hlt.
  destruct (lookup_lt_is_Some_2 xs (i s) Hlt) as [x Hx].
  rewrite (cuerpo_Num xs s x m g Hx Hm Hg) by by eapply final_take_acotada.
  pose proof (es_mejor_final_snoc _ _ x Hlocal) as Hlocal'.
  split; simpl; rewrite ?(take_S_r _ _ _ Hx); [lia | eauto |].
  eexists; split; [done|]. by apply es_ganancia_maxima_snoc.
Qed.

Lemma rtc_paso_invariante xs s s' :
  acotada xs -> invariante xs s -> rtc (paso xs) s s' -> invariante xs s'.
Proof.
  intros Hxs Hs Hrtc. induction Hrtc as [|s s1 s2 [] _ IH]; [done|].
  by apply IH, cuerpo_conserva.
Qed.

Lemma invariante_salida xs s :
  invariante xs s -> salida xs s ->
  exists g, gananciaMaximaGlobal s = Num g /\ es_ganancia_maxima xs g.
Proof.
  unfold salida. intros [Hi _ (g & Hg & Hglobal)] Hout.
  exists g. split; [done|]. by rewrite take_ge in Hglobal by lia.
Qed.

Lemma bucle_correcto xs :
  xs <> [] -> acotada xs ->
  exists g, gananciaMaximaGlobal (bucle (length xs) xs (estado_inicial xs)) = Num g /\
            es_ganancia_maxima xs g.
Proof.
  intros Hne Hxs. apply invariante_salida.
  - eapply rtc_paso_invariante; [done| |apply bucle_rtc].
    by apply estado_inicial_invariante.
  - apply bucle_sale. lia.
Qed.

End Invariante.

(** ** Numbers only: no read is out of range *)

Section Numerico.
Implicit Types (xs : list Z) (s : estado) (n : nat).

Lemma estado_inicial_numerico xs : xs <> [] -> numerico (estado_inicial xs) = true.
Proof. by destruct xs. Qed.

Lemma cuerpo_numerico xs s :
  (i s < length xs)%nat -> numerico s = true -> numerico (cuerpo xs s) = true.
Proof.
  unfold numerico. intros (x & _ & Hx)%leer_dentro [Hl Hg]%andb_prop. simpl.
  rewrite Hx. set (local := Math_max _ _).
  assert (es_ganancia local = true) as Hlocal
    by by apply Math_max_es_ganancia, mas_es_ganancia_numero.
  by rewrite Hlocal, (Math_max_es_ganancia _ local Hg (es_ganancia_es_numero _ Hlocal)).
Qed.

Lemma rtc_paso_numerico xs s s' :
  numerico s = true -> rtc (paso xs) s s' -> numerico s' = true.
Proof.
  intros Hs Hrtc. induction Hrtc as [|s s1 s2 [] _ IH]; [done|].
  by apply IH, cuerpo_numerico.
Qed.

End Numerico.

(** ** Values of the type [number] only *)

Section Tipos.
Implicit Types (xs : list Z) (s : estado).



End Tipos.

(** ** The result against the specification *)

Section Correccion.
Implicit Types (xs : list Z) (s : estado) (n : nat) (x m g : Z).

Lemma maximaGanancia_Array xs :
  xs <> [] -> acotada xs ->
  exists g, maximaGanancia (Array xs) = Ok (Num g) /\ es_ganancia_maxima xs g.
Proof.
  intros Hne Hxs. destruct (bucle_correcto xs Hne Hxs) as (g & Hg & Hmax).
  exists g. split; [|done].
  unfold maximaGanancia. simpl. by rewrite calcular_maxima_Array, Hg.
Qed.

Lemma maximaGanancia_spec xs m :
  acotada xs ->
  maximaGanancia (Array xs) = Ok (Num m) <-> es_ganancia_maxima xs m.
Proof.
  intros Hxs. split.
  - intros E. destruct xs as [|x xs]; [discriminate|].
    destruct (maximaGanancia_Array (x :: xs)) as (g & Hg & Hmax); [done..|].
    congruence.
  - intros Hm.
    destruct (maximaGanancia_Array xs) as (g & Hg & Hmax);
      [by eapply es_ganancia_maxima_no_vacio | done |].
    by rewrite Hg, (es_ganancia_maxima_unica _ _ _ Hmax Hm).
Qed.

Lemma resultado_entero_spec xs :
  acotada xs ->
  forall m, resultado_entero (maximaGanancia (Array xs)) = Some m <->
            es_ganancia_maxima xs m.
Proof.
  intros Hxs m. rewrite <- maximaGanancia_spec by done.
  destruct (maximaGanancia (Array xs)) as [[]|]; simpl; split; congruence.
Qed.

#[export] Instance CalculadorGananciaMaxima_correcto :
  GananciaCalculatorCorrecto CalculadorGananciaMaxima.
Proof.
  split.
  - intros c parcelas H. exists (new_Error mensaje_vacio). simpl.
    unfold calcular_maxima. by destruct H as [-> | ->].
  - intros c xs Hne Hxs. by apply maximaGanancia_Array.
Qed.

#[export] Instance CalculadorFuerzaBruta_correcto :
  GananciaCalculatorCorrecto CalculadorFuerzaBruta.
Proof.
  split.
  - intros c parcelas H. exists (new_Error mensaje_vacio). simpl.
    unfold calcular_fuerza_bruta. by destruct H as [-> | ->].
  - intros c xs Hne _. destruct (fuerza_bruta_total xs Hne) as [m Hm].
    exists m. split; [|by apply fuerza_bruta_spec]. simpl.
    unfold calcular_fuerza_bruta. rewrite validar_Array by done.
    simpl. by rewrite Hm.
Qed.

End Correccion.

(** ** Properties of the calculator *)

Section Propiedades.
Implicit Types (xs : list Z) (s : estado) (n : nat) (x m g : Z).

(** C1: on a non-empty array whose absolute values sum to at most
    [MAX_SAFE_INTEGER], [maximaGanancia] returns a number, and that number is
    the largest sum of a non-empty contiguous sub-range of the array. *)
Theorem maximaGanancia_correcta xs :
  xs <> [] -> acotada xs ->
  exists m, maximaGanancia (Array xs) = Ok (Num m) /\ es_ganancia_maxima xs m.
Proof. apply maximaGanancia_Array. Qed.

(** C2: [maximaGanancia] throws exactly when its argument is no array or is
    the empty array, and the error carries the message of [validar]. *)
Theorem maximaGanancia_lanza_sii parcelas e :
  maximaGanancia parcelas = Lanza e <->
  (parcelas = NoArray \/ parcelas = Array []) /\ e = new_Error mensaje_vacio.
Proof.
  rewrite <- validar_Lanza. unfold maximaGanancia. simpl. unfold calcular_maxima.
  destruct (validar parcelas); resultado_simpl; split; intros [=]; by subst.
Qed.

(** C3: every state the loop reaches from its initial state satisfies the
    invariant: after [i] elements, [gananciaMaximaLocal] is the best sum of a
    segment ending at element [i - 1] and [gananciaMaximaGlobal] the best sum
    of a segment of the first [i] elements. *)
Theorem alcanzable_invariante xs s :
  xs <> [] -> acotada xs -> rtc (paso xs) (estado_inicial xs) s ->
  invariante xs s.
Proof.
  intros Hne Hxs. apply rtc_paso_invariante; [done|].
  by apply estado_inicial_invariante.
Qed.

(** C4: with fuel for the elements left to read, [bucle] runs the transitions
    of the loop and stops in a state where the loop test fails: it never
    stops for lack of fuel. *)
Theorem bucle_termina n xs s :
  (length xs - i s <= n)%nat ->
  rtc (paso xs) s (bucle n xs s) /\ salida xs (bucle n xs s).
Proof. intros H. split; [apply bucle_rtc | by apply bucle_sale]. Qed.

(** C5: on every bounded array the one-pass calculator agrees with the
    enumeration of all segments; on the empty array neither yields a
    number. *)
Theorem maximaGanancia_fuerza_bruta xs :
  acotada xs -> resultado_entero (maximaGanancia (Array xs)) = fuerza_bruta xs.
Proof.
  intros Hxs. apply option_eq. intros m.
  by rewrite resultado_entero_spec, fuerza_bruta_spec.
Qed.

(** C10: on every non-empty array, whatever the magnitudes, the result is a
    finite number or, after an overflow, [Infinity]: no read of the loop is
    out of range and no sum is of opposite infinities, so neither
    [undefined], [NaN] nor [-Infinity] reaches the accumulators. *)
Theorem maximaGanancia_es_numero xs :
  xs <> [] ->
  exists v, maximaGanancia (Array xs) = Ok v /\
            (v = Infinity \/ exists z, v = Num z).
Proof.
  intros Hne. unfold maximaGanancia. simpl. rewrite calcular_maxima_Array by done.
  pose proof (rtc_paso_numerico xs _ _ (estado_inicial_numerico xs Hne)
                (bucle_rtc (length xs) xs _)) as [_ Hg]%andb_prop.
  eexists. split; [done|]. by apply es_ganancia_casos.
Qed.


(** C21: the result is at least every element of the array. *)
Theorem maximaGanancia_cota_elemento xs x :
  acotada xs -> x ∈ xs ->
  exists m, maximaGanancia (Array xs) = Ok (Num m) /\ x <= m.
Proof.
  intros Hxs Hx.
  destruct (maximaGanancia_Array xs) as (m & Hm & Hmax);
    [by intros -> ; apply elem_of_nil in Hx | done |].
  exists m. split; [done|]. by eapply es_ganancia_maxima_elem.
Qed.

(** C22: when no element is negative the result is the sum of the whole
    array. *)
Theorem maximaGanancia_no_negativos xs :
  xs <> [] -> acotada xs -> Forall (fun x => 0 <= x) xs ->
  maximaGanancia (Array xs) = Ok (Num (suma xs)).
Proof.
  intros Hne Hxs Hpos. apply maximaGanancia_spec; [done|].
  by apply es_ganancia_maxima_no_negativos.
Qed.

(** When every element is negative the result is the largest single
    element. *)
Theorem maximaGanancia_negativos x xs :
  acotada (x :: xs) -> Forall (fun y => y < 0) (x :: xs) ->
  maximaGanancia (Array (x :: xs)) = Ok (Num (maximo x xs)).
Proof.
  intros Hxs Hneg. apply maximaGanancia_spec; [done|].
  by apply es_ganancia_maxima_negativos.
Qed.

(** An array of one element yields that element unchanged, of any sign
    and any magnitude. *)
Theorem maximaGanancia_unitario x : maximaGanancia (Array [x]) = Ok (Num x).
Proof. reflexivity. Qed.

(** C23: on [n] copies of [x] the result is [n * x] when [x] is not negative
    and [x] when it is. *)
Theorem maximaGanancia_repetidos n x :
  (0 < n)%nat -> acotada (replicate n x) ->
  maximaGanancia (Array (replicate n x)) =
  Ok (Num (if 0 <=? x then Z.of_nat n * x else x)).
Proof.
  intros Hn Hxs. apply maximaGanancia_spec; [done|].
  by apply es_ganancia_maxima_replicate.
Qed.

(** On every bounded array the loop of the source computes what the
    two-accumulator recurrence computes on exact integers. *)
Theorem maximaGanancia_kadane xs :
  acotada xs -> resultado_entero (maximaGanancia (Array xs)) = kadane xs.
Proof.
  intros Hxs. apply option_eq. intros m.
  by rewrite resultado_entero_spec, kadane_spec.
Qed.

(** The result is bounded in magnitude by the sum of the absolute values
    of the array, hence is itself a safe integer. *)
Theorem maximaGanancia_cota_abs xs :
  xs <> [] -> acotada xs ->
  exists m, maximaGanancia (Array xs) = Ok (Num m) /\
            Z.abs m <= suma_abs xs /\ Z.abs m <= MAX_SAFE_INTEGER.
Proof.
  intros Hne Hxs. destruct (maximaGanancia_Array xs Hne Hxs) as (m & Hm & Hmax).
  exists m. split; [done|]. apply es_ganancia_maxima_abs in Hmax.
  unfold acotada in Hxs. lia.
Qed.


(** C16: the loop is one pass: with fuel for the elements left to read,
    [bucle] runs exactly one iteration per element from [i] on, no more and
    no fewer, whatever the array holds. *)
Theorem bucle_una_pasada n xs s :
  (length xs - i s <= n)%nat ->
  nsteps (paso xs) (length xs - i s) s (bucle n xs s).
Proof.
  revert s. induction n as [|n IH]; intros s H; simpl.
  - replace (length xs - i s)%nat with 0%nat by lia. constructor.
  - destruct (Nat.ltb_spec (i s) (length xs)).
    + replace (length xs - i s)%nat
        with (S (length xs - i (cuerpo xs s))) by (simpl; lia).
      eapply nsteps_l; [by constructor | apply IH; simpl; lia].
    + replace (length xs - i s)%nat with 0%nat by lia. constructor.
Qed.


(** The loop terminates from every state: the transition relation has
    no infinite run, whatever the fuel of [bucle]. *)
Theorem paso_sn xs s : sn (paso xs) s.
Proof.
  remember (length xs - i s)%nat as n eqn:Hn.
  revert s Hn. induction (lt_wf n) as [n _ IH]. intros s ->.
  constructor. intros s' Hs'. inversion Hs' as [s0 Hlt]; subst.
  eapply IH; [|done]. simpl. lia.
Qed.

(** C17: every element is eventually read: for each index [k] from [i] on,
    the run of the loop reaches the state with [i = k], takes the iteration
    that reads [parcelas[k]], and goes on to the final state. *)
Theorem bucle_lee_todo n xs s k :
  (length xs - i s <= n)%nat -> (i s <= k < length xs)%nat ->
  exists s', rtc (paso xs) s s' /\ i s' = k /\
             paso xs s' (cuerpo xs s') /\
             rtc (paso xs) (cuerpo xs s') (bucle n xs s).
Proof.
  revert s. induction n as [|n IH]; intros s Hn Hk; [lia|].
  rewrite bucle_paso by lia.
  destruct (decide (i s = k)) as [<-|Hne].
  - exists s. split_and!; [done | done | constructor; lia | apply bucle_rtc].
  - destruct (IH (cuerpo xs s)) as (s' & Hrtc & Hi & Hpaso & Hfin); [simpl; lia..|].
    exists s'. split_and!; [|done..]. eapply rtc_l; [constructor; lia | done].
Qed.


End Propiedades.

(** ** Witnesses on the arrays of the test suite *)

Section Testigos.

(** [acotada] on a concrete array. *)
Ltac acotada_concreta := unfold acotada, MAX_SAFE_INTEGER; simpl; lia.

Lemma maximaGanancia_correcta_testigo :
  exists m, maximaGanancia (Array [2; -5; 8; -2; 4; -10; 3; 1]) = Ok (Num m) /\
            es_ganancia_maxima [2; -5; 8; -2; 4; -10; 3; 1] m.
Proof. apply maximaGanancia_correcta; [done | acotada_concreta]. Defined.

Lemma alcanzable_invariante_testigo :
  invariante [8; 1; -100; 2; 5] (bucle 2 [8; 1; -100; 2; 5] (estado_inicial [8; 1; -100; 2; 5])).
Proof.
  apply alcanzable_invariante; [done | acotada_concreta | apply bucle_rtc].
Defined.

Lemma bucle_termina_testigo :
  rtc (paso [1; 2; 3; 4]) (estado_inicial [1; 2; 3; 4])
      (bucle 4 [1; 2; 3; 4] (estado_inicial [1; 2; 3; 4])) /\
  salida [1; 2; 3; 4] (bucle 4 [1; 2; 3; 4] (estado_inicial [1; 2; 3; 4])).
Proof. apply bucle_termina. simpl. lia. Defined.

Lemma maximaGanancia_fuerza_bruta_testigo :
  resultado_entero (maximaGanancia (Array [1; -3; 2; 3; -1; 4])) =
  fuerza_bruta [1; -3; 2; 3; -1; 4].
Proof. apply maximaGanancia_fuerza_bruta. acotada_concreta. Defined.

Lemma maximaGanancia_es_numero_testigo :
  exists v, maximaGanancia (Array [2 ^ 60; - 2 ^ 70; 3]) = Ok v /\
            (v = Infinity \/ exists z, v = Num z).
Proof. apply maximaGanancia_es_numero. done. Defined.

Lemma maximaGanancia_cota_elemento_testigo :
  exists m, maximaGanancia (Array [-10; -20; 15; -30; -50]) = Ok (Num m) /\ 15 <= m.
Proof.
  apply maximaGanancia_cota_elemento; [acotada_concreta|].
  do 2 right; left.
Defined.

Lemma maximaGanancia_no_negativos_testigo :
  maximaGanancia (Array [1; 2; 3; 4; 5]) = Ok (Num (suma [1; 2; 3; 4; 5])).
Proof.
  apply maximaGanancia_no_negativos; [done | acotada_concreta|].
  repeat constructor; lia.
Defined.

Lemma maximaGanancia_negativos_testigo :
  maximaGanancia (Array [-1000; -2000; -500]) = Ok (Num (maximo (-1000) [-2000; -500])).
Proof.
  apply maximaGanancia_negativos; [acotada_concreta|].
  repeat constructor; lia.
Defined.

Lemma maximaGanancia_repetidos_testigo :
  maximaGanancia (Array (replicate 3 0)) = Ok (Num (if 0 <=? 0 then Z.of_nat 3 * 0 else 0)).
Proof. apply maximaGanancia_repetidos; [lia | acotada_concreta]. Defined.

Lemma maximaGanancia_kadane_testigo :
  resultado_entero (maximaGanancia (Array [3; -2; 5; -2; 3])) = kadane [3; -2; 5; -2; 3].
Proof. apply maximaGanancia_kadane. acotada_concreta. Defined.

Lemma bucle_mas_combustible_testigo :
  bucle 7 [5; -3; 5] (estado_inicial [5; -3; 5]) =
  bucle 2 [5; -3; 5] (estado_inicial [5; -3; 5]).
Proof. apply bucle_mas_combustible; simpl; lia. Defined.

Lemma maximaGanancia_cota_abs_testigo :
  exists m, maximaGanancia (Array [1000000; -500000; 2000000]) = Ok (Num m) /\
            Z.abs m <= suma_abs [1000000; -500000; 2000000] /\
            Z.abs m <= MAX_SAFE_INTEGER.
Proof. apply maximaGanancia_cota_abs; [done | acotada_concreta]. Defined.


Lemma bucle_una_pasada_testigo :
  nsteps (paso [2; -5; 8; -2; 4; -10; 3; 1])
    (length [2; -5; 8; -2; 4; -10; 3; 1] - i (estado_inicial [2; -5; 8; -2; 4; -10; 3; 1]))
    (estado_inicial [2; -5; 8; -2; 4; -10; 3; 1])
    (bucle 8 [2; -5; 8; -2; 4; -10; 3; 1] (estado_inicial [2; -5; 8; -2; 4; -10; 3; 1])).
Proof. apply bucle_una_pasada. simpl. lia. Defined.


Lemma bucle_lee_todo_testigo :
  exists s', rtc (paso [5; -3; 5]) (estado_inicial [5; -3; 5]) s' /\ i s' = 2%nat /\
             paso [5; -3; 5] s' (cuerpo [5; -3; 5] s') /\
             rtc (paso [5; -3; 5]) (cuerpo [5; -3; 5] s')
               (bucle 3 [5; -3; 5] (estado_inicial [5; -3; 5])).
Proof. apply bucle_lee_todo; simpl; lia. Defined.

End Testigos.
