(* ===== verification/CalculoDoble.v ===== *)
(** * CalculoDoble: [calcular] on arrays of any numbers

    The parameter of [calcular] is declared [number[]]: the array may hold
    fractions, zeros of either sign, infinities and [NaN].  [MaximaGanancia]
    follows the specification and the arrays of the repository, which hold
    integers; this file translates the same lines of
    [src/maximaGanancia.ts] over the numbers of [Dobles], and relates the
    two models.

    - [leer_doble], [mas_doble], [Math_max_doble]: an array read, [+] and
      [Math.max] on a number or [undefined] ([None]);
    - [validar_doble], [estado_doble], [cuerpo_doble], [bucle_doble],
      [calcular_doble], [maximaGanancia_doble]: the methods and the loop,
      as in [MaximaGanancia];
    - [a_doble], [a_estado]: the embedding of the integer model, which is
      the simulation relation between the two loops;
    - [acumulado], [contagiado], [tipado_doble], [cercano]: the invariants
      of the loop on finite numbers, after a [NaN], on values of the type,
      and under rounding.

    The theorems: on an array of integers the two models return the same
    number; on finite numbers the result is within a bound of the largest
    sum of a segment, and equal to it on a binary grid; it is a number with
    a lower bound, at least every element, whatever the rounding; a [NaN]
    in the array reaches the result; and two infinities of opposite sign
    make one. *)

From stdpp Require Import base list numbers strings.
From Stdlib Require Import ZArith Lia.
From S2P Require Import Prelude Redondeo JsNumero Dobles Segmentos MaximaGanancia.

Local Open Scope Z_scope.

(** ** Values and operators *)

(** [parcelas[k]]: [None] is [undefined]. *)
Definition leer_doble (parcelas : list numero) (k : nat) : option numero :=
  parcelas !! k.

(** The conversion of an operand to a number: [undefined] becomes [NaN]. *)
Definition ToNumber_doble (v : option numero) : numero := default NoNum v.

Definition es_nan (x : numero) : bool :=
  match x with NoNum => true | _ => false end.

(** [x < y] on numbers, with the negative zero below the positive one, as
    [Math.max] orders them. *)
Definition menor (x y : numero) : bool :=
  match x, y with
  | NoNum, _ | _, NoNum => false
  | MenosInf, MenosInf => false
  | MenosInf, _ => true
  | _, MenosInf => false
  | MasInf, _ => false
  | _, MasInf => true
  | MenosCero, MenosCero => false
  | MenosCero, Finito v => 0 <=? v
  | Finito u, MenosCero => u <? 0
  | Finito u, Finito v => u <? v
  end.

(** [Math.max(a, b)]. *)
Definition Math_max_doble (a b : option numero) : option numero :=
  let x := ToNumber_doble a in
  let y := ToNumber_doble b in
  Some (if es_nan x || es_nan y then NoNum else if menor x y then y else x).

(** [a + b]. *)
Definition mas_doble (a b : option numero) : option numero :=
  Some (sumar (ToNumber_doble a) (ToNumber_doble b)).

(** ** The class, on arrays of numbers *)

Inductive argumento_doble : Type :=
| NoArrayDoble
| ArrayDoble (xs : list numero).

Definition elementos_doble (parcelas : argumento_doble) : list numero :=
  match parcelas with
  | ArrayDoble xs => xs
  | NoArrayDoble => []
  end.

(** [Array.isArray(parcelas)]. *)
Definition Array_isArray_doble (parcelas : argumento_doble) : bool :=
  match parcelas with
  | ArrayDoble _ => true
  | NoArrayDoble => false
  end.

(** [private validar(parcelas)]. *)
Definition validar_doble (parcelas : argumento_doble) : js unit :=
  if negb (Array_isArray_doble parcelas)
     || (length (elementos_doble parcelas) =? 0)%nat
  then Lanza (new_Error mensaje_vacio)
  else Ok tt.

(** The variables of the loop. *)
Record estado_doble : Type := {
  indice : nat;
  global : option numero;
  local : option numero
}.

Definition estado_inicial_doble (parcelas : list numero) : estado_doble :=
  {| indice := 1;
     global := leer_doble parcelas 0;
     local := leer_doble parcelas 0 |}.

(** One iteration: the two assignments of the body, then [i++]. *)
Definition cuerpo_doble (parcelas : list numero) (s : estado_doble) : estado_doble :=
  let local' := Math_max_doble (leer_doble parcelas (indice s))
                  (mas_doble (local s) (leer_doble parcelas (indice s))) in
  let global' := Math_max_doble (global s) local' in
  {| indice := S (indice s); global := global'; local := local' |}.

Fixpoint bucle_doble (combustible : nat) (parcelas : list numero)
    (s : estado_doble) : estado_doble :=
  match combustible with
  | O => s
  | S c =>
      if (indice s <? length parcelas)%nat
      then bucle_doble c parcelas (cuerpo_doble parcelas s)
      else s
  end.

(** [calcular(parcelas)]. *)
Definition calcular_doble (parcelas : argumento_doble) : js (option numero) :=
  validar_doble parcelas ;;
  let xs := elementos_doble parcelas in
  mret (global (bucle_doble (length xs) xs (estado_inicial_doble xs))).

(** [export function maximaGanancia(parcelas)]. *)
Definition maximaGanancia_doble (parcelas : argumento_doble) : js (option numero) :=
  calcular_doble parcelas.

(** ** The integer model among the numbers *)

Definition a_doble (v : valor) : option numero :=
  match v with
  | Undefined => None
  | _ => Some (de_valor v)
  end.

Definition a_estado (s : estado) : estado_doble :=
  {| indice := i s;
     global := a_doble (gananciaMaximaGlobal s);
     local := a_doble (gananciaMaximaLocal s) |}.

Definition a_argumento (parcelas : argumento) : argumento_doble :=
  match parcelas with
  | NoArray => NoArrayDoble
  | Array xs => ArrayDoble (map de_entero xs)
  end.

(** ** Vocabulary of the properties *)

(** A finite number: a double or a zero. *)
Definition finito (x : numero) : bool :=
  match x with Finito _ | MenosCero => true | _ => false end.

(** A number with a lower bound: finite, or [Infinity]. *)
Definition con_cota (x : numero) : bool :=
  match x with Finito _ | MenosCero | MasInf => true | _ => false end.

(** [x >= y] on numbers that are not [NaN]. *)
Definition mayor_o_igual (x y : numero) : bool := negb (menor x y).

(** Both accumulators hold numbers with a lower bound, the global one at
    least the local one and at least every element read. *)
Record acumulado (xs : list numero) (s : estado_doble) : Prop := {
  ac_rango : (1 <= indice s <= length xs)%nat;
  ac_local : exists l, local s = Some l /\ con_cota l;
  ac_global : exists g, global s = Some g /\ con_cota g /\
    (forall l, local s = Some l -> mayor_o_igual g l) /\
    (forall k x, (k < indice s)%nat -> xs !! k = Some x -> mayor_o_igual g x)
}.

(** Once a [NaN] was read, both accumulators hold [NaN]. *)
Definition contagiado (xs : list numero) (s : estado_doble) : Prop :=
  (exists k, (k < indice s)%nat /\ xs !! k = Some NoNum) ->
  local s = Some NoNum /\ global s = Some NoNum.

(** Both accumulators hold [undefined] or a value of the type [number]. *)
Definition tipado_doble (s : estado_doble) : Prop :=
  numero_valido (ToNumber_doble (local s)) /\ numero_valido (ToNumber_doble (global s)).

(** After reading the first [i] elements, both accumulators are finite and
    near the exact ones, the best sum of a segment that ends at element
    [i - 1] and the best sum of a segment of the elements read: each of the
    [i - 1] sums of the loop lost at most [B / 2^52] units to rounding. *)
Record cercano (B : Z) (xs : list numero) (s : estado_doble) : Prop := {
  ce_rango : (1 <= indice s <= length xs)%nat;
  ce_local : exists l m,
    local s = Some l /\ finito l /\
    es_mejor_final (take (indice s) (map unidades xs)) m /\
    Z.abs (unidades l - m) * 2 ^ 52 <= (Z.of_nat (indice s) - 1) * B;
  ce_global : exists g m,
    global s = Some g /\ finito g /\
    es_ganancia_maxima (take (indice s) (map unidades xs)) m /\
    Z.abs (unidades g - m) * 2 ^ 52 <= (Z.of_nat (indice s) - 1) * B
}.

(** ** The order of the numbers *)

Section Orden.
Implicit Types (x y z : numero).

Lemma menor_irreflexiva x : menor x x = false.
Proof. destruct x; simpl; try done. apply Z.ltb_irrefl. Qed.

Lemma mayor_o_igual_refl x : mayor_o_igual x x.
Proof. unfold mayor_o_igual. by rewrite menor_irreflexiva. Qed.

Lemma menor_asimetrica x y : menor x y -> mayor_o_igual y x.
Proof.
  unfold mayor_o_igual. destruct x, y; simpl; try done;
    intros H; apply Is_true_true in H; apply negb_prop_intro; intros H';
    apply Is_true_true in H'; lia.
Qed.

Lemma mayor_o_igual_trans x y z :
  es_nan y = false -> mayor_o_igual x y -> mayor_o_igual y z -> mayor_o_igual x z.
Proof.
  unfold mayor_o_igual. destruct x, y, z; simpl; try done; intros _ H1 H2;
    apply negb_prop_elim in H1; apply negb_prop_elim in H2; apply negb_prop_intro;
    rewrite Is_true_true in *; lia.
Qed.

End Orden.

(** ** The operators *)

Section Operadores.
Implicit Types (x y l : numero).

Lemma ToNumber_doble_Some x : ToNumber_doble (Some x) = x.
Proof. done. Qed.

Lemma Math_max_doble_spec x y :
  es_nan x = false -> es_nan y = false ->
  exists r, Math_max_doble (Some x) (Some y) = Some r /\ (r = x \/ r = y) /\
            mayor_o_igual r x /\ mayor_o_igual r y.
Proof.
  intros Hx Hy. unfold Math_max_doble. simpl. rewrite Hx, Hy. simpl.
  destruct (menor x y) eqn:E; eexists; (split; [done|]).
  - split_and!; [by right | | apply mayor_o_igual_refl].
    apply menor_asimetrica. by rewrite E.
  - split_and!; [by left | apply mayor_o_igual_refl |].
    unfold mayor_o_igual. by rewrite E.
Qed.

Lemma Math_max_doble_nan_l a : Math_max_doble (Some NoNum) a = Some NoNum.
Proof. done. Qed.

Lemma Math_max_doble_nan_r a : Math_max_doble a (Some NoNum) = Some NoNum.
Proof. unfold Math_max_doble. simpl. by rewrite orb_true_r. Qed.

Lemma mas_doble_nan_l a : mas_doble (Some NoNum) a = Some NoNum.
Proof. done. Qed.

(** The sum of a number with a lower bound and a finite one is a number:
    no sum of opposite infinities arises. *)
Lemma sumar_no_nan l x : con_cota l -> finito x -> es_nan (sumar l x) = false.
Proof.
  destruct l, x; try done; intros _ _; unfold sumar, con_signo, cero, infinito;
    cbv beta iota zeta; repeat case_match; done.
Qed.

(** Above a finite number there are only numbers with a lower bound. *)
Lemma sobre_finito x y :
  finito x -> es_nan y = false -> mayor_o_igual y x -> con_cota y.
Proof. by destruct x, y. Qed.

Lemma finito_con_cota x : finito x -> con_cota x.
Proof. by destruct x. Qed.

Lemma con_cota_no_nan x : con_cota x -> es_nan x = false.
Proof. by destruct x. Qed.

End Operadores.

(** ** The loop *)

Section BucleDoble.
Implicit Types (xs : list numero) (s : estado_doble).

(** A property the body keeps while the test holds is a property of the
    state the loop leaves. *)
Lemma bucle_doble_conserva (P : estado_doble -> Prop) n xs s :
  (forall s', P s' -> (indice s' < length xs)%nat -> P (cuerpo_doble xs s')) ->
  P s -> P (bucle_doble n xs s).
Proof.
  intros HP. revert s. induction n as [|n IH]; intros s Hs; [done|]. simpl.
  destruct (Nat.ltb_spec (indice s) (length xs)); [|done]. by apply IH, HP.
Qed.

Lemma calcular_doble_Array xs :
  xs <> [] ->
  calcular_doble (ArrayDoble xs) =
  Ok (global (bucle_doble (length xs) xs (estado_inicial_doble xs))).
Proof. by destruct xs. Qed.

Lemma estado_inicial_acumulado xs :
  xs <> [] -> Forall finito xs -> acumulado xs (estado_inicial_doble xs).
Proof.
  destruct xs as [|x xs]; [done|]. intros _ [Hx _]%Forall_cons.
  pose proof (finito_con_cota x Hx). split; simpl.
  - lia.
  - eauto.
  - exists x. split_and!; [done | done | |].
    + intros l [= <-]. apply mayor_o_igual_refl.
    + intros [|k] y Hk; [|lia]. intros [= <-]. apply mayor_o_igual_refl.
Qed.

Lemma cuerpo_acumulado xs s :
  Forall finito xs -> acumulado xs s -> (indice s < length xs)%nat ->
  acumulado xs (cuerpo_doble xs s).
Proof.
  intros Hxs [Hr (l & Hl & Hcl) (g & Hg & Hcg & Hgl & Hgx)] Hlt.
  destruct (lookup_lt_is_Some_2 xs (indice s) Hlt) as [x Hx].
  pose proof (Forall_lookup_1 _ _ _ _ Hxs Hx) as Hfx. simpl in Hfx.
  unfold cuerpo_doble, leer_doble, mas_doble. rewrite Hx, Hl, Hg, !ToNumber_doble_Some.
  destruct (Math_max_doble_spec x (sumar l x)) as (l' & -> & Hl' & Hl'x & _);
    [by destruct x | by apply sumar_no_nan|].
  assert (con_cota l') as Hcl' by (apply (sobre_finito x); [done | | done];
    destruct Hl' as [-> | ->]; [by destruct x | by apply sumar_no_nan]).
  destruct (Math_max_doble_spec g l') as (g' & -> & Hg' & Hg'g & Hg'l);
    [by apply con_cota_no_nan..|].
  split; simpl; [lia | eauto |]. exists g'.
  split_and!; [done | by destruct Hg' as [-> | ->] | by intros ? [= <-] |].
  intros k y Hk Hy. destruct (decide (k = indice s)) as [->|].
  - rewrite Hx in Hy. injection Hy as <-.
    by apply (mayor_o_igual_trans _ l'); [apply con_cota_no_nan|..].
  - apply (mayor_o_igual_trans _ g); [by apply con_cota_no_nan | done |].
    apply (Hgx k); [lia | done].
Qed.

Lemma bucle_doble_acumulado xs :
  xs <> [] -> Forall finito xs ->
  acumulado xs (bucle_doble (length xs) xs (estado_inicial_doble xs)).
Proof.
  intros Hne Hxs. apply bucle_doble_conserva; [|by apply estado_inicial_acumulado].
  intros s. by apply cuerpo_acumulado.
Qed.

(** The loop leaves with [i] at the length. *)
Lemma bucle_doble_sale n xs s :
  (indice s <= length xs)%nat -> (length xs <= indice s + n)%nat ->
  indice (bucle_doble n xs s) = length xs.
Proof.
  revert s. induction n as [|n IH]; intros s Hle Hn; simpl; [lia|].
  destruct (Nat.ltb_spec (indice s) (length xs)); [|lia].
  apply IH; simpl; lia.
Qed.

Lemma bucle_doble_final xs :
  xs <> [] -> indice (bucle_doble (length xs) xs (estado_inicial_doble xs)) = length xs.
Proof.
  intros Hne. apply bucle_doble_sale; simpl; [|lia]. destruct xs; [done | simpl; lia].
Qed.

End BucleDoble.

(** ** [NaN] and the type of the accumulators *)

Section Contagio.
Implicit Types (xs : list numero) (s : estado_doble).

Lemma estado_inicial_contagiado xs : contagiado xs (estado_inicial_doble xs).
Proof. intros (k & Hk & Hx). simpl in *. by replace k with 0%nat in Hx by lia. Qed.

(** Once both accumulators hold [NaN], they keep it. *)
Lemma cuerpo_nan xs s :
  local s = Some NoNum /\ global s = Some NoNum ->
  local (cuerpo_doble xs s) = Some NoNum /\ global (cuerpo_doble xs s) = Some NoNum.
Proof.
  intros [Hl Hg]. unfold cuerpo_doble. cbn [local global].
  by rewrite Hl, mas_doble_nan_l, !Math_max_doble_nan_r.
Qed.

Lemma cuerpo_contagiado xs s :
  contagiado xs s -> contagiado xs (cuerpo_doble xs s).
Proof.
  intros Hs (k & Hk & Hx). simpl in Hk.
  destruct (decide (k = indice s)) as [->|Hne].
  - unfold cuerpo_doble, leer_doble. simpl.
    by rewrite Hx, Math_max_doble_nan_l, Math_max_doble_nan_r.
  - apply cuerpo_nan, Hs. exists k. split; [lia | done].
Qed.

Lemma Math_max_doble_valido a b :
  numero_valido (ToNumber_doble a) -> numero_valido (ToNumber_doble b) ->
  numero_valido (ToNumber_doble (Math_max_doble a b)).
Proof. intros Ha Hb. unfold Math_max_doble. simpl. by repeat case_match. Qed.

Lemma leer_doble_valido xs k :
  Forall numero_valido xs -> numero_valido (ToNumber_doble (leer_doble xs k)).
Proof.
  intros Hxs. unfold leer_doble. destruct (xs !! k) as [x|] eqn:E; [|done].
  apply (Forall_lookup_1 _ _ _ _ Hxs E).
Qed.

Lemma cuerpo_tipado_doble xs s :
  Forall numero_valido xs -> tipado_doble s -> tipado_doble (cuerpo_doble xs s).
Proof.
  intros Hxs [Hl Hg].
  assert (numero_valido (ToNumber_doble (local (cuerpo_doble xs s)))) as Hl'.
  { apply Math_max_doble_valido; [by apply leer_doble_valido | apply sumar_valido]. }
  split; [done|]. by apply Math_max_doble_valido.
Qed.

End Contagio.

(** ** The integer model is simulated *)

Section Simulacion.
Implicit Types (a b : valor) (xs : list Z) (s : estado).

Lemma leer_a_doble xs k : leer_doble (map de_entero xs) k = a_doble (leer xs k).
Proof.
  unfold leer_doble, leer. rewrite list_lookup_fmap. by destruct (xs !! k).
Qed.

Lemma ToNumber_a_doble a : ToNumber_doble (a_doble a) = de_valor a.
Proof. by destruct a. Qed.

Lemma a_doble_numero a : a <> Undefined -> a_doble a = Some (de_valor a).
Proof. by destruct a. Qed.

Lemma mas_no_Undefined a b : mas a b <> Undefined.
Proof.
  destruct a as [x| | | |], b as [y| | | |]; try done;
    rewrite mas_Num; by destruct (desbordar_casos (redondear (x + y))) as [[-> _]|[[-> _]|[-> _]]].
Qed.

Lemma mas_a_doble a b : mas_doble (a_doble a) (a_doble b) = a_doble (mas a b).
Proof.
  rewrite (a_doble_numero (mas a b)) by apply mas_no_Undefined.
  unfold mas_doble. rewrite !ToNumber_a_doble. f_equal.
  destruct a as [x| | | |], b as [y| | | |]; try done. apply sumar_de_entero.
Qed.

Lemma menor_de_entero x y : menor (de_entero x) (de_entero y) = (x <? y).
Proof.
  pose proof ESCALA_pos. unfold de_entero, menor.
  destruct (Z.ltb_spec (x * ESCALA) (y * ESCALA)), (Z.ltb_spec x y); nia || done.
Qed.

Lemma Math_max_no_Undefined a b : Math_max a b <> Undefined.
Proof. by destruct a, b. Qed.

Lemma Math_max_a_doble a b :
  Math_max_doble (a_doble a) (a_doble b) = a_doble (Math_max a b).
Proof.
  rewrite (a_doble_numero (Math_max a b)) by apply Math_max_no_Undefined.
  unfold Math_max_doble. rewrite !ToNumber_a_doble. f_equal.
  destruct a as [x| | | |], b as [y| | | |]; try done.
  cbn [de_valor es_nan orb Math_max ToNumber]. rewrite menor_de_entero.
  unfold Z.max. rewrite Z.ltb_compare. by destruct (x ?= y) eqn:E;
    [apply Z.compare_eq in E as ->|..].
Qed.

Lemma cuerpo_a_estado xs s :
  cuerpo_doble (map de_entero xs) (a_estado s) = a_estado (cuerpo xs s).
Proof.
  unfold cuerpo_doble, cuerpo, a_estado. simpl.
  by rewrite leer_a_doble, mas_a_doble, !Math_max_a_doble.
Qed.

Lemma bucle_a_estado n xs s :
  bucle_doble n (map de_entero xs) (a_estado s) = a_estado (bucle n xs s).
Proof.
  revert s. induction n as [|n IH]; intros s; [done|]. simpl. rewrite length_map.
  destruct (i s <? length xs)%nat; [|done]. by rewrite cuerpo_a_estado, IH.
Qed.

Lemma estado_inicial_a_estado xs :
  estado_inicial_doble (map de_entero xs) = a_estado (estado_inicial xs).
Proof. unfold estado_inicial_doble, estado_inicial, a_estado. simpl. by rewrite leer_a_doble. Qed.

End Simulacion.

(** ** The rounding error of the loop *)

Section Precision.
Implicit Types (x y l g : numero) (z m B : Z) (xs : list numero) (s : estado_doble).

(** [Math.max] of two finite numbers is the larger one. *)
Lemma Math_max_doble_finito x y :
  finito x -> finito y ->
  exists r, Math_max_doble (Some x) (Some y) = Some r /\ finito r /\
            unidades r = Z.max (unidades x) (unidades y).
Proof.
  destruct x as [u| | | |], y as [v| | | |]; try done; intros _ _;
    unfold Math_max_doble; rewrite !ToNumber_doble_Some; cbn [es_nan orb menor];
    caso_bool; eexists; (split_and!; [done | done | cbn [unidades]; lia]).
Qed.

(** A sum of finite numbers that stays below [2^1024] is the rounding of
    the exact sum. *)
Lemma sumar_finito x y :
  finito x -> finito y -> Z.abs (redondear (unidades x + unidades y)) < TECHO ->
  finito (sumar x y) /\ unidades (sumar x y) = redondear (unidades x + unidades y).
Proof.
  destruct x as [u| | | |], y as [v| | | |]; try done; intros _ _;
    cbn [unidades]; rewrite ?Z.add_0_l, ?Z.add_0_r;
    intros Hd; unfold sumar, con_signo, cero, infinito; cbv beta iota zeta;
    cbn [unidades]; rewrite ?Z.add_0_l, ?Z.add_0_r;
    caso_bool; cbn [finito unidades]; split; (done || lia).
Qed.

(** Below [2^1023] a rounding stays finite and loses at most the [2^53]th
    part of its argument. *)
Lemma redondear_acotado z B :
  Z.abs z <= 2 * B -> B <= 2 ^ 2096 ->
  Z.abs (redondear z) < TECHO /\ Z.abs (redondear z - z) * 2 ^ 52 <= B.
Proof.
  intros Hz HB. pose proof (redondear_error z) as He.
  assert (TECHO = 2 * (2 * 2 ^ 2096)) as ->
    by (unfold TECHO; by rewrite <- !Z.pow_succ_r by lia).
  assert (redondear (2 * 2 ^ 2096) = 2 * 2 ^ 2096) as Hs
    by (apply redondear_multiplo; lia).
  assert (0 < 2 ^ 2096) as Hpos by (apply Z.pow_pos_nonneg; lia).
  pose proof (redondear_monotona z (2 * 2 ^ 2096)) as Hsup.
  pose proof (redondear_monotona (- (2 * 2 ^ 2096)) z) as Hinf.
  rewrite redondear_opp, Hs in *. generalize dependent (2 ^ 2096). intros c. lia.
Qed.

(** The invariant, for any loss [B] per sum that the roundings of the
    loop respect: its arguments are within [(n - 1) * B / 2^52] of the sum
    of a segment. *)
Section Bucle.
Context (xs : list numero) (B : Z).
Context (Hfin : Forall finito xs) (HB : 0 <= B).
Context (Hred : forall t z,
  segmento t (map unidades xs) ->
  Z.abs (z - suma t) * 2 ^ 52 <= (Z.of_nat (length xs) - 1) * B ->
  Z.abs (redondear z) < TECHO /\ Z.abs (redondear z - z) * 2 ^ 52 <= B).

(** The sum of the body: the accumulator near [m] plus the element read is
    finite and near [m] plus the element. *)
Lemma suma_cercana k x l m :
  (k < length xs)%nat -> xs !! k = Some x -> finito l ->
  es_mejor_final (take k (map unidades xs)) m ->
  Z.abs (unidades l - m) * 2 ^ 52 <= (Z.of_nat k - 1) * B ->
  finito (sumar l x) /\
  Z.abs (unidades (sumar l x) - (m + unidades x)) * 2 ^ 52 <= Z.of_nat k * B.
Proof.
  intros Hk Hx Hl Hm Herr.
  pose proof (Forall_lookup_1 _ _ _ _ Hfin Hx) as Hfx.
  assert (map unidades xs !! k = Some (unidades x)) as Hu
    by (by rewrite list_lookup_fmap, Hx).
  destruct (final_take_segmento _ _ _ _ Hu Hm) as (t & Ht & Hsuma).
  assert ((Z.of_nat k - 1) * B <= (Z.of_nat (length xs) - 1) * B) as Hkn
    by (apply Z.mul_le_mono_nonneg_r; lia).
  destruct (Hred t (unidades l + unidades x) Ht) as [Hr He]; [rewrite Hsuma; lia|].
  destruct (sumar_finito l x Hl Hfx Hr) as [Hf ->]. split; [done|]. lia.
Qed.

Lemma estado_inicial_cercano : xs <> [] -> cercano B xs (estado_inicial_doble xs).
Proof.
  destruct xs as [|x xs'] eqn:E; [done|]. intros _.
  apply Forall_cons in Hfin as [Hx _]. split; cbn.
  - lia.
  - exists x, (unidades x). split_and!; [done | done | apply es_mejor_final_singleton|].
    rewrite Z.sub_diag. simpl. lia.
  - exists x, (unidades x). split_and!; [done | done | apply es_ganancia_maxima_singleton|].
    rewrite Z.sub_diag. simpl. lia.
Qed.

Lemma cuerpo_cercano s :
  cercano B xs s -> (indice s < length xs)%nat -> cercano B xs (cuerpo_doble xs s).
Proof.
  intros [Hr (l & m & Hl & Hfl & Hm & Hel) (g & mg & Hg & Hfg & Hmg & Heg)] Hlt.
  destruct (lookup_lt_is_Some_2 xs (indice s) Hlt) as [x Hx].
  pose proof (Forall_lookup_1 _ _ _ _ Hfin Hx) as Hfx.
  assert (map unidades xs !! indice s = Some (unidades x)) as Hu
    by (by rewrite list_lookup_fmap, Hx).
  destruct (suma_cercana _ x l m Hlt Hx Hfl Hm Hel) as [Hfs Hes].
  unfold cuerpo_doble, leer_doble, mas_doble. rewrite Hx, Hl, Hg, !ToNumber_doble_Some.
  destruct (Math_max_doble_finito x (sumar l x) Hfx Hfs) as (l' & -> & Hfl' & Hul').
  destruct (Math_max_doble_finito g l' Hfg Hfl') as (g' & -> & Hfg' & Hug').
  pose proof (es_mejor_final_snoc _ _ (unidades x) Hm) as Hm'.
  pose proof (es_ganancia_maxima_snoc _ _ _ (unidades x) Hmg Hm') as Hmg'.
  split; cbn [indice local global]; rewrite ?(take_S_r _ _ _ Hu); [lia | |].
  - exists l', (Z.max (unidades x) (m + unidades x)). split_and!; [done..|]. lia.
  - exists g', (Z.max mg (Z.max (unidades x) (m + unidades x))).
    split_and!; [done..|]. lia.
Qed.

(** What the loop leaves: a finite number near the largest sum of a
    segment. *)
Lemma calcular_doble_cercano m :
  es_ganancia_maxima (map unidades xs) m ->
  exists r, calcular_doble (ArrayDoble xs) = Ok (Some r) /\ finito r /\
            Z.abs (unidades r - m) * 2 ^ 52 <= (Z.of_nat (length xs) - 1) * B.
Proof.
  intros Hm. assert (xs <> []) as Hne
    by (intros ->; by apply es_ganancia_maxima_no_vacio in Hm).
  rewrite calcular_doble_Array by done.
  destruct (bucle_doble_conserva (cercano B xs) (length xs) xs (estado_inicial_doble xs))
    as [_ _ (g & m' & -> & Hg & Hm' & Herr)];
    [intros s; apply cuerpo_cercano | by apply estado_inicial_cercano|].
  rewrite bucle_doble_final in Hm', Herr by done.
  rewrite take_ge in Hm' by (by rewrite length_map).
  rewrite (es_ganancia_maxima_unica _ _ _ Hm Hm'). eauto.
Qed.

End Bucle.

(** A sum of multiples of [d] is one. *)
Lemma suma_divide d (t : list Z) : Forall (Z.divide d) t -> (d | suma t).
Proof.
  induction 1 as [|u t Hu _ IH]; simpl; [apply Z.divide_0_r | by apply Z.divide_add_r].
Qed.

(** On a grid of [2^e] units a number of at most [2^53] steps is a double. *)
Lemma redondear_rejilla e z :
  0 <= e -> (2 ^ e | z) -> Z.abs z <= 2 ^ 53 * 2 ^ e -> redondear z = z.
Proof.
  intros He [q ->] Hz. apply redondear_multiplo; [done|].
  assert (0 < 2 ^ e) by (apply Z.pow_pos_nonneg; lia).
  rewrite Z.abs_mul, (Z.abs_eq (2 ^ e)) in Hz by lia.
  by apply Z.mul_le_mono_pos_r in Hz.
Qed.

End Precision.

(** ** Properties of [calcular] on numbers *)

Section PropiedadesDoble.
Implicit Types (xs : list numero).

(** C7: on an array of integers, and on what is no array, the model on
    numbers returns or throws what the model on integers does: the loop on
    integers is simulated step by step, with the rounding and the overflow
    of every sum. *)
Theorem maximaGanancia_doble_entero parcelas :
  maximaGanancia_doble (a_argumento parcelas) = a_doble <$> maximaGanancia parcelas.
Proof.
  destruct parcelas as [|[|x xs]]; [done..|].
  unfold maximaGanancia. cbn [calcular CalculadorGananciaMaxima_calculator].
  rewrite calcular_maxima_Array by done.
  unfold maximaGanancia_doble, a_argumento. rewrite calcular_doble_Array by done.
  by rewrite length_map, estado_inicial_a_estado, bucle_a_estado.
Qed.

(** On finite numbers of any kind (fractions, zeros of either sign,
    any magnitude) the result is a number with a lower bound, finite or
    [Infinity], and it is at least every element of the array, whatever
    the sums lose to rounding. *)
Theorem maximaGanancia_doble_cota xs :
  xs <> [] -> Forall finito xs ->
  exists r, maximaGanancia_doble (ArrayDoble xs) = Ok (Some r) /\ con_cota r /\
            Forall (fun x => mayor_o_igual r x) xs.
Proof.
  intros Hne Hxs. unfold maximaGanancia_doble. rewrite calcular_doble_Array by done.
  destruct (bucle_doble_acumulado xs Hne Hxs) as [_ _ (g & -> & Hg & _ & Hgx)].
  exists g. split_and!; [done..|]. apply Forall_lookup_2. intros k x Hx.
  apply (Hgx k); [|done]. apply lookup_lt_Some in Hx. by rewrite bucle_doble_final.
Qed.

(** C11: a [NaN] anywhere in the array reaches the result. *)
Theorem maximaGanancia_doble_nan xs :
  NoNum ∈ xs -> maximaGanancia_doble (ArrayDoble xs) = Ok (Some NoNum).
Proof.
  intros [k Hk]%list_elem_of_lookup_1.
  assert (xs <> []) as Hne by (by destruct xs).
  unfold maximaGanancia_doble. rewrite calcular_doble_Array by done. f_equal.
  apply (bucle_doble_conserva (contagiado xs) (length xs) xs (estado_inicial_doble xs)).
  - intros s Hs _. by apply cuerpo_contagiado.
  - apply estado_inicial_contagiado.
  - exists k. split; [|done]. apply lookup_lt_Some in Hk. by rewrite bucle_doble_final.
Qed.

(** C12: an [Infinity] followed by a [-Infinity] at the head of the array
    makes the result [NaN], whatever follows and although no element is a
    [NaN]: the sum [Infinity + -Infinity] of the body. *)
Theorem maximaGanancia_doble_infinitos xs :
  maximaGanancia_doble (ArrayDoble (MasInf :: MenosInf :: xs)) = Ok (Some NoNum).
Proof.
  unfold maximaGanancia_doble. rewrite calcular_doble_Array by done. f_equal.
  change (bucle_doble _ _ _) with
    (bucle_doble (S (length xs)) (MasInf :: MenosInf :: xs)
       (cuerpo_doble (MasInf :: MenosInf :: xs)
          (estado_inicial_doble (MasInf :: MenosInf :: xs)))).
  by apply (bucle_doble_conserva
    (fun s => local s = Some NoNum /\ global s = Some NoNum));
    [intros s Hs _; apply cuerpo_nan|].
Qed.

(** The accumulators keep their type: on an array of values of the
    type [number], the result is a value of the type. *)
Theorem maximaGanancia_doble_valido xs r :
  Forall numero_valido xs -> maximaGanancia_doble (ArrayDoble xs) = Ok (Some r) ->
  numero_valido r.
Proof.
  intros Hxs Hr. assert (xs <> []) as Hne by (by intros ->).
  unfold maximaGanancia_doble in Hr. rewrite calcular_doble_Array in Hr by done.
  injection Hr as Hr.
  destruct (bucle_doble_conserva tipado_doble (length xs) xs (estado_inicial_doble xs))
    as [_ Hg]; [| |by rewrite Hr in Hg].
  - intros s Hs _. by apply cuerpo_tipado_doble.
  - by split; apply leer_doble_valido.
Qed.

(** C8: on finite numbers whose magnitudes sum to at most [B], itself at
    most [2^1022], the result is finite and within [(n - 1) * B / 2^52] of
    the largest sum of a segment computed without rounding: each of the
    [n - 1] sums of the loop loses at most [B / 2^52]. *)
Theorem maximaGanancia_doble_precision xs m B :
  Forall finito xs -> es_ganancia_maxima (map unidades xs) m ->
  suma_abs (map unidades xs) <= B -> B <= 2 ^ 2096 ->
  Z.of_nat (length xs) <= 2 ^ 52 ->
  exists r, maximaGanancia_doble (ArrayDoble xs) = Ok (Some r) /\ finito r /\
            Z.abs (unidades r - m) * 2 ^ 52 <= (Z.of_nat (length xs) - 1) * B.
Proof.
  intros Hfin Hm Hsuma HB Hlen.
  pose proof (suma_abs_nonneg (map unidades xs)).
  apply calcular_doble_cercano; [done | lia | | done].
  intros t z Ht%segmento_suma_abs Hz. apply redondear_acotado; [|done].
  assert ((Z.of_nat (length xs) - 1) * B <= 2 ^ 52 * B)
    by (apply Z.mul_le_mono_nonneg_r; lia).
  lia.
Qed.

(** C9: on finite numbers that are multiples of one power of two, with
    magnitudes that sum to at most [2^53] times that power and stay below
    [2^1024], no sum is rounded: the result is the largest sum of a
    segment.  Integers below [2^53] are the case of the power [2^0];
    halves, quarters and the like have a power of their own. *)
Theorem maximaGanancia_doble_exacta xs m e :
  0 <= e -> Forall finito xs -> Forall (fun x => (2 ^ e | unidades x)) xs ->
  suma_abs (map unidades xs) <= 2 ^ 53 * 2 ^ e ->
  suma_abs (map unidades xs) < TECHO ->
  es_ganancia_maxima (map unidades xs) m ->
  exists r, maximaGanancia_doble (ArrayDoble xs) = Ok (Some r) /\ finito r /\
            unidades r = m.
Proof.
  intros He Hfin Hdiv Hsuma Htecho Hm.
  destruct (calcular_doble_cercano xs 0 Hfin) with (m := m)
    as (r & Hr & Hf & Herr); [done | | done | exists r; split_and!; [done..|lia]].
  intros t z Ht Hz. assert (z = suma t) as -> by lia.
  pose proof (segmento_suma_abs _ _ Ht).
  rewrite (redondear_rejilla e), Z.sub_diag; [lia | done | | lia].
  apply suma_divide, (segmento_Forall _ _ (map unidades xs)); [|done].
  by apply Forall_fmap.
Qed.

(** What the call returns on fractions and on zeros: on the doubles nearest
    to 0.1 and 0.2 it returns their rounded sum, 0.30000000000000004, which
    is not the exact sum of the two; and [Math.max] prefers the positive
    zero. *)
Example maximaGanancia_doble_ejemplos :
  maximaGanancia_doble
    (ArrayDoble [Finito (3602879701896397 * 2 ^ 1019);
                 Finito (3602879701896397 * 2 ^ 1020)])
    = Ok (Some (Finito (1351079888211149 * 2 ^ 1022))) /\
  toFixed (Finito (1351079888211149 * 2 ^ 1022)) 17 = "0.30000000000000004" /\
  1351079888211149 * 2 ^ 1022 <> 3602879701896397 * 2 ^ 1019 + 3602879701896397 * 2 ^ 1020 /\
  maximaGanancia_doble (ArrayDoble [MenosCero]) = Ok (Some MenosCero) /\
  maximaGanancia_doble (ArrayDoble [MenosCero; Finito 0]) = Ok (Some (Finito 0)) /\
  maximaGanancia_doble (ArrayDoble [Finito 0; MenosCero]) = Ok (Some (Finito 0)).
Proof. by vm_compute. Qed.

End PropiedadesDoble.

(** ** Witnesses *)

Section TestigosDoble.

(** A tenth, minus three tenths and a half: fractions that are no binary
    fractions. *)
Lemma maximaGanancia_doble_cota_testigo :
  let xs := [Finito (3602879701896397 * 2 ^ 1019); Finito (-5404319552844595 * 2 ^ 1020);
             Finito (2 ^ 1073)] in
  exists r, maximaGanancia_doble (ArrayDoble xs) = Ok (Some r) /\ con_cota r /\
            Forall (fun x => mayor_o_igual r x) xs.
Proof. apply maximaGanancia_doble_cota; [done | repeat constructor]. Defined.

(** A tenth, two tenths and minus three tenths, each the double nearest to
    it, in units; their magnitudes sum to less than one: the result is
    within [2 / 2^52] of the exact one. *)
Lemma maximaGanancia_doble_precision_testigo :
  let xs := [Finito (3602879701896397 * 2 ^ 1019); Finito (3602879701896397 * 2 ^ 1020);
             Finito (-5404319552844595 * 2 ^ 1020)] in
  exists r, maximaGanancia_doble (ArrayDoble xs) = Ok (Some r) /\ finito r /\
            Z.abs (unidades r - 10808639105689191 * 2 ^ 1019) * 2 ^ 52
              <= (Z.of_nat (length xs) - 1) * ESCALA.
Proof.
  apply maximaGanancia_doble_precision;
    [repeat constructor | apply kadane_Some; by vm_compute | by vm_compute..].
Defined.

(** A half, minus a quarter and three quarters, in quarters: the result
    is one, exactly. *)
Lemma maximaGanancia_doble_exacta_testigo :
  exists r, maximaGanancia_doble
              (ArrayDoble [Finito (2 * 2 ^ 1072); Finito (-1 * 2 ^ 1072);
                           Finito (3 * 2 ^ 1072)]) = Ok (Some r) /\
            finito r /\ unidades r = 4 * 2 ^ 1072.
Proof.
  apply (maximaGanancia_doble_exacta _ _ 1072);
    [lia | repeat constructor
    | repeat (apply Forall_cons_2; [apply Z.divide_factor_r|]); apply Forall_nil_2
    | by vm_compute | by vm_compute | apply kadane_Some; by vm_compute].
Defined.

Lemma maximaGanancia_doble_nan_testigo :
  maximaGanancia_doble (ArrayDoble [de_entero 3; NoNum; de_entero 5]) = Ok (Some NoNum).
Proof. apply maximaGanancia_doble_nan. apply list_elem_of_further, list_elem_of_here. Defined.

Lemma maximaGanancia_doble_valido_testigo :
  numero_valido (de_entero 8).
Proof.
  apply (maximaGanancia_doble_valido [de_entero 3; de_entero (-2); de_entero 7]);
    [|by vm_compute].
  repeat first [apply Forall_cons_2 | apply Forall_nil_2];
    (split; [apply de_entero_es_doble; lia | by vm_compute]).
Defined.

End TestigosDoble.
