(* ===== verification/SumasRedondeadas.v ===== *)
(** * SumasRedondeadas: [calcular] returns the largest rounded sum

    On numbers with fractions the sums of the loop are rounded, and the
    result is no longer the largest exact sum of a segment
    ([CalculoDoble.maximaGanancia_doble_precision] bounds the distance).
    It is still the largest sum of a segment in the arithmetic of the
    numbers: the sum of the elements of the segment from left to right,
    each addition rounded, which is what the loop accumulates from the
    element where it restarts.

    - [suma_doble]: the rounded sum of a list, from left to right;
    - [es_mejor_final_doble], [es_ganancia_maxima_doble]: the largest
      rounded sum of a segment that ends at the last element, and of any
      segment;
    - [maximo_leido]: the invariant of the loop.

    The proof is that of the integers: it needs of [+] only that it is
    monotone in its left operand, which rounding to nearest keeps
    ([sumar_monotona]), and of [Math.max] that it returns the larger of
    its arguments in the order of the numbers. *)

From stdpp Require Import base list numbers.
From Stdlib Require Import ZArith Lia.
From S2P Require Import Prelude Redondeo JsNumero Dobles Segmentos MaximaGanancia CalculoDoble.

Local Open Scope Z_scope.

(** ** Vocabulary *)

(** The elements of [s] added from left to right, the first to the second,
    the sum to the third and so on; [None] on the empty list. *)
Definition suma_doble (s : list numero) : option numero :=
  match s with
  | [] => None
  | x :: s' => Some (foldl sumar x s')
  end.

(** [m] is the largest rounded sum of a segment of [l] that ends at its
    last element. *)
Definition es_mejor_final_doble (l : list numero) (m : numero) : Prop :=
  (exists s, final s l /\ suma_doble s = Some m) /\
  (forall s t, final s l -> suma_doble s = Some t -> mayor_o_igual m t).

(** [m] is the largest rounded sum of a segment of [l]. *)
Definition es_ganancia_maxima_doble (l : list numero) (m : numero) : Prop :=
  (exists s, segmento s l /\ suma_doble s = Some m) /\
  (forall s t, segmento s l -> suma_doble s = Some t -> mayor_o_igual m t).

(** After reading the first [i] elements, [gananciaMaximaLocal] is the
    largest rounded sum of a segment that ends at element [i - 1] and
    [gananciaMaximaGlobal] the largest rounded sum of a segment of the
    elements read; neither is [NaN]. *)
Record maximo_leido (xs : list numero) (s : estado_doble) : Prop := {
  ml_rango : (1 <= indice s <= length xs)%nat;
  ml_local : exists l,
    local s = Some l /\ es_nan l = false /\
    es_mejor_final_doble (take (indice s) xs) l;
  ml_global : exists g,
    global s = Some g /\ es_nan g = false /\
    es_ganancia_maxima_doble (take (indice s) xs) g
}.

(** ** The order of the numbers and the rounded sum *)

Section Monotonia.
Implicit Types (x y z r : numero) (d u v w : Z).

Lemma menor_MenosInf r : menor r MenosInf = false.
Proof. by destruct r. Qed.

Lemma menor_MasInf r : menor MasInf r = false.
Proof. by destruct r. Qed.

(** Rounding keeps the sign. *)
Lemma redondear_signo d :
  (d < 0 -> redondear d < 0) /\ (0 <= d -> 0 <= redondear d).
Proof.
  pose proof (redondear_monotona d (-1)). pose proof (redondear_monotona 0 d).
  rewrite (redondear_seguro (-1)), redondear_0 in * by (by vm_compute). lia.
Qed.

(** The order of two finite numbers is that of their units. *)
Lemma mayor_o_igual_unidades x y :
  finito x -> finito y -> mayor_o_igual y x -> unidades x <= unidades y.
Proof.
  unfold mayor_o_igual. destruct x as [u| | | |], y as [v| | | |]; try done;
    intros _ _ H; apply negb_prop_elim in H; cbn [menor unidades] in *;
    rewrite Is_true_true in H; revert H; caso_bool; (done || lia).
Qed.

(** The number of a rounded magnitude grows with it. *)
Lemma con_signo_monotona d1 d2 :
  d1 <= d2 ->
  mayor_o_igual (con_signo (d2 <? 0) (Z.abs d2)) (con_signo (d1 <? 0) (Z.abs d1)).
Proof.
  intros Hd. unfold mayor_o_igual, con_signo, cero, infinito.
  assert (0 < TECHO) as HT by done. generalize dependent TECHO. intros T HT.
  apply negb_prop_intro. rewrite Is_true_true.
  caso_bool; cbn [menor]; try done; rewrite ?Z.ltb_lt, ?Z.leb_le; lia.
Qed.

(** What a rounded magnitude that is not negative gives is not below the
    negative zero, and what a negative one gives is below it. *)
Lemma con_signo_no_negativo d :
  0 <= d -> mayor_o_igual (con_signo (d <? 0) (Z.abs d)) MenosCero.
Proof.
  intros Hd. unfold mayor_o_igual, con_signo, cero, infinito.
  apply negb_prop_intro. rewrite Is_true_true.
  caso_bool; cbn [menor]; try done; rewrite ?Z.ltb_lt; lia.
Qed.

Lemma con_signo_negativo d :
  d < 0 -> mayor_o_igual MenosCero (con_signo (d <? 0) (Z.abs d)).
Proof.
  intros Hd. unfold mayor_o_igual, con_signo, cero, infinito.
  apply negb_prop_intro. rewrite Is_true_true.
  caso_bool; cbn [menor]; try done; rewrite ?Z.leb_le; lia.
Qed.

(** The sum of two finite numbers, but for two negative zeros. *)
Lemma sumar_finitos x z :
  finito x -> finito z -> (x, z) <> (MenosCero, MenosCero) ->
  sumar x z = let d := redondear (unidades x + unidades z) in
              con_signo (d <? 0) (Z.abs d).
Proof. by destruct x as [u| | | |], z as [w| | | |]. Qed.

(** [+] is monotone in its left operand: rounding to nearest keeps the
    order, the overflow to an infinity and the sign of a zero included. *)
Lemma sumar_monotona x y z :
  es_nan x = false -> es_nan y = false -> finito z ->
  mayor_o_igual y x -> mayor_o_igual (sumar y z) (sumar x z).
Proof.
  intros Hx Hy Hz Hxy.
  destruct (decide (finito x /\ finito y)) as [[Hfx Hfy]|Hinf].
  - pose proof (mayor_o_igual_unidades x y Hfx Hfy Hxy) as Hu.
    destruct (decide (z = MenosCero)) as [->|Hz0].
    + destruct x as [u| | | |], y as [v| | | |]; try done; cbn [unidades] in Hu.
      * rewrite (sumar_finitos (Finito u)), (sumar_finitos (Finito v))
          by (done || by intros [=]).
        apply con_signo_monotona, redondear_monotona. cbn [unidades]. lia.
      * rewrite (sumar_finitos (Finito u)) by (done || by intros [=]).
        cbn [sumar unidades]. apply con_signo_negativo, redondear_signo. unfold mayor_o_igual in Hxy.
        apply negb_prop_elim in Hxy. cbn [menor] in Hxy.
        rewrite Is_true_true, Z.leb_le in Hxy. lia.
      * rewrite (sumar_finitos (Finito v)) by (done || by intros [=]).
        cbn [sumar unidades]. apply con_signo_no_negativo, redondear_signo. lia.
    + rewrite (sumar_finitos x), (sumar_finitos y) by (done || by intros [= _ ?]).
      apply con_signo_monotona, redondear_monotona. lia.
  - unfold mayor_o_igual in *. destruct z as [w| | | |]; try done;
      destruct x as [u| | | |], y as [v| | | |]; try done; try naive_solver;
      cbn [sumar]; by rewrite ?menor_MenosInf, ?menor_MasInf.
Qed.

(** The sum of a number and a finite one is a number. *)
Lemma sumar_finito_no_nan x z : es_nan x = false -> finito z -> es_nan (sumar x z) = false.
Proof.
  destruct x as [u| | | |], z as [w| | | |]; try done; intros _ _;
    unfold sumar, con_signo, cero, infinito; cbv beta iota zeta; by repeat case_match.
Qed.

End Monotonia.

(** ** Rounded sums *)

Section Sumas.
Implicit Types (s l p : list numero) (x t m g : numero).

Lemma suma_doble_singleton x : suma_doble [x] = Some x.
Proof. done. Qed.

Lemma suma_doble_snoc s x t :
  suma_doble s = Some t -> suma_doble (s ++ [x]) = Some (sumar t x).
Proof. destruct s as [|y s]; [done|]. intros [= <-]. simpl. by rewrite foldl_snoc. Qed.

Lemma suma_doble_Some s : s <> [] -> exists t, suma_doble s = Some t.
Proof. destruct s; [done | eauto]. Qed.

(** A rounded sum of finite numbers is a number. *)
Lemma suma_doble_no_nan s t :
  Forall finito s -> suma_doble s = Some t -> es_nan t = false.
Proof.
  revert t. induction s as [|x s IH] using rev_ind; intros t Hs Ht; [done|].
  apply Forall_app in Hs as [Hs Hx%Forall_inv].
  destruct s as [|y s]; [simpl in Ht; injection Ht as <-; by destruct x|].
  destruct (suma_doble_Some (y :: s)) as [t' Ht']; [done|].
  rewrite (suma_doble_snoc _ _ _ Ht') in Ht. injection Ht as <-.
  apply sumar_finito_no_nan; [by apply IH | done].
Qed.

Lemma es_mejor_final_doble_singleton x :
  es_nan x = false -> es_mejor_final_doble [x] x.
Proof.
  intros Hx. split.
  - exists [x]. split; [by apply final_refl | done].
  - intros s t ->%final_segmento%segmento_singleton [= <-]. apply mayor_o_igual_refl.
Qed.

Lemma es_ganancia_maxima_doble_singleton x :
  es_nan x = false -> es_ganancia_maxima_doble [x] x.
Proof.
  intros Hx. split.
  - exists [x]. split; [by apply segmento_refl | done].
  - intros s t ->%segmento_singleton [= <-]. apply mayor_o_igual_refl.
Qed.

End Sumas.

(** ** One element more *)

Section UnoMas.
Context (p : list numero) (x : numero).
Context (Hp : Forall finito p) (Hx : finito x).
Implicit Types (s : list numero) (t l g : numero).

(** The recurrence of [gananciaMaximaLocal]. *)
Lemma es_mejor_final_doble_snoc l l' :
  es_nan l = false -> es_mejor_final_doble p l ->
  Math_max_doble (Some x) (Some (sumar l x)) = Some l' ->
  es_nan l' = false /\ es_mejor_final_doble (p ++ [x]) l'.
Proof.
  intros Hl [(s & Hs & Hsl) Hmax] Hl'.
  assert (es_nan x = false) as Hnx by (by destruct x).
  pose proof (sumar_finito_no_nan l x Hl Hx) as Hnlx.
  destruct (Math_max_doble_spec x (sumar l x) Hnx Hnlx) as (r & Hr & Hcaso & Hrx & Hrl).
  rewrite Hr in Hl'. injection Hl' as <-.
  split; [by destruct Hcaso as [-> | ->]|]. split.
  - destruct Hcaso as [-> | ->].
    + exists [x]. split; [|done]. apply final_snoc. exists []. split; [done|].
      apply suffix_nil.
    + exists (s ++ [x]). split; [|by apply suma_doble_snoc].
      apply final_snoc. exists s. split; [done | apply Hs].
  - intros s' t (s0 & -> & Hsuf)%final_snoc Ht. destruct s0 as [|y s0].
    + by injection Ht as <-.
    + destruct (suma_doble_Some (y :: s0)) as [t0 Ht0]; [done|].
      rewrite (suma_doble_snoc _ _ _ Ht0) in Ht. injection Ht as <-.
      apply (mayor_o_igual_trans _ (sumar l x)); [done | done|].
      apply sumar_monotona; [|done | done | by apply (Hmax (y :: s0))].
      apply (suma_doble_no_nan (y :: s0)); [|done].
      destruct Hsuf as [k ->]. by apply Forall_app in Hp as [_ ?].
Qed.

(** The recurrence of [gananciaMaximaGlobal]. *)
Lemma es_ganancia_maxima_doble_snoc g l' g' :
  es_nan g = false -> es_nan l' = false ->
  es_ganancia_maxima_doble p g -> es_mejor_final_doble (p ++ [x]) l' ->
  Math_max_doble (Some g) (Some l') = Some g' ->
  es_nan g' = false /\ es_ganancia_maxima_doble (p ++ [x]) g'.
Proof.
  intros Hg Hl' [(s & Hs & Hsg) Hmax] [(s' & Hs' & Hsl) Hmax'] Hg'.
  destruct (Math_max_doble_spec g l' Hg Hl') as (r & Hr & Hcaso & Hrg & Hrl).
  rewrite Hr in Hg'. injection Hg' as <-.
  split; [by destruct Hcaso as [-> | ->]|]. split.
  - destruct Hcaso as [-> | ->].
    + exists s. split; [by apply segmento_app_l | done].
    + exists s'. split; [by apply final_segmento | done].
  - intros s0 t [Hs0|Hs0]%segmento_snoc Ht.
    + apply (mayor_o_igual_trans _ g); [done | done | by apply (Hmax s0)].
    + apply (mayor_o_igual_trans _ l'); [done | done | by apply (Hmax' s0)].
Qed.

End UnoMas.

(** ** The invariant *)

Section Invariante.
Context (xs : list numero) (Hxs : Forall finito xs).
Implicit Types (s : estado_doble).

Lemma estado_inicial_maximo_leido : xs <> [] -> maximo_leido xs (estado_inicial_doble xs).
Proof.
  destruct xs as [|x xs'] eqn:E; [done|]. intros _.
  pose proof (Forall_inv Hxs) as Hx.
  assert (es_nan x = false) by (by destruct x). split; cbn.
  - lia.
  - exists x. split_and!; [done | done | by apply es_mejor_final_doble_singleton].
  - exists x. split_and!; [done | done | by apply es_ganancia_maxima_doble_singleton].
Qed.

Lemma cuerpo_maximo_leido s :
  maximo_leido xs s -> (indice s < length xs)%nat -> maximo_leido xs (cuerpo_doble xs s).
Proof.
  intros [Hr (l & Hl & Hnl & Hlocal) (g & Hg & Hng & Hglobal)] Hlt.
  destruct (lookup_lt_is_Some_2 xs (indice s) Hlt) as [x Hx].
  pose proof (Forall_lookup_1 _ _ _ _ Hxs Hx) as Hfx.
  assert (Forall finito (take (indice s) xs)) as Hp by (by apply Forall_take).
  unfold cuerpo_doble, leer_doble, mas_doble. rewrite Hx, Hl, Hg, !ToNumber_doble_Some.
  destruct (Math_max_doble (Some x) (Some (sumar l x))) as [l'|] eqn:El'; [|done].
  destruct (es_mejor_final_doble_snoc _ x Hp Hfx l l' Hnl Hlocal El') as [Hnl' Hlocal'].
  destruct (Math_max_doble (Some g) (Some l')) as [g'|] eqn:Eg'; [|done].
  destruct (es_ganancia_maxima_doble_snoc _ x g l' g' Hng Hnl' Hglobal Hlocal' Eg')
    as [Hng' Hglobal'].
  split; cbn [indice local global]; rewrite ?(take_S_r _ _ _ Hx); [lia | eauto..].
Qed.

Lemma bucle_doble_maximo_leido :
  xs <> [] ->
  exists g, global (bucle_doble (length xs) xs (estado_inicial_doble xs)) = Some g /\
            es_nan g = false /\ es_ganancia_maxima_doble xs g.
Proof.
  intros Hne.
  destruct (bucle_doble_conserva (maximo_leido xs) (length xs) xs (estado_inicial_doble xs))
    as [_ _ (g & Hg & Hn & Hmax)];
    [intros s; by apply cuerpo_maximo_leido | by apply estado_inicial_maximo_leido|].
  rewrite bucle_doble_final, firstn_all in Hmax by done. eauto.
Qed.

End Invariante.

(** ** Properties *)

Section PropiedadesSumas.

(** C6: on a non-empty array of finite numbers, of any magnitude, the call
    returns the largest rounded sum of a segment: the sum, from left to
    right and with every addition rounded, of some segment of the array,
    and at least that of every segment.  It is a number, finite or
    [Infinity]. *)
Theorem maximaGanancia_doble_maxima xs :
  xs <> [] -> Forall finito xs ->
  exists r, maximaGanancia_doble (ArrayDoble xs) = Ok (Some r) /\
            es_nan r = false /\ es_ganancia_maxima_doble xs r.
Proof.
  intros Hne Hxs. unfold maximaGanancia_doble. rewrite calcular_doble_Array by done.
  destruct (bucle_doble_maximo_leido xs Hxs Hne) as (g & -> & Hg & Hmax). eauto.
Qed.

(** On integers of any magnitude, beyond the safe range included, the
    model of [MaximaGanancia] returns the largest rounded sum of a
    segment. *)
Corollary maximaGanancia_maxima_redondeada (xs : list Z) :
  xs <> [] ->
  exists v r, maximaGanancia (Array xs) = Ok v /\ a_doble v = Some r /\
              es_ganancia_maxima_doble (map de_entero xs) r.
Proof.
  intros Hne. unfold maximaGanancia. cbn [calcular CalculadorGananciaMaxima_calculator].
  rewrite calcular_maxima_Array by done.
  destruct (bucle_doble_maximo_leido (map de_entero xs)) as (g & Hg & _ & Hmax);
    [by apply Forall_fmap, Forall_true | by destruct xs|].
  rewrite length_map, estado_inicial_a_estado, bucle_a_estado in Hg.
  by eexists _, g.
Qed.

(** The rounded sum depends on the order of the additions: the largest
    rounded sum of [0.1, 0.2, 0.3] is not that of [0.3, 0.2, 0.1]. *)
Example maximaGanancia_doble_orden :
  maximaGanancia_doble
    (ArrayDoble [Finito (3602879701896397 * 2 ^ 1019); Finito (3602879701896397 * 2 ^ 1020);
                 Finito (5404319552844595 * 2 ^ 1020)]) <>
  maximaGanancia_doble
    (ArrayDoble [Finito (5404319552844595 * 2 ^ 1020); Finito (3602879701896397 * 2 ^ 1020);
                 Finito (3602879701896397 * 2 ^ 1019)]).
Proof. by vm_compute. Qed.

End PropiedadesSumas.

(** ** Witnesses *)

Section TestigosSumas.

Lemma maximaGanancia_doble_maxima_testigo :
  let xs := [Finito (3602879701896397 * 2 ^ 1019); Finito (-5404319552844595 * 2 ^ 1020);
             Finito (2 ^ 1073)] in
  exists r, maximaGanancia_doble (ArrayDoble xs) = Ok (Some r) /\
            es_nan r = false /\ es_ganancia_maxima_doble xs r.
Proof. apply maximaGanancia_doble_maxima; [done | repeat constructor]. Defined.

End TestigosSumas.
