(* ===== verification/Banco.v ===== *)
(** * Banco: the model of [src/maximaGanancia.bench.ts]

    The benchmark driver [BenchmarkRunner] calls [maximaGanancia] on random
    and on fixed arrays and prints timings.  Its effects are a trace of
    events: the numbers [Math.random] and [performance.now] returned, the
    calls of [maximaGanancia] with their outcome, and the lines written to
    the console.  What [Math.random] and the clock return comes from an
    [entorno], of which the theorems assume nothing but the range of
    [Math.random] and, for the timings, that the clock does not run
    backwards.

    A console line is recorded by its template and by the values it
    interpolates ([linea]); the timings are the doubles of [Dobles] that
    lines 37 to 39 compute from the two readings of the clock, and [texto]
    gives the characters of each line, with [toLocaleString], which depends
    on the locale of the runtime, as a parameter. *)

From stdpp Require Import base list numbers strings pretty.
From Stdlib Require Import ZArith Lia.
From S2P Require Import Prelude Redondeo JsNumero Dobles Segmentos MaximaGanancia.

Local Open Scope Z_scope.

(** ** The world the driver runs in *)

(** What the runtime will answer: [azar n] is the numerator [k] of the
    [n]-th result [k / 2^53] of [Math.random()], [reloj n] the [n]-th
    reading of [performance.now()], in milliseconds, as a number of units
    of [2^-1074]. *)
Record entorno : Type := {
  azar : nat -> Z;
  reloj : nat -> Z
}.

(** A line of the console: which template, and the values put in it. *)
Inductive linea : Type :=
| LTexto (texto : string)
| LNombre (nombre : string)
| LTamano (n : nat)
| LIteraciones (n : nat)
| LTiempoTotal (tiempoTotal : numero)
| LTiempoPromedio (tiempoPromedio : numero)
| LOperaciones (operacionesPorSegundo : numero)
| LResultado (v : valor).

Inductive evento : Type :=
| ERandom (k : Z)
| ENow (t : numero)
| ELlamada (parcelas : list Z) (r : js valor)
| ELog (l : linea).

#[export] Instance linea_eq_dec : EqDecision linea.
Proof. solve_decision. Defined.

#[export] Instance evento_eq_dec : EqDecision evento.
Proof. solve_decision. Defined.

(** How many answers of each oracle were consumed, and what happened. *)
Record mundo : Type := {
  azar_pos : nat;
  reloj_pos : nat;
  traza : list evento
}.

Definition mundo_inicial : mundo :=
  {| azar_pos := 0; reloj_pos := 0; traza := [] |}.

(** Code with effects on the world that may throw: the world survives the
    throw. *)
Definition efecto (A : Type) : Type := mundo -> js A * mundo.

#[export] Instance efecto_ret : MRet efecto := fun _ a w => (Ok a, w).

#[export] Instance efecto_bind : MBind efecto :=
  fun _ _ f m w =>
    match m w with
    | (Ok a, w') => f a w'
    | (Lanza e, w') => (Lanza e, w')
    end.

Definition anotar (ev : evento) (w : mundo) : mundo :=
  {| azar_pos := azar_pos w; reloj_pos := reloj_pos w;
     traza := traza w ++ [ev] |}.

(** [n] times [m], as [for (let i = 0; i < n; i++) m]; a throw leaves the
    loop. *)
Fixpoint repetir (n : nat) (m : efecto unit) : efecto unit :=
  match n with
  | O => mret tt
  | S n' => m ;; repetir n' m
  end.

(** The calls of [maximaGanancia] in a trace. *)
Definition llamadas (t : list evento) : list (list Z) :=
  omap (fun ev => match ev with ELlamada xs _ => Some xs | _ => None end) t.

(** The lines of the console in a trace. *)
Definition consola (t : list evento) : list linea :=
  omap (fun ev => match ev with ELog l => Some l | _ => None end) t.

(** [Array.from({ length: n }, (_, i) => f(i))] for a pure [f]. *)
Definition Array_from (n : nat) (f : nat -> Z) : list Z := map f (seq 0 n).

(** [[...parcelas]]: a fresh array with the same elements. *)
Definition copia (parcelas : list Z) : list Z := parcelas.

(** ** [class BenchmarkRunner] *)

Record BenchmarkRunner : Type := {
  iteraciones : nat
}.

Definition new_BenchmarkRunner : BenchmarkRunner := {| iteraciones := 10000 |}.

(** [Math.floor(Math.random() * (max - min + 1)) + min] when [Math.random()]
    returned [k / 2^53]: every operation rounds as doubles do.  The product
    of the doubles [k / 2^53] and [n] is the rounding of [k * n], scaled.
    The arguments are finite integers far from [Number.MAX_VALUE] (the
    driver passes at most 10000 in magnitude), so that no operation
    overflows. *)
Definition entero_aleatorio (min max k : Z) : Z :=
  let n := redondear (redondear (max - min) + 1) in
  redondear (redondear (k * n) / 2 ^ 53 + min).

(** Lines 37 to 39 of [ejecutarBenchmark], as functions of the two readings
    of the clock. *)
Definition tiempo_total (inicio fin : numero) : numero := menos fin inicio.

Definition tiempo_promedio (inicio fin : numero) (iteraciones : nat) : numero :=
  entre (tiempo_total inicio fin) (de_entero (Z.of_nat iteraciones)).

Definition operaciones_por_segundo (inicio fin : numero) (iteraciones : nat) : numero :=
  Math_floor (entre (de_entero 1000) (tiempo_promedio inicio fin iteraciones)).

(** The characters of a console line: the template literals of lines 41 to
    47, and the plain strings.  [toLocaleString] is the formatting of the
    locale the runtime runs in. *)
Definition texto (toLocaleString : numero -> string) (l : linea) : string :=
  match l with
  | LTexto s => s
  | LNombre nombre => salto +:+ "📊 " +:+ nombre
  | LTamano n => "   Tamaño del array: " +:+ String_de (Num (Z.of_nat n))
  | LIteraciones n => "   Iteraciones: " +:+ toLocaleString (de_entero (Z.of_nat n))
  | LTiempoTotal t => "   Tiempo total: " +:+ toFixed t 2 +:+ " ms"
  | LTiempoPromedio t => "   Tiempo promedio: " +:+ toFixed t 4 +:+ " ms"
  | LOperaciones o => "   Operaciones/seg: " +:+ toLocaleString o
  | LResultado v => "   Resultado: " +:+ String_de v
  end.

Section ConEntorno.
Context (e : entorno).

(** [Math.random()]. *)
Definition Math_random : efecto Z :=
  fun w =>
    let k := azar e (azar_pos w) in
    (Ok k, {| azar_pos := S (azar_pos w); reloj_pos := reloj_pos w;
              traza := traza w ++ [ERandom k] |}).

(** [performance.now()]. *)
Definition performance_now : efecto numero :=
  fun w =>
    let t := Finito (reloj e (reloj_pos w)) in
    (Ok t, {| azar_pos := azar_pos w; reloj_pos := S (reloj_pos w);
              traza := traza w ++ [ENow t] |}).

(** [console.log(l)]. *)
Definition console_log (l : linea) : efecto unit :=
  fun w => (Ok tt, anotar (ELog l) w).

(** [maximaGanancia(parcelas)], called from the driver. *)
Definition llamar (parcelas : list Z) : efecto valor :=
  fun w =>
    let r := maximaGanancia (Array parcelas) in
    (r, anotar (ELlamada parcelas r) w).

(** [private generarArrayAleatorio(size, min, max)]. *)
Fixpoint generarArrayAleatorio (this : BenchmarkRunner) (size : nat)
    (min max : Z) : efecto (list Z) :=
  match size with
  | O => mret []
  | S size' =>
      k ← Math_random;
      resto ← generarArrayAleatorio this size' min max;
      mret (entero_aleatorio min max k :: resto)
  end.

(** [private ejecutarBenchmark(nombre, parcelas, iteraciones = this.iteraciones)]. *)
Definition ejecutarBenchmark (this : BenchmarkRunner) (nombre : string)
    (parcelas : list Z) (iteraciones_arg : option nat) : efecto unit :=
  let iteraciones := default (iteraciones this) iteraciones_arg in
  repetir 100 (llamar (copia parcelas) ;; mret tt) ;;
  inicio ← performance_now;
  repetir iteraciones (llamar (copia parcelas) ;; mret tt) ;;
  fin ← performance_now;
  let tiempoTotal := menos fin inicio in
  let tiempoPromedio := entre tiempoTotal (de_entero (Z.of_nat iteraciones)) in
  let operacionesPorSegundo :=
    Math_floor (entre (de_entero 1000) tiempoPromedio) in
  console_log (LNombre nombre) ;;
  console_log (LTamano (length parcelas)) ;;
  console_log (LIteraciones iteraciones) ;;
  console_log (LTiempoTotal tiempoTotal) ;;
  console_log (LTiempoPromedio tiempoPromedio) ;;
  console_log (LOperaciones operacionesPorSegundo) ;;
  v ← llamar parcelas;
  console_log (LResultado v).

Definition raya : linea := LTexto (String_repeat "=" 60).
Definition raya_con_salto : linea :=
  LTexto (String.append salto (String_repeat "=" 60)).

(** The random cases of [ejecutar]: name, size, range and iterations. *)
Definition caso_aleatorio (this : BenchmarkRunner) (nombre : string)
    (size : nat) (min max : Z) (iteraciones_arg : option nat) : efecto unit :=
  parcelas ← generarArrayAleatorio this size min max;
  ejecutarBenchmark this nombre parcelas iteraciones_arg.

(** The four parts of [ejecutar], in the order of the source. *)

(** Cases 1 to 5: random arrays of growing size. *)
Definition casos_aleatorios (this : BenchmarkRunner) : efecto unit :=
  caso_aleatorio this "Array pequeño (10 elementos)" 10 (-50) 50 None ;;
  caso_aleatorio this "Array mediano (100 elementos)" 100 (-100) 100 None ;;
  caso_aleatorio this "Array grande (1,000 elementos)" 1000 (-500) 500 None ;;
  caso_aleatorio this "Array muy grande (10,000 elementos)"
    10000 (-1000) 1000 (Some 1000%nat) ;;
  caso_aleatorio this "Array extremo (100,000 elementos)"
    100000 (-10000) 10000 (Some 100%nat).

(** The arrays of the problem statement. *)
Definition casos_enunciado (this : BenchmarkRunner) : efecto unit :=
  console_log raya_con_salto ;;
  console_log (LTexto "🎃 CASOS ESPECÍFICOS DEL ENUNCIADO") ;;
  console_log raya ;;
  ejecutarBenchmark this "Caso del huerto maldito"
    [2; -5; 8; -2; 4; -10; 3; 1] None ;;
  ejecutarBenchmark this "Caso con todos positivos" [1; 2; 3; 4] None ;;
  ejecutarBenchmark this "Caso con todos negativos" [-1; -2; -3; -4] None ;;
  ejecutarBenchmark this "Caso con zona maldita" [8; 1; -100; 2; 5] None.

Definition todos_positivos : list Z :=
  Array_from 1000 (fun i => Z.of_nat i + 1).
Definition todos_negativos : list Z :=
  Array_from 1000 (fun i => - (Z.of_nat i + 1)).
Definition patron_alternado : list Z :=
  Array_from 1000 (fun i => if (i mod 2 =? 0)%nat then 10 else -5).

(** The three arrays of a thousand elements. *)
Definition casos_extremos (this : BenchmarkRunner) : efecto unit :=
  console_log raya_con_salto ;;
  console_log (LTexto "⚠️  CASOS EXTREMOS") ;;
  console_log raya ;;
  ejecutarBenchmark this "Best case: Todos positivos (1,000 elementos)"
    todos_positivos None ;;
  ejecutarBenchmark this "Worst case: Todos negativos (1,000 elementos)"
    todos_negativos None ;;
  ejecutarBenchmark this "Patrón alternado (1,000 elementos)"
    patron_alternado None.

(** The closing lines. *)
Definition analisis : efecto unit :=
  console_log raya_con_salto ;;
  console_log (LTexto "📈 ANÁLISIS DE COMPLEJIDAD") ;;
  console_log raya ;;
  console_log (LTexto "✅ Complejidad temporal: O(n) - Lineal") ;;
  console_log (LTexto "✅ Complejidad espacial: O(1) - Constante") ;;
  console_log (LTexto "✅ Una sola pasada por el array") ;;
  console_log (LTexto "✅ Sin recursión ni estructuras auxiliares") ;;
  console_log raya.

(** [public ejecutar()]. *)
Definition ejecutar (this : BenchmarkRunner) : efecto unit :=
  console_log (LTexto "🎯 BENCHMARKS - Algoritmo de Kadane (Máxima Ganancia)") ;;
  console_log raya ;;
  casos_aleatorios this ;;
  casos_enunciado this ;;
  casos_extremos this ;;
  analisis.

(** [const runner = new BenchmarkRunner(); runner.ejecutar();] *)
Definition principal : efecto unit := ejecutar new_BenchmarkRunner.

End ConEntorno.

(** ** Vocabulary of the specifications *)

(** [m] run in [w] returns normally, with a value and a world that satisfy
    [Q]. *)
Definition termina {A} (m : efecto A) (w : mundo) (Q : A -> mundo -> Prop) : Prop :=
  exists a w', m w = (Ok a, w') /\ Q a w'.

(** The world [w] after the events [evs] and [r] more clock readings. *)
Definition avanzar (w : mundo) (r : nat) (evs : list evento) : mundo :=
  {| azar_pos := azar_pos w; reloj_pos := reloj_pos w + r;
     traza := traza w ++ evs |}.

(** The results printed in a trace. *)
Definition resultados (t : list evento) : list valor :=
  omap (fun ev => match ev with ELog (LResultado v) => Some v | _ => None end) t.

(** The events of one benchmark of [xs] that returns [v], between the clock
    readings [t0] and [t1]. *)
Definition eventos_benchmark (nombre : string) (xs : list Z) (its : nat)
    (v : valor) (t0 t1 : numero) : list evento :=
  replicate 100 (ELlamada xs (Ok v)) ++ [ENow t0] ++
  replicate its (ELlamada xs (Ok v)) ++ [ENow t1] ++
  [ELog (LNombre nombre); ELog (LTamano (length xs)); ELog (LIteraciones its);
   ELog (LTiempoTotal (tiempo_total t0 t1));
   ELog (LTiempoPromedio (tiempo_promedio t0 t1 its));
   ELog (LOperaciones (operaciones_por_segundo t0 t1 its));
   ELlamada xs (Ok v); ELog (LResultado v)].

(** The two readings of a benchmark that starts at the [k]-th answer of the
    clock. *)
Definition lectura (e : entorno) (k : nat) : numero := Finito (reloj e k).

(** The numerators [Math.random] yields from position [desde] on. *)
Definition numeros_azar (e : entorno) (desde n : nat) : list Z :=
  map (azar e) (seq desde n).

(** [m] always returns normally, and the value [a] it returns and the
    events [evs] it adds to the trace satisfy [P]. *)
Definition extiende {A} (m : efecto A) (P : A -> list evento -> Prop) : Prop :=
  forall w, termina m w (fun a w' =>
    exists evs, traza w' = traza w ++ evs /\ P a evs).

(** [m] always returns normally, after [lineas] more console lines and
    [llamadas_] more calls of [maximaGanancia]. *)
Definition incrementa (m : efecto unit) (lineas llamadas_ : Z) : Prop :=
  extiende m (fun _ evs =>
    Z.of_nat (length (consola evs)) = lineas /\
    Z.of_nat (length (llamadas evs)) = llamadas_).

(** [m] always returns normally and prints the results [rs], in order. *)
Definition imprime (m : efecto unit) (rs : list valor) : Prop :=
  extiende m (fun _ evs => resultados evs = rs).

(** The runtime keeps the promise of [Math.random]: a double of [0, 1),
    that is a numerator between 0 and 2^53 - 1. *)
Definition azar_valido (e : entorno) : Prop :=
  forall n, 0 <= azar e n < 2 ^ 53.

(** The arrays on which [maximaGanancia] returns the exact maximum. *)
Definition en_dominio (xs : list Z) : Prop := xs <> [] /\ acotada xs.

(** An event other than a call, or a call on an array of the domain that
    returned the largest sum of a segment of the array. *)
Definition llamada_correcta (ev : evento) : Prop :=
  match ev with
  | ELlamada xs r =>
      en_dominio xs /\ exists m, r = Ok (Num m) /\ es_ganancia_maxima xs m
  | _ => True
  end.

(** [m] always returns normally, and every event it adds satisfies [Q]. *)
Definition siempre (Q : evento -> Prop) (m : efecto unit) : Prop :=
  extiende m (fun _ evs => Forall Q evs).

(** [m] always returns normally, calls [maximaGanancia] only on arrays of
    its domain, and every call returns the largest segment sum. *)
Definition segura (m : efecto unit) : Prop := siempre llamada_correcta m.

(** ** Example data *)

(** A concrete runtime: a linear congruential sequence and a clock that
    advances half a millisecond per reading, up to half a second. *)
Definition entorno_ejemplo : entorno :=
  {| azar := fun n => (Z.of_nat n * 6364136223846793005 + 1442695040888963407) mod 2 ^ 53;
     reloj := fun n => Z.min (Z.of_nat n) 1000 * 2 ^ 1073 |}.

(** ** Reasoning about effects *)

Section Efectos.
Context {A B : Type}.
Implicit Types (m : efecto A) (f : A -> efecto B) (w : mundo).

Lemma bind_efecto_Ok m f w a w' :
  m w = (Ok a, w') -> (m ≫= f) w = f a w'.
Proof. intros H. unfold mbind, efecto_bind. by rewrite H. Qed.

Lemma bind_efecto_Lanza m f w err w' :
  m w = (Lanza err, w') -> (m ≫= f) w = (Lanza err, w').
Proof. intros H. unfold mbind, efecto_bind. by rewrite H. Qed.

Lemma termina_ret (a : A) w (Q : A -> mundo -> Prop) : Q a w -> termina (mret a) w Q.
Proof. intros H. by exists a, w. Qed.

Lemma termina_bind m f w (Q : B -> mundo -> Prop) :
  termina m w (fun a w' => termina (f a) w' Q) -> termina (m ≫= f) w Q.
Proof.
  intros (a & w' & Hm & b & w'' & Hf & HQ). exists b, w''.
  split; [|done]. by rewrite (bind_efecto_Ok _ _ _ _ _ Hm).
Qed.

Lemma termina_mono m w (P Q : A -> mundo -> Prop) :
  (forall a w', P a w' -> Q a w') -> termina m w P -> termina m w Q.
Proof. intros HPQ (a & w' & Hm & HP). exists a, w'. auto. Qed.

Lemma termina_eq m w a w' (Q : A -> mundo -> Prop) :
  m w = (Ok a, w') -> Q a w' -> termina m w Q.
Proof. intros Hm HQ. by exists a, w'. Qed.

End Efectos.

Section Mundo.
Implicit Types (w : mundo) (evs : list evento).

Lemma avanzar_nil w : avanzar w 0 [] = w.
Proof. destruct w. unfold avanzar. simpl. by rewrite Nat.add_0_r, app_nil_r. Qed.

Lemma avanzar_avanzar w r1 r2 evs1 evs2 :
  avanzar (avanzar w r1 evs1) r2 evs2 = avanzar w (r1 + r2) (evs1 ++ evs2).
Proof. unfold avanzar. simpl. by rewrite Nat.add_assoc, app_assoc. Qed.

Lemma anotar_avanzar ev w : anotar ev w = avanzar w 0 [ev].
Proof. unfold anotar, avanzar. by rewrite Nat.add_0_r. Qed.

Lemma traza_avanzar w r evs : traza (avanzar w r evs) = traza w ++ evs.
Proof. reflexivity. Qed.

Lemma llamadas_app evs1 evs2 : llamadas (evs1 ++ evs2) = llamadas evs1 ++ llamadas evs2.
Proof. apply omap_app. Qed.

Lemma consola_app evs1 evs2 : consola (evs1 ++ evs2) = consola evs1 ++ consola evs2.
Proof. apply omap_app. Qed.

Lemma resultados_app evs1 evs2 : resultados (evs1 ++ evs2) = resultados evs1 ++ resultados evs2.
Proof. apply omap_app. Qed.

Lemma llamadas_replicate n xs r :
  llamadas (replicate n (ELlamada xs r)) = replicate n xs.
Proof. induction n as [|n IH]; [done|]. simpl. by rewrite <- IH. Qed.

Lemma consola_replicate n xs r : consola (replicate n (ELlamada xs r)) = [].
Proof. by induction n. Qed.

Lemma resultados_replicate n xs r : resultados (replicate n (ELlamada xs r)) = [].
Proof. by induction n. Qed.

Lemma llamadas_benchmark nombre xs its v t0 t1 :
  llamadas (eventos_benchmark nombre xs its v t0 t1) = replicate (100 + its + 1) xs.
Proof.
  unfold eventos_benchmark. rewrite !llamadas_app, !llamadas_replicate.
  rewrite !replicate_add, <- app_assoc. reflexivity.
Qed.

Lemma consola_benchmark nombre xs its v t0 t1 :
  consola (eventos_benchmark nombre xs its v t0 t1) =
  [LNombre nombre; LTamano (length xs); LIteraciones its;
   LTiempoTotal (tiempo_total t0 t1); LTiempoPromedio (tiempo_promedio t0 t1 its);
   LOperaciones (operaciones_por_segundo t0 t1 its); LResultado v].
Proof.
  unfold eventos_benchmark. by rewrite !consola_app, !consola_replicate.
Qed.

Lemma resultados_benchmark nombre xs its v t0 t1 :
  resultados (eventos_benchmark nombre xs its v t0 t1) = [v].
Proof.
  unfold eventos_benchmark. by rewrite !resultados_app, !resultados_replicate.
Qed.

Lemma Array_from_no_vacio n f : (0 < n)%nat -> Array_from n f <> [].
Proof. destruct n; [lia|]. done. Qed.

Lemma length_numeros_azar e desde n : length (numeros_azar e desde n) = n.
Proof. unfold numeros_azar. by rewrite length_map, length_seq. Qed.

Lemma aleatorios_no_vacio e desde n (f : Z -> Z) :
  (0 < n)%nat -> map f (numeros_azar e desde n) <> [].
Proof.
  intros Hn H%(f_equal length).
  rewrite length_map, length_numeros_azar in H. simpl in H. lia.
Qed.

Lemma length_Array_from n f : length (Array_from n f) = n.
Proof. unfold Array_from. by rewrite length_map, length_seq. Qed.

End Mundo.

#[export] Hint Rewrite avanzar_avanzar traza_avanzar llamadas_app consola_app
  resultados_app llamadas_replicate consola_replicate resultados_replicate
  llamadas_benchmark consola_benchmark resultados_benchmark
  @length_app @length_replicate : huerto_rw.

(** ** Random integers *)

Section Aleatorio.

(** The integer part of [Math.random() * n] is one of [0 .. n - 1], although
    the product is rounded: the rounding cannot reach [n]. *)
Lemma producto_redondeado_cota k n :
  0 <= k < 2 ^ 53 -> 0 < n -> 0 <= redondear (k * n) / 2 ^ 53 < n.
Proof.
  intros Hk Hn.
  pose proof (redondear_nonneg (k * n) ltac:(nia)) as H0.
  pose proof (redondear_cota_sup (k * n) ltac:(nia)) as H1.
  set (P := redondear (k * n)) in *.
  split; [apply Z.div_pos; lia|]. apply Z.div_lt_upper_bound; [lia|].
  assert (k * n <= (2 ^ 53 - 1) * n) as H2 by (apply Z.mul_le_mono_nonneg_r; lia).
  lia.
Qed.

(** [Math.floor(Math.random() * (max - min + 1)) + min] lies in
    [min .. max]. *)
Lemma entero_aleatorio_rango min max k :
  0 <= k < 2 ^ 53 -> - 2 ^ 52 <= min -> min <= max -> max < 2 ^ 52 ->
  min <= entero_aleatorio min max k <= max.
Proof.
  intros Hk Hmin Hle Hmax. unfold entero_aleatorio.
  rewrite (redondear_seguro (max - min)) by lia.
  rewrite (redondear_exacto (max - min + 1)) by lia.
  pose proof (producto_redondeado_cota k (max - min + 1) Hk ltac:(lia)).
  rewrite redondear_seguro by lia. lia.
Qed.

End Aleatorio.

(** ** The operations of the driver *)

Section Operaciones.
Context (e : entorno).
Implicit Types (w : mundo) (xs : list Z) (v : valor) (this : BenchmarkRunner).

Lemma console_log_eq l w : console_log l w = (Ok tt, avanzar w 0 [ELog l]).
Proof. unfold console_log. by rewrite anotar_avanzar. Qed.

Lemma performance_now_eq w :
  performance_now e w =
  (Ok (lectura e (reloj_pos w)), avanzar w 1 [ENow (lectura e (reloj_pos w))]).
Proof. unfold performance_now, avanzar. by rewrite Nat.add_1_r. Qed.

Lemma llamar_eq xs w :
  llamar xs w = (maximaGanancia (Array xs),
                 avanzar w 0 [ELlamada xs (maximaGanancia (Array xs))]).
Proof. unfold llamar. by rewrite anotar_avanzar. Qed.

Lemma llamar_descartar xs w :
  (llamar xs ;; mret tt) w =
  (maximaGanancia (Array xs) ;; Ok tt,
   avanzar w 0 [ELlamada xs (maximaGanancia (Array xs))]).
Proof.
  unfold mbind at 1, efecto_bind. rewrite llamar_eq.
  by destruct (maximaGanancia (Array xs)).
Qed.

Lemma repetir_llamar_Ok n xs v w :
  maximaGanancia (Array xs) = Ok v ->
  repetir n (llamar xs ;; mret tt) w =
  (Ok tt, avanzar w 0 (replicate n (ELlamada xs (Ok v)))).
Proof.
  intros Hv. revert w. induction n as [|n IH]; intros w.
  - simpl. by rewrite avanzar_nil.
  - cbn [repetir].
    rewrite (bind_efecto_Ok _ _ w tt (avanzar w 0 [ELlamada xs (Ok v)])).
    + by rewrite IH, avanzar_avanzar.
    + by rewrite llamar_descartar, Hv.
Qed.

Lemma repetir_llamar_Lanza n xs err w :
  maximaGanancia (Array xs) = Lanza err ->
  repetir (S n) (llamar xs ;; mret tt) w =
  (Lanza err, avanzar w 0 [ELlamada xs (Lanza err)]).
Proof.
  intros Herr. cbn [repetir]. apply bind_efecto_Lanza.
  by rewrite llamar_descartar, Herr.
Qed.

Lemma ejecutarBenchmark_Ok this nombre xs its v w :
  maximaGanancia (Array xs) = Ok v ->
  ejecutarBenchmark e this nombre xs its w =
  (Ok tt,
   avanzar w 2
     (eventos_benchmark nombre xs (default (iteraciones this) its) v
        (lectura e (reloj_pos w)) (lectura e (S (reloj_pos w))))).
Proof.
  intros Hv. unfold ejecutarBenchmark, copia.
  erewrite bind_efecto_Ok by by apply repetir_llamar_Ok.
  erewrite bind_efecto_Ok by apply performance_now_eq.
  erewrite bind_efecto_Ok by by apply repetir_llamar_Ok.
  erewrite bind_efecto_Ok by apply performance_now_eq.
  do 6 (erewrite bind_efecto_Ok by apply console_log_eq).
  erewrite bind_efecto_Ok by (rewrite llamar_eq, Hv; reflexivity).
  rewrite console_log_eq. rewrite !avanzar_avanzar. simpl reloj_pos.
  rewrite ?Nat.add_0_r, ?Nat.add_1_r.
  unfold eventos_benchmark, operaciones_por_segundo, tiempo_promedio, tiempo_total.
  reflexivity.
Qed.

Lemma generarArrayAleatorio_eq this size min max w :
  generarArrayAleatorio e this size min max w =
  (Ok (map (entero_aleatorio min max) (numeros_azar e (azar_pos w) size)),
   {| azar_pos := azar_pos w + size; reloj_pos := reloj_pos w;
      traza := traza w ++ map ERandom (numeros_azar e (azar_pos w) size) |}).
Proof.
  revert w. induction size as [|size IH]; intros w.
  - destruct w. simpl. by rewrite Nat.add_0_r, app_nil_r.
  - cbn [generarArrayAleatorio]. erewrite bind_efecto_Ok by reflexivity.
    erewrite bind_efecto_Ok by apply IH. unfold numeros_azar. simpl.
    by rewrite <- app_assoc, Nat.add_succ_r.
Qed.

End Operaciones.

(** ** What a run adds to the trace *)

Section Extiende.
Context (e : entorno).
Implicit Types (w : mundo) (xs : list Z) (evs : list evento) (a b c d : Z).

Lemma extiende_bind {A B} (m : efecto A) (f : A -> efecto B)
    (P : A -> list evento -> Prop) (R : B -> list evento -> Prop) :
  extiende m P ->
  (forall x evs1, P x evs1 -> extiende (f x) (fun y evs2 => R y (evs1 ++ evs2))) ->
  extiende (m ≫= f) R.
Proof.
  intros Hm Hf w. apply termina_bind.
  eapply termina_mono; [|apply Hm]. intros x w1 (evs1 & Ht1 & HP). simpl.
  eapply termina_mono; [|by apply (Hf x evs1)].
  intros y w2 (evs2 & Ht2 & HR). simpl. exists (evs1 ++ evs2).
  split; [|done]. by rewrite Ht2, Ht1, app_assoc.
Qed.

Lemma extiende_mono {A} (m : efecto A) (P Q : A -> list evento -> Prop) :
  (forall x evs, P x evs -> Q x evs) -> extiende m P -> extiende m Q.
Proof.
  intros HPQ Hm w. eapply termina_mono; [|apply Hm].
  intros x w' (evs & Ht & HP). eauto.
Qed.

Lemma extiende_eq {A} (m : efecto A) (P : A -> list evento -> Prop) :
  (forall w, exists x r evs, m w = (Ok x, avanzar w r evs) /\ P x evs) ->
  extiende m P.
Proof.
  intros H w. destruct (H w) as (x & r & evs & Hm & HP).
  eapply termina_eq; [exact Hm|]. by exists evs.
Qed.

Lemma extiende_console_log l :
  extiende (console_log l) (fun _ evs => evs = [ELog l]).
Proof. apply extiende_eq. intros w. eexists _, _, _. split; [apply console_log_eq | done]. Qed.

Lemma extiende_ejecutarBenchmark this nombre xs its v :
  maximaGanancia (Array xs) = Ok v ->
  extiende (ejecutarBenchmark e this nombre xs its)
    (fun _ evs => exists k,
       evs = eventos_benchmark nombre xs (default (iteraciones this) its) v
               (lectura e k) (lectura e (S k))).
Proof.
  intros Hv. apply extiende_eq. intros w. eexists _, _, _.
  split; [by apply ejecutarBenchmark_Ok | eauto].
Qed.

Lemma extiende_generarArrayAleatorio this size min max :
  extiende (generarArrayAleatorio e this size min max)
    (fun xs evs => exists desde,
       xs = map (entero_aleatorio min max) (numeros_azar e desde size) /\
       evs = map ERandom (numeros_azar e desde size)).
Proof.
  intros w. eapply termina_eq; [apply generarArrayAleatorio_eq|]. simpl.
  eexists. split; [done|]. by exists (azar_pos w).
Qed.

Lemma consola_random ks : consola (map ERandom ks) = [].
Proof. by induction ks. Qed.

Lemma llamadas_random ks : llamadas (map ERandom ks) = [].
Proof. by induction ks. Qed.

Lemma resultados_random ks : resultados (map ERandom ks) = [].
Proof. by induction ks. Qed.

Lemma incrementa_console_log l : incrementa (console_log l) 1 0.
Proof.
  eapply extiende_mono; [|apply extiende_console_log]. by intros _ evs ->.
Qed.

Lemma incrementa_seq (m1 m2 : efecto unit) a b c d a' b' :
  incrementa m1 a b -> incrementa m2 c d -> a + c = a' -> b + d = b' ->
  incrementa (m1 ;; m2) a' b'.
Proof.
  intros H1 H2 <- <-. eapply extiende_bind; [exact H1|].
  intros _ evs1 [<- <-]. eapply extiende_mono; [|exact H2].
  intros _ evs2 [<- <-]. rewrite consola_app, llamadas_app, !length_app. lia.
Qed.

Lemma incrementa_ejecutarBenchmark this nombre xs its :
  xs <> [] ->
  incrementa (ejecutarBenchmark e this nombre xs its) 7
    (101 + Z.of_nat (default (iteraciones this) its)).
Proof.
  intros [v Hv]%maximaGanancia_Ok.
  eapply extiende_mono; [|by apply extiende_ejecutarBenchmark].
  intros _ evs (k & ->).
  rewrite consola_benchmark, llamadas_benchmark, length_replicate. simpl. lia.
Qed.

Lemma incrementa_caso_aleatorio this nombre size min max its :
  (0 < size)%nat ->
  incrementa (caso_aleatorio e this nombre size min max its) 7
    (101 + Z.of_nat (default (iteraciones this) its)).
Proof.
  intros Hsize. eapply extiende_bind; [apply extiende_generarArrayAleatorio|].
  intros xs evs1 (desde & -> & ->).
  eapply extiende_mono; [|apply incrementa_ejecutarBenchmark].
  - intros _ evs2 [<- <-].
    rewrite consola_app, llamadas_app, consola_random, llamadas_random. done.
  - by apply aleatorios_no_vacio.
Qed.

Lemma imprime_console_log texto : imprime (console_log (LTexto texto)) [].
Proof.
  eapply extiende_mono; [|apply extiende_console_log]. by intros _ evs ->.
Qed.

Lemma imprime_seq (m1 m2 : efecto unit) rs1 rs2 rs :
  imprime m1 rs1 -> imprime m2 rs2 -> rs1 ++ rs2 = rs -> imprime (m1 ;; m2) rs.
Proof.
  intros H1 H2 <-. eapply extiende_bind; [exact H1|].
  intros _ evs1 <-. eapply extiende_mono; [|exact H2].
  intros _ evs2 <-. by rewrite resultados_app.
Qed.

Lemma imprime_ejecutarBenchmark this nombre xs its v :
  maximaGanancia (Array xs) = Ok v ->
  imprime (ejecutarBenchmark e this nombre xs its) [v].
Proof.
  intros Hv. eapply extiende_mono; [|by apply extiende_ejecutarBenchmark].
  intros _ evs (k & ->). apply resultados_benchmark.
Qed.

(** *** Calls within the domain of the calculator *)

Lemma aleatorios_en_rango min max desde n :
  azar_valido e -> - 2 ^ 52 <= min -> min <= max -> max < 2 ^ 52 ->
  Forall (fun x => min <= x <= max)
    (map (entero_aleatorio min max) (numeros_azar e desde n)).
Proof.
  intros He Hmin Hle Hmax. apply Forall_map, Forall_map, Forall_forall.
  intros i _. simpl. by apply entero_aleatorio_rango.
Qed.


Lemma rango_acotada min max xs :
  Forall (fun x => min <= x <= max) xs ->
  Z.of_nat (length xs) * Z.max (Z.abs min) (Z.abs max) <= MAX_SAFE_INTEGER ->
  acotada xs.
Proof.
  intros Hxs Hcota. unfold acotada. etrans; [|exact Hcota].
  apply suma_abs_Forall. eapply Forall_impl; [exact Hxs|]. simpl. lia.
Qed.

Lemma aleatorios_en_dominio min max desde n :
  azar_valido e -> (0 < n)%nat ->
  - 2 ^ 52 <= min -> min <= max -> max < 2 ^ 52 ->
  Z.of_nat n * Z.max (Z.abs min) (Z.abs max) <= MAX_SAFE_INTEGER ->
  en_dominio (map (entero_aleatorio min max) (numeros_azar e desde n)).
Proof.
  intros He Hn Hmin Hle Hmax Hcota. split; [by apply aleatorios_no_vacio|].
  apply (rango_acotada min max); [by apply aleatorios_en_rango|].
  by rewrite length_map, length_numeros_azar.
Qed.

Lemma eventos_benchmark_correctos nombre xs its m t0 t1 :
  en_dominio xs -> es_ganancia_maxima xs m ->
  Forall llamada_correcta (eventos_benchmark nombre xs its (Num m) t0 t1).
Proof.
  intros Hxs Hm. assert (llamada_correcta (ELlamada xs (Ok (Num m)))) by (simpl; eauto).
  unfold eventos_benchmark.
  repeat first [apply Forall_app_2 | apply Forall_replicate | apply Forall_cons_2
               | apply Forall_nil_2 | done].
Qed.

(** *** What every event of a run satisfies *)

Section Siempre.
Context (Q : evento -> Prop).
Implicit Types (m : efecto unit).

Lemma siempre_seq m1 m2 : siempre Q m1 -> siempre Q m2 -> siempre Q (m1 ;; m2).
Proof.
  intros H1 H2. eapply extiende_bind; [exact H1|].
  intros [] evs1 Hevs1. eapply extiende_mono; [|exact H2].
  intros [] evs2 Hevs2. by apply Forall_app.
Qed.

Lemma siempre_console_log l : Q (ELog l) -> siempre Q (console_log l).
Proof.
  intros Hl. eapply extiende_mono; [|apply extiende_console_log].
  intros _ evs ->. by apply Forall_singleton.
Qed.

Lemma siempre_ejecutarBenchmark this nombre xs its :
  xs <> [] ->
  (forall v k, maximaGanancia (Array xs) = Ok v ->
     Forall Q (eventos_benchmark nombre xs (default (iteraciones this) its) v
                 (lectura e k) (lectura e (S k)))) ->
  siempre Q (ejecutarBenchmark e this nombre xs its).
Proof.
  intros [v Hv]%maximaGanancia_Ok HQ.
  eapply extiende_mono; [|by apply extiende_ejecutarBenchmark].
  intros _ evs (k & ->). by apply HQ.
Qed.

Lemma siempre_caso_aleatorio this nombre size min max its :
  (0 < size)%nat -> (forall k, Q (ERandom k)) ->
  (forall desde v k,
     let xs := map (entero_aleatorio min max) (numeros_azar e desde size) in
     maximaGanancia (Array xs) = Ok v ->
     Forall Q (eventos_benchmark nombre xs (default (iteraciones this) its) v
                 (lectura e k) (lectura e (S k)))) ->
  siempre Q (caso_aleatorio e this nombre size min max its).
Proof.
  intros Hsize Hrandom HQ.
  eapply extiende_bind; [apply extiende_generarArrayAleatorio|].
  intros xs evs1 (desde & -> & ->).
  eapply extiende_mono;
    [|apply siempre_ejecutarBenchmark; [by apply aleatorios_no_vacio | apply HQ]].
  intros [] evs2 Hevs2. apply Forall_app. split; [|done].
  by apply Forall_map, Forall_forall.
Qed.

End Siempre.

Lemma segura_console_log l : segura (console_log l).
Proof. by apply siempre_console_log. Qed.

Lemma segura_seq (m1 m2 : efecto unit) :
  segura m1 -> segura m2 -> segura (m1 ;; m2).
Proof. apply siempre_seq. Qed.

Lemma benchmark_en_dominio nombre xs its v t0 t1 :
  en_dominio xs -> maximaGanancia (Array xs) = Ok v ->
  Forall llamada_correcta (eventos_benchmark nombre xs its v t0 t1).
Proof.
  intros Hxs Hv. destruct (maximaGanancia_Array xs) as (m & Hm & Hmax); [apply Hxs..|].
  rewrite Hm in Hv. injection Hv as <-. by apply eventos_benchmark_correctos.
Qed.

Lemma segura_ejecutarBenchmark this nombre xs its :
  en_dominio xs -> segura (ejecutarBenchmark e this nombre xs its).
Proof.
  intros Hxs. apply siempre_ejecutarBenchmark; [apply Hxs|].
  intros v k. by apply benchmark_en_dominio.
Qed.

Lemma segura_caso_aleatorio this nombre size min max its :
  azar_valido e -> (0 < size)%nat ->
  - 2 ^ 52 <= min -> min <= max -> max < 2 ^ 52 ->
  Z.of_nat size * Z.max (Z.abs min) (Z.abs max) <= MAX_SAFE_INTEGER ->
  segura (caso_aleatorio e this nombre size min max its).
Proof.
  intros He Hsize Hmin Hle Hmax Hcota. apply siempre_caso_aleatorio; [done..|].
  intros desde v k xs. by apply benchmark_en_dominio, aleatorios_en_dominio.
Qed.

End Extiende.

(** [contar]: the lines and calls of a sequence of console lines and
    benchmarks, part by part. *)
Ltac positivo := apply Nat.ltb_lt; vm_compute; reflexivity.

Ltac contar :=
  lazymatch goal with
  | |- incrementa (mbind _ _) _ _ => eapply incrementa_seq; [contar | contar | ..]
  | |- incrementa (console_log _) _ _ => apply incrementa_console_log
  | |- incrementa (ejecutarBenchmark _ _ _ _ _) _ _ =>
      apply incrementa_ejecutarBenchmark;
      first [done | apply Array_from_no_vacio; positivo]
  | |- incrementa (caso_aleatorio _ _ _ _ _ _ _) _ _ =>
      apply incrementa_caso_aleatorio; positivo
  end.

(** [imprimir]: the results a sequence of console lines and benchmarks
    prints; each result is computed. *)
Ltac imprimir :=
  lazymatch goal with
  | |- imprime (mbind _ _) _ => eapply imprime_seq; [imprimir | imprimir | ..]
  | |- imprime (console_log _) _ => apply imprime_console_log
  | |- imprime (ejecutarBenchmark _ _ _ _ _) _ =>
      apply imprime_ejecutarBenchmark; vm_compute; reflexivity
  end.

(** [asegurar]: every call of a sequence of console lines and benchmarks is
    on an array of the domain and returns its maximum; that the fixed
    arrays are in the domain is checked by computation. *)
Ltac asegurar :=
  lazymatch goal with
  | |- segura (mbind _ _) => apply segura_seq; [asegurar | asegurar]
  | |- segura (console_log _) => apply segura_console_log
  | |- segura (ejecutarBenchmark _ _ _ _ _) =>
      apply segura_ejecutarBenchmark; split; [done | vm_compute; done]
  | |- segura (caso_aleatorio _ _ _ _ _ _ _) =>
      apply segura_caso_aleatorio; [assumption | positivo | vm_compute; done ..]
  end.

(** ** Properties of the driver *)

Section PropiedadesBanco.
Context (e : entorno).
Implicit Types (w : mundo) (xs : list Z) (this : BenchmarkRunner).

(** C31: a benchmark of a non-empty array returns normally and adds to the
    trace exactly: 100 warm-up calls, a clock reading, [iteraciones] measured
    calls, a clock reading, six console lines, one more call and the line of
    its result; every call receives the elements of [parcelas]. *)
Theorem ejecutarBenchmark_traza this nombre xs its w :
  xs <> [] ->
  exists v, maximaGanancia (Array xs) = Ok v /\
    ejecutarBenchmark e this nombre xs its w =
    (Ok tt,
     avanzar w 2
       (eventos_benchmark nombre xs (default (iteraciones this) its) v
          (lectura e (reloj_pos w)) (lectura e (S (reloj_pos w))))).
Proof.
  intros [v Hv]%maximaGanancia_Ok. exists v. split; [done|].
  by apply ejecutarBenchmark_Ok.
Qed.

(** C32: a benchmark of the empty array throws the validation error at the
    first warm-up call: the driver has no handler, reads no clock and prints
    nothing. *)
Theorem ejecutarBenchmark_vacio this nombre its w :
  ejecutarBenchmark e this nombre [] its w =
  (Lanza (new_Error mensaje_vacio),
   avanzar w 0 [ELlamada [] (Lanza (new_Error mensaje_vacio))]).
Proof.
  unfold ejecutarBenchmark, copia. apply bind_efecto_Lanza.
  apply repetir_llamar_Lanza, maximaGanancia_vacio.
Qed.

(** [generarArrayAleatorio] returns an array of [size] elements, made
    from the next [size] results of [Math.random] in order, and touches
    neither the clock nor the console. *)
Theorem generarArrayAleatorio_longitud this size min max w :
  termina (generarArrayAleatorio e this size min max) w (fun xs w' =>
    length xs = size /\
    xs = map (entero_aleatorio min max) (numeros_azar e (azar_pos w) size) /\
    azar_pos w' = (azar_pos w + size)%nat /\ reloj_pos w' = reloj_pos w /\
    consola (traza w') = consola (traza w)).
Proof.
  eapply termina_eq; [apply generarArrayAleatorio_eq|]. simpl.
  unfold numeros_azar. rewrite !length_map, length_seq.
  by rewrite consola_app, consola_random, app_nil_r.
Qed.

(** C29: whatever [Math.random] and the clock return, the whole benchmark
    run returns normally: no array it builds is empty.  It prints 100 lines
    and calls [maximaGanancia] 102312 times. *)
Theorem principal_termina : incrementa (principal e) 100 102312.
Proof. unfold principal, ejecutar, casos_aleatorios, casos_enunciado,
  casos_extremos, analisis, todos_positivos, todos_negativos, patron_alternado.
  contar; reflexivity.
Qed.

(** The results printed for the four arrays of the problem statement
    are 10, 10, -1 and 9. *)
Theorem casos_enunciado_resultados this :
  imprime (casos_enunciado e this) [Num 10; Num 10; Num (-1); Num 9].
Proof. unfold casos_enunciado, raya, raya_con_salto. imprimir; reflexivity. Qed.

(** The results printed for the arrays of a thousand elements are
    500500 (the sum of 1 to 1000), -1 and 2505. *)
Theorem casos_extremos_resultados this :
  imprime (casos_extremos e this) [Num 500500; Num (-1); Num 2505].
Proof. unfold casos_extremos, raya, raya_con_salto. imprimir; reflexivity. Qed.

(** C33: when the runtime keeps the promise of [Math.random], every element
    of the array [generarArrayAleatorio] returns lies between [min] and
    [max], both included, although each step of the formula rounds. *)
Theorem generarArrayAleatorio_rango this size min max w :
  azar_valido e -> - 2 ^ 52 <= min -> min <= max -> max < 2 ^ 52 ->
  termina (generarArrayAleatorio e this size min max) w (fun xs _ =>
    length xs = size /\ Forall (fun x => min <= x <= max) xs).
Proof.
  intros He Hmin Hle Hmax.
  eapply termina_eq; [apply generarArrayAleatorio_eq|]. simpl.
  rewrite length_map, length_numeros_azar.
  split; [done | by apply aleatorios_en_rango].
Qed.

(** C28: when the runtime keeps the promise of [Math.random], every call of
    [maximaGanancia] in the whole benchmark run is on a non-empty array
    whose magnitudes add up to at most [Number.MAX_SAFE_INTEGER], and
    returns the largest sum of a segment of that array: the run never
    leaves the domain on which the calculator is exact. *)
Theorem principal_segura : azar_valido e -> segura (principal e).
Proof.
  intros He. unfold principal, ejecutar, casos_aleatorios, casos_enunciado,
    casos_extremos, analisis.
  asegurar.
Qed.

(** C34: a random case returns normally; all its calls receive the same
    array of [size] elements of [min .. max], and the result it prints is
    the largest sum of a segment of that array. *)
Theorem caso_aleatorio_correcto this nombre size min max its :
  azar_valido e -> (0 < size)%nat ->
  - 2 ^ 52 <= min -> min <= max -> max < 2 ^ 52 ->
  Z.of_nat size * Z.max (Z.abs min) (Z.abs max) <= MAX_SAFE_INTEGER ->
  extiende (caso_aleatorio e this nombre size min max its) (fun _ evs =>
    exists xs m,
      length xs = size /\ Forall (fun x => min <= x <= max) xs /\
      es_ganancia_maxima xs m /\
      llamadas evs = replicate (100 + default (iteraciones this) its + 1) xs /\
      resultados evs = [Num m]).
Proof.
  intros He Hsize Hmin Hle Hmax Hcota.
  eapply extiende_bind; [apply extiende_generarArrayAleatorio|].
  intros xs evs1 (desde & -> & ->).
  set (xs := map _ _).
  destruct (aleatorios_en_dominio e min max desde size) as [Hne Hac]; [done..|].
  destruct (maximaGanancia_Array xs Hne Hac) as (m & Hm & Hmax').
  eapply extiende_mono; [|by apply extiende_ejecutarBenchmark].
  intros [] evs2 (k & ->). exists xs, m.
  rewrite llamadas_app, resultados_app, llamadas_random, resultados_random.
  rewrite llamadas_benchmark, resultados_benchmark. subst xs.
  rewrite length_map, length_numeros_azar.
  split_and!; [done | by apply aleatorios_en_rango | done..].
Qed.

(** Reading back an array built by [Array.from]: the element at an index
    below the length is what the callback returned for that index, and any
    other read is [undefined]. *)
Theorem leer_Array_from n f k :
  leer (Array_from n f) k = if (k <? n)%nat then Num (f k) else Undefined.
Proof.
  unfold leer, Array_from. rewrite list_lookup_fmap.
  destruct (Nat.ltb_spec k n).
  - by rewrite lookup_seq_lt.
  - by rewrite lookup_seq_ge.
Qed.

End PropiedadesBanco.

(** ** Witnesses *)

Section TestigosBanco.

Lemma ejecutarBenchmark_traza_testigo :
  exists v, maximaGanancia (Array [5; -3; 5]) = Ok v /\
    ejecutarBenchmark entorno_ejemplo new_BenchmarkRunner "clase" [5; -3; 5]
      (Some 10%nat) mundo_inicial =
    (Ok tt,
     avanzar mundo_inicial 2
       (eventos_benchmark "clase" [5; -3; 5]
          (default (iteraciones new_BenchmarkRunner) (Some 10%nat)) v
          (lectura entorno_ejemplo (reloj_pos mundo_inicial))
          (lectura entorno_ejemplo (S (reloj_pos mundo_inicial))))).
Proof. apply ejecutarBenchmark_traza. done. Defined.

Lemma entorno_ejemplo_valido : azar_valido entorno_ejemplo.
Proof. intros n. simpl. apply Z.mod_pos_bound. lia. Qed.

Lemma generarArrayAleatorio_rango_testigo :
  termina (generarArrayAleatorio entorno_ejemplo new_BenchmarkRunner 10 (-50) 50)
    mundo_inicial
    (fun xs _ => length xs = 10%nat /\ Forall (fun x => -50 <= x <= 50) xs).
Proof.
  apply generarArrayAleatorio_rango;
    [apply entorno_ejemplo_valido | lia | lia | lia].
Defined.

Lemma principal_segura_testigo : segura (principal entorno_ejemplo).
Proof. apply principal_segura, entorno_ejemplo_valido. Defined.

Lemma caso_aleatorio_correcto_testigo :
  extiende
    (caso_aleatorio entorno_ejemplo new_BenchmarkRunner "pequeño" 10 (-50) 50 None)
    (fun _ evs =>
       exists xs m,
         length xs = 10%nat /\ Forall (fun x => -50 <= x <= 50) xs /\
         es_ganancia_maxima xs m /\
         llamadas evs =
           replicate (100 + default (iteraciones new_BenchmarkRunner) None + 1) xs /\
         resultados evs = [Num m]).
Proof.
  apply caso_aleatorio_correcto;
    [apply entorno_ejemplo_valido | lia | lia | lia | lia | vm_compute; done].
Defined.

End TestigosBanco.
