(* ===== verification/BancoTiempos.v ===== *)
(** * BancoTiempos: the measurements of the driver and the text it prints

    [Banco.ejecutarBenchmark] reads the clock twice and computes, on
    doubles, the time of the measured loop, the time of one iteration and
    the iterations per second (lines 37 to 39 of
    [src/maximaGanancia.bench.ts]); it prints them with [toFixed] and
    [toLocaleString] (lines 41 to 47).  This file says what those numbers
    are when the clock does not run backwards, what is printed when the
    clock did not advance between its two readings, that every time a
    whole run prints is printed as plain digits, and that the integer
    arithmetic of
    [Banco.entero_aleatorio] is the arithmetic on doubles of line 15. *)

From stdpp Require Import base list numbers strings pretty.
From Stdlib Require Import ZArith Lia.
From S2P Require Import Prelude Redondeo JsNumero Dobles Segmentos MaximaGanancia Banco.

Local Open Scope Z_scope.

(** ** Vocabulary *)

(** The runtime keeps the promise of [performance.now]: a reading is a
    double that is not negative, not before the previous reading, and below
    [10^21] milliseconds. *)
Definition reloj_valido (e : entorno) : Prop :=
  forall n, es_doble (reloj e n) /\ 0 <= reloj e n <= reloj e (S n) /\
            reloj e n < 10 ^ 21 * ESCALA.

(** What the console shows after the events [t], line by line. *)
Definition pantalla (toLocaleString : numero -> string) (t : list evento) :
    list string :=
  map (texto toLocaleString) (consola t).

(** An event other than the line of a time, or the line of a time that
    [toFixed] prints as digits with decimals: finite, not negative and
    below [10^21]. *)
Definition tiempo_imprimible (ev : evento) : Prop :=
  match ev with
  | ELog (LTiempoTotal x) | ELog (LTiempoPromedio x) => imprimible x
  | _ => True
  end.

(** [Math.floor(Math.random() * (max - min + 1)) + min] of line 15, as
    [Banco.entero_aleatorio], with the operators of [Dobles] on the double
    [k / 2^53], which is [k * 2^1021] units. *)
Definition entero_aleatorio_doble (min max k : Z) : numero :=
  let random := Finito (k * 2 ^ 1021) in
  sumar
    (Math_floor
       (por random (sumar (menos (de_entero max) (de_entero min)) (de_entero 1))))
    (de_entero min).

(** ** Example data *)

(** A runtime whose clock does not advance. *)
Definition entorno_parado : entorno :=
  {| azar := azar entorno_ejemplo; reloj := fun _ => 5 * 2 ^ 1074 |}.

(** A locale that prints whole numbers without separators. *)
Definition sin_agrupar (x : numero) : string := toFixed x 0.

(** ** The measurements *)

Section Medidas.
Context (t0 t1 : Z).
Context (Hdoble : es_doble t1) (Horden : 0 <= t0 <= t1) (Hcota : t1 < TECHO).

Lemma tiempo_total_Finito :
  tiempo_total (Finito t0) (Finito t1) = Finito (redondear (t1 - t0)) /\
  0 <= redondear (t1 - t0) <= t1.
Proof. by apply menos_Finito. Qed.

Lemma tiempo_promedio_Finito its :
  (0 < its)%nat ->
  exists q, tiempo_promedio (Finito t0) (Finito t1) its = Finito q /\
            0 <= q <= redondear (t1 - t0).
Proof.
  intros Hits. destruct tiempo_total_Finito as [Ht Hd]. unfold tiempo_promedio.
  rewrite Ht. eexists. apply entre_Finito; [lia | apply redondear_es_doble | lia..].
Qed.

Lemma operaciones_por_segundo_casos its :
  (0 < its)%nat ->
  operaciones_por_segundo (Finito t0) (Finito t1) its = MasInf \/
  exists n, 0 <= n /\ operaciones_por_segundo (Finito t0) (Finito t1) its = de_entero n.
Proof.
  intros Hits. destruct (tiempo_promedio_Finito its Hits) as (q & Hq & Hcotas).
  unfold operaciones_por_segundo. rewrite Hq. pose proof ESCALA_pos.
  change (de_entero 1000) with (Finito (1000 * ESCALA)).
  destruct (entre_no_negativo (1000 * ESCALA) q) as [?|[E|(r & Hr & E)]];
    [lia | lia | lia | ..]; rewrite E.
  - by left.
  - right. by apply Math_floor_no_negativo.
Qed.

End Medidas.

Section Parado.
Implicit Types (t : Z) (its : nat).

(** The clock did not advance: no time, and infinitely many iterations per
    second. *)
Lemma reloj_parado t its :
  (0 < its)%nat ->
  tiempo_total (Finito t) (Finito t) = Finito 0 /\
  tiempo_promedio (Finito t) (Finito t) its = Finito 0 /\
  operaciones_por_segundo (Finito t) (Finito t) its = MasInf.
Proof.
  intros Hits. assert (tiempo_total (Finito t) (Finito t) = Finito 0) as Ht.
  { unfold tiempo_total, menos. cbv beta iota zeta delta [unidades].
    by rewrite Z.sub_diag. }
  assert (tiempo_promedio (Finito t) (Finito t) its = Finito 0) as Hq.
  { unfold tiempo_promedio. rewrite Ht.
    destruct (entre_Finito 0 (Z.of_nat its)) as [-> Hr];
      [done | by apply es_doble_seguro | done | lia|].
    f_equal. lia. }
  split_and!; [done..|]. unfold operaciones_por_segundo. rewrite Hq.
  by rewrite entre_cero.
Qed.

End Parado.

(** ** The times a run prints *)

Section Texto.
Context (e : entorno) (Hreloj : reloj_valido e).
Implicit Types (xs : list Z) (this : BenchmarkRunner) (evs : list evento).

Lemma lecturas_validas k :
  es_doble (reloj e (S k)) /\ 0 <= reloj e k <= reloj e (S k) /\
  reloj e (S k) < 10 ^ 21 * ESCALA /\ reloj e (S k) < TECHO.
Proof.
  destruct (Hreloj k) as (_ & [? ?] & _), (Hreloj (S k)) as (? & _ & ?).
  split_and!; [done..|]. assert (10 ^ 21 * ESCALA < TECHO) by (by vm_compute). lia.
Qed.

(** Both times of a benchmark are finite, not negative and below [10^21]
    ms. *)
Lemma tiempos_imprimibles k its :
  (0 < its)%nat ->
  imprimible (tiempo_total (lectura e k) (lectura e (S k))) /\
  imprimible (tiempo_promedio (lectura e k) (lectura e (S k)) its).
Proof.
  intros Hits. destruct (lecturas_validas k) as (Hd & Ho & H21 & Hlt). unfold lectura.
  destruct (tiempo_total_Finito _ _ Hd Ho Hlt) as [-> Hcota].
  destruct (tiempo_promedio_Finito _ _ Hd Ho Hlt its Hits) as (q & -> & Hq).
  simpl. lia.
Qed.

Lemma eventos_benchmark_imprimibles nombre xs its v k :
  (0 < its)%nat ->
  Forall tiempo_imprimible
    (eventos_benchmark nombre xs its v (lectura e k) (lectura e (S k))).
Proof.
  intros Hits. destruct (tiempos_imprimibles k its Hits) as [Ht Hp].
  unfold eventos_benchmark.
  repeat first [apply Forall_app_2 | apply Forall_replicate | apply Forall_cons_2
               | apply Forall_nil_2 | exact I | assumption].
Qed.

Lemma imprimible_ejecutarBenchmark this nombre xs its :
  xs <> [] -> (0 < default (iteraciones this) its)%nat ->
  siempre tiempo_imprimible (ejecutarBenchmark e this nombre xs its).
Proof.
  intros Hxs Hits. apply siempre_ejecutarBenchmark; [done|].
  intros v k _. by apply eventos_benchmark_imprimibles.
Qed.

Lemma imprimible_caso_aleatorio this nombre size min max its :
  (0 < size)%nat -> (0 < default (iteraciones this) its)%nat ->
  siempre tiempo_imprimible (caso_aleatorio e this nombre size min max its).
Proof.
  intros Hsize Hits. apply siempre_caso_aleatorio; [done..|].
  intros desde v k xs _. by apply eventos_benchmark_imprimibles.
Qed.

End Texto.

(** [mostrar]: every time a sequence of console lines and benchmarks
    prints is printed as digits. *)
Ltac mostrar :=
  lazymatch goal with
  | |- siempre _ (mbind _ _) => apply siempre_seq; [mostrar | mostrar]
  | |- siempre _ (console_log _) => apply siempre_console_log; exact I
  | |- siempre _ (ejecutarBenchmark _ _ _ _ _) =>
      apply imprimible_ejecutarBenchmark;
      [assumption | first [done | apply Array_from_no_vacio; positivo] | positivo]
  | |- siempre _ (caso_aleatorio _ _ _ _ _ _ _) =>
      apply imprimible_caso_aleatorio; [assumption | positivo | positivo]
  end.

(** ** Random integers, on doubles *)

Section AleatorioDoble.
Implicit Types (min max k n : Z).

(** The product of [Math.random()] and a positive integer of at most 53
    bits: exact, then rounded. *)
Lemma por_random k n :
  0 <= k < 2 ^ 53 -> 0 < n <= 2 ^ 53 ->
  por (Finito (k * 2 ^ 1021)) (de_entero n) = Finito (redondear (k * n) * 2 ^ 1021) /\
  0 <= redondear (k * n) / 2 ^ 53 < n.
Proof.
  intros Hk Hn. pose proof ESCALA_pos as HE.
  pose proof (producto_redondeado_cota k n Hk ltac:(lia)) as Hq.
  split; [|done]. cbv beta iota zeta delta [por de_entero negativo es_infinito unidades].
  destruct (Z.ltb_spec (k * 2 ^ 1021) 0); [lia|]. destruct (Z.ltb_spec (n * ESCALA) 0); [lia|].
  cbn [xorb orb]. rewrite !Z.abs_eq by lia.
  replace (k * 2 ^ 1021 * (n * ESCALA)) with (k * n * 2 ^ 1021 * ESCALA) by ring.
  assert (0 <= k * n) as Hkn by lia.
  rewrite redondear_cociente_exacto, redondear_escala by lia.
  pose proof (redondear_nonneg (k * n) Hkn).
  assert (redondear (k * n) < n * 2 ^ 53 + 2 ^ 53).
  { pose proof (Z.div_mod (redondear (k * n)) (2 ^ 53) ltac:(lia)).
    pose proof (Z.mod_pos_bound (redondear (k * n)) (2 ^ 53) ltac:(lia)). lia. }
  apply con_signo_Finito. split; [lia|].
  apply Z.lt_le_trans with (2 ^ 107 * 2 ^ 1021); [|by vm_compute].
  apply Z.mul_lt_mono_pos_r; lia.
Qed.

Lemma Math_floor_random r :
  Math_floor (Finito (r * 2 ^ 1021)) = de_entero (r / 2 ^ 53).
Proof.
  unfold Math_floor, de_entero. do 2 f_equal.
  change ESCALA with (2 ^ 53 * 2 ^ 1021). by rewrite Z.div_mul_cancel_r.
Qed.

End AleatorioDoble.

(** ** Properties of the measurements and of the text *)

Section PropiedadesTiempos.
Context (e : entorno).
Implicit Types (w : mundo) (xs : list Z) (this : BenchmarkRunner).

(** C35: when the clock does not run backwards, the time of the measured
    loop is a double between zero and the second reading, the time of one
    iteration is a double between zero and the time of the loop, and the
    iterations per second are a whole number that is not negative, or
    [Infinity]: never [NaN], never negative. *)
Theorem medidas_benchmark k its :
  reloj_valido e -> (0 < its)%nat ->
  exists d q,
    tiempo_total (lectura e k) (lectura e (S k)) = Finito d /\
    tiempo_promedio (lectura e k) (lectura e (S k)) its = Finito q /\
    0 <= q <= d /\ d <= reloj e (S k) /\
    (operaciones_por_segundo (lectura e k) (lectura e (S k)) its = MasInf \/
     exists n, 0 <= n /\
       operaciones_por_segundo (lectura e k) (lectura e (S k)) its = de_entero n).
Proof.
  intros He Hits. destruct (lecturas_validas e He k) as (Hd & Ho & _ & Hlt).
  destruct (tiempo_total_Finito _ _ Hd Ho Hlt) as [Ht Hcota].
  destruct (tiempo_promedio_Finito _ _ Hd Ho Hlt its Hits) as (q & Hq & Hcotas).
  exists (redondear (reloj e (S k) - reloj e k)), q. unfold lectura.
  split_and!; [done | done | lia.. | by apply operaciones_por_segundo_casos].
Qed.

(** C36: when the clock gives the same reading before and after the
    measured loop, the benchmark prints a total time of zero, an average
    time of zero and [Infinity] iterations per second, whatever the
    locale: the division by a time of zero is not guarded. *)
Theorem ejecutarBenchmark_reloj_parado this nombre xs its w toLocaleString :
  xs <> [] -> (0 < default (iteraciones this) its)%nat ->
  reloj e (S (reloj_pos w)) = reloj e (reloj_pos w) ->
  exists v w', maximaGanancia (Array xs) = Ok v /\
    ejecutarBenchmark e this nombre xs its w = (Ok tt, w') /\
    pantalla toLocaleString (traza w') = pantalla toLocaleString (traza w) ++
      [texto toLocaleString (LNombre nombre);
       texto toLocaleString (LTamano (length xs));
       texto toLocaleString (LIteraciones (default (iteraciones this) its));
       "   Tiempo total: 0.00 ms";
       "   Tiempo promedio: 0.0000 ms";
       "   Operaciones/seg: " +:+ toLocaleString MasInf;
       texto toLocaleString (LResultado v)].
Proof.
  intros [v Hv]%maximaGanancia_Ok Hits Hreloj. eexists v, _.
  split; [done|]. split; [by apply ejecutarBenchmark_Ok|]. unfold pantalla.
  rewrite traza_avanzar, consola_app, consola_benchmark, map_app. unfold lectura.
  rewrite Hreloj. by destruct (reloj_parado (reloj e (reloj_pos w)) _ Hits) as (-> & -> & ->).
Qed.

(** C37: when the clock does not run backwards and stays below [10^21]
    milliseconds, every total and every average time the whole benchmark
    run prints is a finite double, not negative and below [10^21]:
    [toFixed] prints it as digits with two or four decimals, never as
    [NaN], as [Infinity], with a sign or with an exponent. *)
Theorem principal_tiempos_imprimibles :
  reloj_valido e -> siempre tiempo_imprimible (principal e).
Proof.
  intros He.
  unfold principal, ejecutar, casos_aleatorios, casos_enunciado, casos_extremos,
    analisis, todos_positivos, todos_negativos, patron_alternado.
  mostrar.
Qed.

(** The random integer the model computes on integers is the one line
    15 computes on doubles: [Math.random()] times the width of the range,
    rounded, then [Math.floor], then the addition of [min]. *)
Theorem entero_aleatorio_doble_eq min max k :
  0 <= k < 2 ^ 53 -> - 2 ^ 52 <= min -> min <= max -> max < 2 ^ 52 ->
  entero_aleatorio_doble min max k = de_entero (entero_aleatorio min max k).
Proof.
  intros Hk Hmin Hle Hmax. unfold entero_aleatorio_doble, entero_aleatorio.
  rewrite menos_de_entero, mas_exacta by (unfold MAX_SAFE_INTEGER; lia).
  cbn [de_valor]. rewrite sumar_de_entero, mas_Num, Z.add_opp_r.
  rewrite (redondear_seguro (max - min)), (redondear_exacto (max - min + 1)) by lia.
  rewrite desbordar_Num by lia. cbn [de_valor].
  destruct (por_random k (max - min + 1) Hk ltac:(lia)) as [-> Hq].
  rewrite Math_floor_random, sumar_de_entero, mas_exacta by (unfold MAX_SAFE_INTEGER; lia).
  cbn [de_valor]. by rewrite (redondear_seguro (_ / _ + min)) by lia.
Qed.

End PropiedadesTiempos.

(** ** Witnesses *)

Section TestigosTiempos.

Lemma entorno_ejemplo_reloj_valido : reloj_valido entorno_ejemplo.
Proof.
  intros n. simpl. split_and!.
  - apply es_doble_limite; lia.
  - lia.
  - apply Z.mul_le_mono_nonneg_r; lia.
  - apply Z.le_lt_trans with (1000 * 2 ^ 1073); [|by vm_compute].
    apply Z.mul_le_mono_nonneg_r; lia.
Qed.

Lemma medidas_benchmark_testigo :
  exists d q,
    tiempo_total (lectura entorno_ejemplo 0) (lectura entorno_ejemplo 1) = Finito d /\
    tiempo_promedio (lectura entorno_ejemplo 0) (lectura entorno_ejemplo 1) 10 = Finito q /\
    0 <= q <= d /\ d <= reloj entorno_ejemplo 1 /\
    (operaciones_por_segundo (lectura entorno_ejemplo 0) (lectura entorno_ejemplo 1) 10
       = MasInf \/
     exists n, 0 <= n /\
       operaciones_por_segundo (lectura entorno_ejemplo 0) (lectura entorno_ejemplo 1) 10
         = de_entero n).
Proof. apply medidas_benchmark; [apply entorno_ejemplo_reloj_valido | lia]. Defined.

Lemma ejecutarBenchmark_reloj_parado_testigo :
  exists v w', maximaGanancia (Array [5; -3; 5]) = Ok v /\
    ejecutarBenchmark entorno_parado new_BenchmarkRunner "clase" [5; -3; 5]
      (Some 10%nat) mundo_inicial = (Ok tt, w') /\
    pantalla sin_agrupar (traza w') = pantalla sin_agrupar (traza mundo_inicial) ++
      [texto sin_agrupar (LNombre "clase");
       texto sin_agrupar (LTamano (length [5; -3; 5]));
       texto sin_agrupar
         (LIteraciones (default (iteraciones new_BenchmarkRunner) (Some 10%nat)));
       "   Tiempo total: 0.00 ms";
       "   Tiempo promedio: 0.0000 ms";
       "   Operaciones/seg: " +:+ sin_agrupar MasInf;
       texto sin_agrupar (LResultado v)].
Proof. apply ejecutarBenchmark_reloj_parado; [done | simpl; lia | done]. Defined.

Lemma principal_tiempos_imprimibles_testigo :
  siempre tiempo_imprimible (principal entorno_ejemplo).
Proof. apply principal_tiempos_imprimibles, entorno_ejemplo_reloj_valido. Defined.

Lemma entero_aleatorio_doble_eq_testigo :
  entero_aleatorio_doble (-50) 50 (2 ^ 52) =
  de_entero (entero_aleatorio (-50) 50 (2 ^ 52)).
Proof. apply entero_aleatorio_doble_eq; lia. Defined.

(** With a clock that advances half a millisecond between its two
    readings, a benchmark of ten iterations on [5, -3, 5] prints a total of
    0.50 ms, an average of 0.0500 ms, 20000 iterations per second and the
    result 7. *)
Example pantalla_ejemplo :
  pantalla sin_agrupar
    (traza (ejecutarBenchmark entorno_ejemplo new_BenchmarkRunner "clase"
              [5; -3; 5] (Some 10%nat) mundo_inicial).2) =
  [salto +:+ "📊 clase";
   "   Tamaño del array: 3";
   "   Iteraciones: 10";
   "   Tiempo total: 0.50 ms";
   "   Tiempo promedio: 0.0500 ms";
   "   Operaciones/seg: 20000";
   "   Resultado: 7"].
Proof. by vm_compute. Qed.

End TestigosTiempos.
