(* ===== verification/BancoReloj.v ===== *)
(** * BancoReloj: the benchmark run does not depend on the clock

    Two runs of the driver of [src/maximaGanancia.bench.ts] under runtimes
    that return the same random numbers and any clock readings do the same
    things: the same arrays, the same calls of [maximaGanancia] with the
    same outcomes, the same console lines but for the timings shown.

    Traces are compared up to their timings ([mismos_tiempos], written
    [≡t]), an equivalence for which concatenation and the projections of a
    trace are morphisms.  [acompasados R m1 m2] relates two effectful
    computations that, started with the same position in the random
    sequence, end with related outcomes, the same position, and traces equal
    up to timings; it is compositional along the monad, which gives the
    theorem for the whole run by following the program. *)

From stdpp Require Import base list strings.
From Stdlib Require Import ZArith Lia.
From S2P Require Import Prelude Redondeo JsNumero Dobles Segmentos MaximaGanancia Banco.

Local Open Scope Z_scope.

(** ** Traces up to timings *)

(** The line with its timings set to zero. *)
Definition linea_sin_tiempos (l : linea) : linea :=
  match l with
  | LTiempoTotal _ => LTiempoTotal NoNum
  | LTiempoPromedio _ => LTiempoPromedio NoNum
  | LOperaciones _ => LOperaciones NoNum
  | _ => l
  end.

(** The event with its timings set to zero. *)
Definition sin_tiempos (ev : evento) : evento :=
  match ev with
  | ENow _ => ENow NoNum
  | ELog l => ELog (linea_sin_tiempos l)
  | _ => ev
  end.

(** Two traces that differ in their timings only. *)
Definition mismos_tiempos (evs1 evs2 : list evento) : Prop :=
  map sin_tiempos evs1 = map sin_tiempos evs2.

Infix "≡t" := mismos_tiempos (at level 70, no associativity) : huerto_scope.
Local Open Scope huerto_scope.

(** The outcomes of two runs: both return, with related values, or both
    throw the same error. *)
Definition mismo_resultado {A} (R : A -> A -> Prop) (r1 r2 : js A) : Prop :=
  match r1, r2 with
  | Ok a1, Ok a2 => R a1 a2
  | Lanza err1, Lanza err2 => err1 = err2
  | _, _ => False
  end.

(** Started at the same position of the random sequence, [m1] and [m2] end
    with related outcomes, at the same position, having added traces that
    differ in their timings only. *)
Definition acompasados {A} (R : A -> A -> Prop) (m1 m2 : efecto A) : Prop :=
  forall w1 w2, azar_pos w1 = azar_pos w2 ->
    mismo_resultado R (m1 w1).1 (m2 w2).1 /\
    azar_pos (m1 w1).2 = azar_pos (m2 w2).2 /\
    exists evs1 evs2,
      traza (m1 w1).2 = traza w1 ++ evs1 /\
      traza (m2 w2).2 = traza w2 ++ evs2 /\ evs1 ≡t evs2.

(** Any two clock readings are related. *)
Definition cualquiera (t1 t2 : numero) : Prop := True.

(** ** The equivalence and its morphisms *)

(** ** Example data *)

(** The example runtime with a slower clock. *)
Definition entorno_lento : entorno :=
  {| azar := azar entorno_ejemplo;
     reloj := fun n => 1000 * Z.of_nat n + 7 |}.

#[export] Instance mismos_tiempos_equivalence : Equivalence mismos_tiempos.
Proof.
  unfold mismos_tiempos. split.
  - by intros evs.
  - by intros evs1 evs2 H.
  - intros evs1 evs2 evs3 H1 H2. by rewrite H1.
Qed.

#[export] Instance app_mismos_tiempos :
  Proper (mismos_tiempos ==> mismos_tiempos ==> mismos_tiempos) (++).
Proof.
  unfold mismos_tiempos. intros evs1 evs2 H12 evs3 evs4 H34.
  by rewrite !map_app, H12, H34.
Qed.

Lemma omap_sin_tiempos {B} (f : evento -> option B) evs1 evs2 :
  (forall ev, f (sin_tiempos ev) = f ev) -> evs1 ≡t evs2 -> omap f evs1 = omap f evs2.
Proof.
  intros Hf H.
  assert (forall evs, omap f (map sin_tiempos evs) = omap f evs) as Hmap.
  { induction evs as [|ev evs IH]; [done|]. csimpl. by rewrite Hf, IH. }
  unfold mismos_tiempos in H. by rewrite <- (Hmap evs1), <- (Hmap evs2), H.
Qed.

#[export] Instance llamadas_mismos_tiempos : Proper (mismos_tiempos ==> eq) llamadas.
Proof. intros evs1 evs2 H. apply omap_sin_tiempos; [by intros [] | done]. Qed.

#[export] Instance resultados_mismos_tiempos : Proper (mismos_tiempos ==> eq) resultados.
Proof. intros evs1 evs2 H. apply omap_sin_tiempos; [by intros [| | |[]] | done]. Qed.

#[export] Instance length_mismos_tiempos :
  Proper (mismos_tiempos ==> eq) (@length evento).
Proof.
  intros evs1 evs2 H%(f_equal length). by rewrite !length_map in H.
Qed.

(** ** Two runs, step by step *)

Section DosRelojes.
Context (e1 e2 : entorno).
Context (mismo_azar : forall n, azar e1 n = azar e2 n).

Lemma acompasados_ret {A} (R : A -> A -> Prop) a1 a2 :
  R a1 a2 -> acompasados R (mret a1) (mret a2).
Proof.
  intros HR w1 w2 Hw. split_and!; [done..|].
  exists [], []. by rewrite !app_nil_r.
Qed.

Lemma acompasados_bind {A B} (R : A -> A -> Prop) (S : B -> B -> Prop)
    (m1 m2 : efecto A) (f1 f2 : A -> efecto B) :
  acompasados R m1 m2 ->
  (forall a1 a2, R a1 a2 -> acompasados S (f1 a1) (f2 a2)) ->
  acompasados S (m1 ≫= f1) (m2 ≫= f2).
Proof.
  intros Hm Hf w1 w2 Hw. unfold mbind, efecto_bind.
  destruct (Hm w1 w2 Hw) as (Hr & Hpos & evs1 & evs2 & Ht1 & Ht2 & Hevs).
  destruct (m1 w1) as [[a1|err1] w1'], (m2 w2) as [[a2|err2] w2']; simpl in *;
    try done; [|by eauto 10].
  destruct (Hf a1 a2 Hr w1' w2' Hpos) as (Hr' & Hpos' & evs1' & evs2' & Ht1' & Ht2' & Hevs').
  split_and!; [done..|]. exists (evs1 ++ evs1'), (evs2 ++ evs2').
  rewrite Ht1', Ht2', Ht1, Ht2, <- !app_assoc. split_and!; [done..|].
  by rewrite Hevs, Hevs'.
Qed.

Lemma acompasados_evento {A} (R : A -> A -> Prop) (m1 m2 : efecto A) a1 a2 ev1 ev2 :
  (forall w, m1 w = (Ok a1, anotar ev1 w)) ->
  (forall w, m2 w = (Ok a2, anotar ev2 w)) ->
  R a1 a2 -> sin_tiempos ev1 = sin_tiempos ev2 -> acompasados R m1 m2.
Proof.
  intros H1 H2 HR Hev w1 w2 Hw. rewrite H1, H2. split_and!; [done..|].
  exists [ev1], [ev2]. split_and!; [done..|]. unfold mismos_tiempos. simpl. by rewrite Hev.
Qed.

Lemma acompasados_Math_random :
  acompasados eq (Math_random e1) (Math_random e2).
Proof.
  intros w1 w2 Hw. unfold Math_random. simpl. rewrite Hw, mismo_azar.
  split_and!; [done..|]. by eexists [_], [_].
Qed.

Lemma acompasados_performance_now :
  acompasados cualquiera (performance_now e1) (performance_now e2).
Proof.
  intros w1 w2 Hw. unfold performance_now. simpl. split_and!; [done..|].
  by eexists [_], [_].
Qed.

Lemma acompasados_console_log l1 l2 :
  linea_sin_tiempos l1 = linea_sin_tiempos l2 ->
  acompasados eq (console_log l1) (console_log l2).
Proof.
  intros Hl. apply (acompasados_evento _ _ _ tt tt (ELog l1) (ELog l2)); try done.
  simpl. by rewrite Hl.
Qed.

Lemma acompasados_llamar xs : acompasados eq (llamar xs) (llamar xs).
Proof.
  intros w1 w2 Hw. unfold llamar. simpl. split_and!; [|done|by eexists [_], [_]].
  by destruct (maximaGanancia (Array xs)).
Qed.

Lemma acompasados_repetir n (m1 m2 : efecto unit) :
  acompasados eq m1 m2 -> acompasados eq (repetir n m1) (repetir n m2).
Proof.
  intros Hm. induction n as [|n IH]; [by apply acompasados_ret|].
  simpl. eapply acompasados_bind; [exact Hm | by intros].
Qed.

Lemma acompasados_generarArrayAleatorio this size min max :
  acompasados eq (generarArrayAleatorio e1 this size min max)
                 (generarArrayAleatorio e2 this size min max).
Proof.
  induction size as [|size IH]; [by apply acompasados_ret|]. simpl.
  eapply acompasados_bind; [apply acompasados_Math_random|]. intros k _ <-.
  eapply acompasados_bind; [exact IH|]. intros resto _ <-.
  by apply acompasados_ret.
Qed.

(** [acompasar]: follows two copies of a program of the driver, one bind
    at a time; [hoja] closes the calls of the methods already related. *)
Ltac acompasar hoja :=
  lazymatch goal with
  | |- acompasados _ (mret _) (mret _) => by apply acompasados_ret
  | |- acompasados _ (console_log _) (console_log _) =>
      by apply acompasados_console_log
  | |- acompasados _ (llamar _) (llamar _) => apply acompasados_llamar
  | |- acompasados _ (performance_now _) (performance_now _) =>
      apply acompasados_performance_now
  | |- acompasados _ (repetir _ _) (repetir _ _) =>
      apply acompasados_repetir; acompasar hoja
  | |- acompasados _ (generarArrayAleatorio _ _ _ _ _) _ =>
      apply acompasados_generarArrayAleatorio
  | |- acompasados _ (mbind _ _) (mbind _ _) =>
      eapply acompasados_bind;
      [acompasar hoja | intros ? ? ?; try subst; acompasar hoja]
  | |- _ => hoja
  end.

Lemma acompasados_ejecutarBenchmark this nombre xs its :
  acompasados eq (ejecutarBenchmark e1 this nombre xs its)
                 (ejecutarBenchmark e2 this nombre xs its).
Proof. unfold ejecutarBenchmark. acompasar fail. Qed.

Lemma acompasados_caso_aleatorio this nombre size min max its :
  acompasados eq (caso_aleatorio e1 this nombre size min max its)
                 (caso_aleatorio e2 this nombre size min max its).
Proof. unfold caso_aleatorio. acompasar ltac:(apply acompasados_ejecutarBenchmark). Qed.

(** The calls of [ejecutar], told apart by their head: unification must not
    unfold a benchmark of 100000 elements. *)
Ltac metodo :=
  idtac;
  lazymatch goal with
  | |- acompasados _ (ejecutarBenchmark _ _ _ _ _) _ =>
      apply acompasados_ejecutarBenchmark
  | |- acompasados _ (caso_aleatorio _ _ _ _ _ _ _) _ =>
      apply acompasados_caso_aleatorio
  end.

Lemma acompasados_ejecutar this :
  acompasados eq (ejecutar e1 this) (ejecutar e2 this).
Proof.
  unfold ejecutar, casos_aleatorios, casos_enunciado, casos_extremos, analisis.
  acompasar ltac:(metodo).
Qed.

End DosRelojes.

(** ** The run does not depend on the clock *)

Section PropiedadesReloj.

(** C30: two runs of the benchmark under runtimes that return the same random
    numbers, whatever their clocks, add traces that differ in the timings
    only: the same random numbers, arrays and calls of [maximaGanancia]
    with the same outcomes, and the same results printed. *)
Theorem principal_sin_reloj e1 e2 w :
  (forall n, azar e1 n = azar e2 n) ->
  exists evs1 evs2,
    traza (principal e1 w).2 = traza w ++ evs1 /\
    traza (principal e2 w).2 = traza w ++ evs2 /\
    mismos_tiempos evs1 evs2 /\ llamadas evs1 = llamadas evs2 /\
    resultados evs1 = resultados evs2.
Proof.
  intros Hazar.
  destruct (acompasados_ejecutar e1 e2 Hazar new_BenchmarkRunner w w eq_refl)
    as (_ & _ & evs1 & evs2 & H1 & H2 & Hevs).
  exists evs1, evs2. split_and!; [done..| |]; by rewrite Hevs.
Qed.

End PropiedadesReloj.

(** ** Witnesses *)

Section TestigosReloj.

Lemma principal_sin_reloj_testigo :
  exists evs1 evs2,
    traza (principal entorno_ejemplo mundo_inicial).2 = traza mundo_inicial ++ evs1 /\
    traza (principal entorno_lento mundo_inicial).2 = traza mundo_inicial ++ evs2 /\
    mismos_tiempos evs1 evs2 /\ llamadas evs1 = llamadas evs2 /\
    resultados evs1 = resultados evs2.
Proof. apply principal_sin_reloj. done. Defined.

End TestigosReloj.
