(* ===== verification/Pruebas.v ===== *)
(** * Pruebas: the model of [src/maximaGanancia.test.ts]

    The test file defines a harness without a framework, [TestRunner], and a
    script that prints section titles, runs 23 tests through the harness and
    ends with the report.

    - [TestRunner] is the record of the fields [testsPassed], [testsFailed]
      and [errors]; a [proceso] is the runner of the script, what the
      console received ([renglon]s of [console.log] and [console.error]) and
      the exit code once [process.exit] was called.
    - A test function is a [js unit]: code that returns or throws.  The
      assertions [assertEqual] and [assertThrows] only throw; [test] catches
      what the test function throws, counts and prints.
    - The script is a list of [sentencia]s, one per top-level statement, in
      the groups of the source ([pruebas_enunciado], ..., [pruebas_clase]);
      [correr] executes them in order.

    The theorems: the script passes its 23 tests and does not call
    [process.exit]; every script keeps the counters coherent with the list
    of errors; the process exits with code 1 exactly when a test function
    throws; a test of the form the script uses passes exactly when the
    expected value is the largest segment sum; [assertThrows] with a message
    of its own accepts a function that returns normally. *)

From stdpp Require Import base list strings.
From Stdlib Require Import ZArith Lia.
From S2P Require Import Prelude Redondeo JsNumero Segmentos MaximaGanancia.

Local Open Scope Z_scope.

(** ** The harness *)

(** A line written by [console.log] or by [console.error]. *)
Inductive renglon : Type :=
| Log (s : string)
| LogError (s : string).

#[export] Instance renglon_eq_dec : EqDecision renglon.
Proof. solve_decision. Defined.

(** [class TestRunner]: its three private fields. *)
Record TestRunner : Type := {
  testsPassed : Z;
  testsFailed : Z;
  errors : list string;
}.

(** [new TestRunner()]. *)
Definition new_TestRunner : TestRunner :=
  {| testsPassed := 0; testsFailed := 0; errors := [] |}.

(** The process that runs the script: the one runner, the console and the
    exit code once [process.exit] was called. *)
Record proceso : Type := {
  runner : TestRunner;
  escrito : list renglon;
  codigo : option Z;
}.

Definition proceso_inicial : proceso :=
  {| runner := new_TestRunner; escrito := []; codigo := None |}.

(** [test(descripcion, testFn)]. *)
Definition test (descripcion : string) (testFn : js unit) (p : proceso) : proceso :=
  let this := runner p in
  match testFn with
  | Ok _ =>
      {| runner := {| testsPassed := testsPassed this + 1;
                      testsFailed := testsFailed this;
                      errors := errors this |};
         escrito := escrito p ++ [Log ("✓ " +:+ descripcion)];
         codigo := codigo p |}
  | Lanza error =>
      let mensaje := message error in
      {| runner := {| testsPassed := testsPassed this;
                      testsFailed := testsFailed this + 1;
                      errors := errors this ++ [descripcion +:+ ": " +:+ mensaje] |};
         escrito := escrito p ++ [LogError ("✗ " +:+ descripcion);
                                  LogError ("  " +:+ mensaje)];
         codigo := codigo p |}
  end.

(** [assertEqual(actual, esperado, mensaje?)]. *)
Definition assertEqual (actual esperado : valor) (mensaje : option string) : js unit :=
  if estrictamente_distinto actual esperado
  then Lanza (new_Error
         (o_bien mensaje
            ("Se esperaba " +:+ String_de esperado +:+
             ", pero se obtuvo " +:+ String_de actual)))
  else Ok tt.

(** [assertThrows(fn, mensaje?)]. *)
Definition assertThrows {A} (fn : js A) (mensaje : option string) : js unit :=
  intentar
    (fn ;; Lanza (new_Error (o_bien mensaje "Se esperaba que lanzara un error")))
    (fun error =>
       if includes (message error) "Se esperaba que" then Lanza error else Ok tt).

(** [generarReporte()]. *)
Definition generarReporte (p : proceso) : proceso :=
  let this := runner p in
  let cabecera :=
    [Log (salto +:+ String_repeat "=" 60);
     Log ("Tests Pasados: " +:+ String_de (Num (testsPassed this)));
     Log ("Tests Fallidos: " +:+ String_de (Num (testsFailed this)));
     Log (String_repeat "=" 60)] in
  if 0 <? testsFailed this
  then {| runner := this;
          escrito := escrito p ++ cabecera ++
                     [LogError (salto +:+ "Errores encontrados:")] ++
                     map (fun error => LogError ("  - " +:+ error)) (errors this);
          codigo := Some 1 |}
  else {| runner := this; escrito := escrito p ++ cabecera; codigo := codigo p |}.

(** ** The script *)

(** A top-level statement of the script. *)
Inductive sentencia : Type :=
| SLog (s : string)
| STest (descripcion : string) (testFn : js unit)
| SReporte.

(** One statement; nothing runs after [process.exit]. *)
Definition ejecutar_sentencia (p : proceso) (st : sentencia) : proceso :=
  match codigo p with
  | Some _ => p
  | None =>
      match st with
      | SLog s =>
          {| runner := runner p; escrito := escrito p ++ [Log s]; codigo := codigo p |}
      | STest descripcion testFn => test descripcion testFn p
      | SReporte => generarReporte p
      end
  end.

Definition correr_desde (p : proceso) (guion : list sentencia) : proceso :=
  foldl ejecutar_sentencia p guion.

Definition correr (guion : list sentencia) : proceso :=
  correr_desde proceso_inicial guion.

(** The test function of most tests:
    [const resultado = maximaGanancia(xs);
     runner.assertEqual(resultado, esperado, mensaje);] *)
Definition espera_igual (xs : list Z) (esperado : Z) (mensaje : string) : js unit :=
  resultado ← maximaGanancia (Array xs);
  assertEqual resultado (Num esperado) (Some mensaje).

Definition pruebas_inicio : list sentencia := [
  SLog ("🌱 Iniciando tests de La Cosecha de Calabazas Malditas 🌱" +:+ salto)
].

Definition pruebas_enunciado : list sentencia := [
  SLog ("📝 Casos de ejemplo del enunciado:");
  STest "Caso 1: Array con todos números positivos [1, 2, 3, 4]"
    (espera_igual [1; 2; 3; 4] 10
       "Debería ser 10");
  STest "Caso 2: Array con todos números negativos [-1, -2, -3, -4]"
    (espera_igual [-1; -2; -3; -4] (-1)
       "Debería ser -1 (la calabaza menos maldita)");
  STest "Caso 3: Array con números mixtos [8, 1, -100, 2, 5]"
    (espera_igual [8; 1; -100; 2; 5] 9
       "Debería ser 9 (suma de [8, 1])")
].

Definition pruebas_cosecha : list sentencia := [
  SLog (salto +:+ "🎃 Casos específicos de la cosecha de calabazas malditas:");
  STest "Cosecha de calabazas malditas (caso original) [2, -5, 8, -2, 4, -10, 3, 1]"
    (espera_igual [2; -5; 8; -2; 4; -10; 3; 1] 10
       "Debería ser 10 (suma de [8, -2, 4])")
].

Definition pruebas_extremos : list sentencia := [
  SLog (salto +:+ "⚠️  Casos extremos:");
  STest "Array con un solo elemento positivo [5]"
    (espera_igual [5] 5
       "Debería retornar el elemento único");
  STest "Array con un solo elemento negativo [-5]"
    (espera_igual [-5] (-5)
       "Debería retornar el elemento único");
  STest "Array con ceros [0, 0, 0]"
    (espera_igual [0; 0; 0] 0
       "Debería retornar 0");
  STest "Array con un cero y negativos [0, -5, -3]"
    (espera_igual [0; -5; -3] 0
       "Debería retornar 0")
].

Definition pruebas_kadane : list sentencia := [
  SLog (salto +:+ "🔍 Pruebas del algoritmo Kadane:");
  STest "Sub-array en el medio [1, -3, 2, 3, -1, 4]"
    (espera_igual [1; -3; 2; 3; -1; 4] 8
       "Debería ser 8 (suma de [2, 3, -1, 4])");
  STest "Sub-array al inicio [-2, -3, 5, 1, -2]"
    (espera_igual [-2; -3; 5; 1; -2] 6
       "Debería ser 6 (suma de [5, 1])");
  STest "Sub-array al final [1, -1, -1, 5, 4]"
    (espera_igual [1; -1; -1; 5; 4] 9
       "Debería ser 9 (suma de [5, 4])");
  STest "Todo el array es la respuesta [1, 2, 3, 4, 5]"
    (espera_igual [1; 2; 3; 4; 5] 15
       "Debería ser 15");
  STest "Un elemento en el medio [3, -2, 5, -2, 3]"
    (espera_igual [3; -2; 5; -2; 3] 7
       "Debería ser 7 (suma de [3, -2, 5, -2, 3])")
].

Definition pruebas_validacion : list sentencia := [
  SLog (salto +:+ "🛡️  Pruebas de validación:");
  STest "Array vacío debería lanzar error"
    (assertThrows (maximaGanancia (Array []))
       (Some "Debería lanzar error para array vacío"))
].

Definition pruebas_grandes : list sentencia := [
  SLog (salto +:+ "📊 Pruebas con números grandes:");
  STest "Array con números muy grandes [1000000, -500000, 2000000]"
    (espera_igual [1000000; -500000; 2000000] 2500000
       "Debería manejar números grandes");
  STest "Array con números muy negativos [-1000, -2000, -500]"
    (espera_igual [-1000; -2000; -500] (-500)
       "Debería ser -500 (el menos malo)")
].

Definition pruebas_patrones : list sentencia := [
  SLog (salto +:+ "🎯 Patrones especiales:");
  STest "Patrón alternado [5, -5, 5, -5, 5]"
    (espera_igual [5; -5; 5; -5; 5] 5
       "Debería retornar 5");
  STest "Muchos negativos con un positivo [-10, -20, 15, -30, -50]"
    (espera_igual [-10; -20; 15; -30; -50] 15
       "Debería retornar 15");
  STest "Dos picos [1, -2, 5, -2, 3]"
    (espera_igual [1; -2; 5; -2; 3] 6
       "Debería retornar 6 (suma de [5, -2, 3])")
].

Definition pruebas_reales : list sentencia := [
  SLog (salto +:+ "🌾 Escenarios realistas de cosecha de calabazas:");
  STest "Buen inicio, mal final [10, 5, -20]"
    (espera_igual [10; 5; -20] 15
       "Debería retornar 15");
  STest "Mal inicio, buen final [-20, 5, 10]"
    (espera_igual [-20; 5; 10] 15
       "Debería retornar 15");
  STest "Calabazas deliciosas rodeadas de malditas [2, -1, 10, 5, 8, -2, 3]"
    (espera_igual [2; -1; 10; 5; 8; -2; 3] 25
       "Debería retornar 25 (suma de todo el array)")
].

Definition pruebas_clase : list sentencia := [
  SLog (salto +:+ "🧪 Tests de la clase CalculadorGananciaMaxima:");
  STest "Usar la clase directamente"
    (let calculador := new_CalculadorGananciaMaxima in
       resultado ← calcular calculador (Array [5; -3; 5]);
       assertEqual resultado (Num 7) (Some "Debería funcionar usando la clase"))
].


(** The whole script. *)
Definition guion : list sentencia :=
  pruebas_inicio ++ pruebas_enunciado ++ pruebas_cosecha ++ pruebas_extremos ++
  pruebas_kadane ++ pruebas_validacion ++ pruebas_grandes ++ pruebas_patrones ++
  pruebas_reales ++ pruebas_clase ++ [SReporte].

(** ** Vocabulary of the specifications *)

(** The statement is a test whose function throws. *)
Definition falla (st : sentencia) : bool :=
  match st with
  | STest _ (Lanza _) => true
  | _ => false
  end.

Definition es_test (st : sentencia) : bool :=
  match st with
  | STest _ _ => true
  | _ => false
  end.

Definition es_reporte (st : sentencia) : bool :=
  match st with
  | SReporte => true
  | _ => false
  end.

(** Tests run so far. *)
Definition total (p : proceso) : Z :=
  testsPassed (runner p) + testsFailed (runner p).

(** The counters agree with the list of errors, and the process has exited
    only with code 1 and after a failure. *)
Record coherente (p : proceso) : Prop := {
  coh_pasados : 0 <= testsPassed (runner p);
  coh_fallidos : testsFailed (runner p) = Z.of_nat (length (errors (runner p)));
  coh_codigo : codigo p = None \/ (codigo p = Some 1 /\ 0 < testsFailed (runner p));
}.

(** ** The assertions *)

Section Aserciones.
Implicit Types (actual esperado : valor) (mensaje : option string).

Lemma estrictamente_igual_sii actual esperado :
  estrictamente_igual actual esperado = true <->
  actual = esperado /\ actual <> NaN.
Proof.
  split.
  - intros H. split; [by apply estrictamente_igual_eq|]. by intros ->.
  - intros [<- H]. destruct actual; simpl; [apply Z.eqb_refl|done..].
Qed.

Lemma assertEqual_Ok actual esperado mensaje :
  assertEqual actual esperado mensaje = Ok tt <->
  estrictamente_igual actual esperado = true.
Proof.
  unfold assertEqual, estrictamente_distinto.
  by destruct (estrictamente_igual actual esperado).
Qed.

Lemma assertEqual_Num x y mensaje :
  assertEqual (Num x) (Num y) mensaje = Ok tt <-> x = y.
Proof. by rewrite assertEqual_Ok, estrictamente_igual_Num. Qed.

Lemma assertEqual_Lanza actual esperado mensaje :
  estrictamente_igual actual esperado = false ->
  assertEqual actual esperado mensaje =
  Lanza (new_Error
    (o_bien mensaje
       ("Se esperaba " +:+ String_de esperado +:+
        ", pero se obtuvo " +:+ String_de actual))).
Proof. intros H. unfold assertEqual, estrictamente_distinto. by rewrite H. Qed.

Lemma assertThrows_Lanza {A} error mensaje :
  assertThrows (A:=A) (Lanza error) mensaje =
  if includes (message error) "Se esperaba que" then Lanza error else Ok tt.
Proof. done. Qed.

Lemma assertThrows_Ok {A} (a : A) mensaje :
  assertThrows (Ok a) mensaje =
  let aviso := o_bien mensaje "Se esperaba que lanzara un error" in
  if includes aviso "Se esperaba que" then Lanza (new_Error aviso) else Ok tt.
Proof. done. Qed.

End Aserciones.

(** ** The runner and the script *)

Section Corredor.
Implicit Types (p : proceso) (st : sentencia) (g : list sentencia).

Lemma correr_desde_cons p st g :
  correr_desde p (st :: g) = correr_desde (ejecutar_sentencia p st) g.
Proof. done. Qed.

Lemma correr_desde_app p g1 g2 :
  correr_desde p (g1 ++ g2) = correr_desde (correr_desde p g1) g2.
Proof. apply foldl_app. Qed.

(** Nothing runs after [process.exit]. *)
Lemma ejecutar_sentencia_salido p st c :
  codigo p = Some c -> ejecutar_sentencia p st = p.
Proof. intros H. unfold ejecutar_sentencia. by rewrite H. Qed.

Lemma correr_desde_salido p g c : codigo p = Some c -> correr_desde p g = p.
Proof.
  intros H. induction g as [|st g IH]; [done|].
  by rewrite correr_desde_cons, (ejecutar_sentencia_salido p st c).
Qed.

Lemma codigo_test descripcion testFn p :
  codigo (test descripcion testFn p) = codigo p.
Proof. by destruct testFn. Qed.

Lemma total_test descripcion testFn p :
  total (test descripcion testFn p) = total p + 1.
Proof. unfold total. destruct testFn; simpl; lia. Qed.

Lemma testsFailed_test descripcion testFn p :
  testsFailed (runner (test descripcion testFn p)) =
  testsFailed (runner p) + (if falla (STest descripcion testFn) then 1 else 0).
Proof. destruct testFn; simpl; lia. Qed.

Lemma test_coherente descripcion testFn p :
  coherente p -> coherente (test descripcion testFn p).
Proof.
  intros [H1 H2 H3]. destruct testFn; split; simpl; try done; try lia.
  - rewrite length_app. simpl. lia.
  - destruct H3 as [?|[? ?]]; [by left | right; split; [done | lia]].
Qed.

Lemma generarReporte_coherente p : coherente p -> coherente (generarReporte p).
Proof.
  intros [H1 H2 H3]. unfold generarReporte.
  destruct (Z.ltb_spec 0 (testsFailed (runner p))); split; simpl; auto.
Qed.

Lemma ejecutar_sentencia_coherente p st :
  coherente p -> coherente (ejecutar_sentencia p st).
Proof.
  intros H. unfold ejecutar_sentencia. destruct (codigo p) eqn:E; [done|].
  destruct st; [|by apply test_coherente | by apply generarReporte_coherente].
  destruct H as [H1 H2 H3]. split; simpl; auto.
Qed.

Lemma correr_desde_coherente p g : coherente p -> coherente (correr_desde p g).
Proof.
  revert p. induction g as [|st g IH]; intros p H; [done|].
  rewrite correr_desde_cons. by apply IH, ejecutar_sentencia_coherente.
Qed.

Lemma proceso_inicial_coherente : coherente proceso_inicial.
Proof. split; simpl; auto; lia. Qed.

(** While the process has not exited, every test statement counts once. *)
Lemma ejecutar_sentencia_total p st :
  codigo (ejecutar_sentencia p st) = None ->
  codigo p = None /\
  total (ejecutar_sentencia p st) = total p + (if es_test st then 1 else 0).
Proof.
  unfold ejecutar_sentencia. destruct (codigo p) eqn:E; [simpl; congruence|].
  intros H. split; [done|]. destruct st; simpl.
  - unfold total. simpl. lia.
  - apply total_test.
  - unfold generarReporte, total.
    destruct (0 <? testsFailed (runner p)); simpl; lia.
Qed.

Lemma correr_desde_total p g :
  codigo (correr_desde p g) = None ->
  total (correr_desde p g) = total p + Z.of_nat (length (filter es_test g)).
Proof.
  revert p. induction g as [|st g IH]; intros p H; [simpl; lia|].
  rewrite correr_desde_cons in *. rewrite (IH _ H).
  destruct (codigo (ejecutar_sentencia p st)) eqn:E.
  { rewrite (correr_desde_salido _ g z E) in H. congruence. }
  destruct (ejecutar_sentencia_total p st E) as [_ ->].
  rewrite filter_cons. destruct (es_test st); simpl; lia.
Qed.

(** A script without report never exits, and counts its failures. *)
Lemma correr_desde_sin_reporte p g :
  codigo p = None -> forallb (fun st => negb (es_reporte st)) g = true ->
  codigo (correr_desde p g) = None /\
  testsFailed (runner (correr_desde p g)) =
  testsFailed (runner p) + Z.of_nat (length (filter falla g)).
Proof.
  revert p. induction g as [|st g IH]; intros p Hp Hg; [simpl; split; [done|lia]|].
  apply andb_true_iff in Hg as [Hst Hg]. rewrite correr_desde_cons.
  assert (codigo (ejecutar_sentencia p st) = None /\
          testsFailed (runner (ejecutar_sentencia p st)) =
          testsFailed (runner p) + (if falla st then 1 else 0)) as [Hc Hf].
  { unfold ejecutar_sentencia. rewrite Hp. destruct st; simpl in *; try done.
    - split; [done | lia].
    - by rewrite codigo_test, testsFailed_test. }
  destruct (IH _ Hc Hg) as [-> ->]. split; [done|]. rewrite Hf, filter_cons.
  destruct (falla st); simpl; lia.
Qed.

Lemma generarReporte_codigo p :
  codigo p = None ->
  codigo (generarReporte p) = if 0 <? testsFailed (runner p) then Some 1 else None.
Proof.
  intros H. unfold generarReporte. by destruct (0 <? testsFailed (runner p)).
Qed.

Lemma length_filter_existsb {A} (f : A -> bool) (l : list A) :
  (0 <? Z.of_nat (length (filter f l))) = existsb f l.
Proof.
  induction l as [|x l IH]; [done|]. rewrite filter_cons. simpl.
  destruct (f x); simpl; [apply Z.ltb_lt; lia | done].
Qed.

End Corredor.

(** ** Properties of the harness and of the script *)

Section PropiedadesPruebas.
Implicit Types (p : proceso) (g : list sentencia) (xs : list Z).


(** C39: a test of the form the script uses, on a non-empty bounded array,
    passes exactly when the expected value is the largest sum of a segment
    of the array. *)
Theorem espera_igual_sii xs esperado mensaje :
  xs <> [] -> acotada xs ->
  espera_igual xs esperado mensaje = Ok tt <-> es_ganancia_maxima xs esperado.
Proof.
  intros Hne Hxs. destruct (maximaGanancia_Array xs Hne Hxs) as (g & Hg & Hmax).
  unfold espera_igual. rewrite Hg, bind_Ok, assertEqual_Num. split.
  - by intros <-.
  - intros H. by apply (es_ganancia_maxima_unica xs).
Qed.

(** C40: [assertThrows] called with a message of its own that does not
    contain "Se esperaba que" never fails: when [fn] returns normally, the
    error the assertion throws is caught by its own handler and taken for
    the expected one. *)
Theorem assertThrows_ciega {A} (fn : js A) c mensaje :
  includes (String c mensaje) "Se esperaba que" = false ->
  (forall error, fn = Lanza error ->
     includes (message error) "Se esperaba que" = false) ->
  assertThrows fn (Some (String c mensaje)) = Ok tt.
Proof.
  intros Hm Hfn. destruct fn as [a|error].
  - rewrite assertThrows_Ok, o_bien_Some. cbv zeta. by rewrite Hm.
  - by rewrite assertThrows_Lanza, (Hfn error).
Qed.

(** Whatever the script, the counters of the runner stay coherent:
    [testsFailed] is the number of recorded errors, [testsPassed] is not
    negative, and the process has exited only with code 1 and after a
    failure. *)
Theorem correr_coherente g : coherente (correr g).
Proof. apply correr_desde_coherente, proceso_inicial_coherente. Qed.

(** A script that ends with its only report exits with code 1 exactly
    when the function of one of its tests throws; otherwise it runs to its
    end. *)
Theorem correr_codigo g :
  forallb (fun st => negb (es_reporte st)) g = true ->
  codigo (correr (g ++ [SReporte])) = if existsb falla g then Some 1 else None.
Proof.
  intros Hg. unfold correr. rewrite correr_desde_app.
  destruct (correr_desde_sin_reporte proceso_inicial g eq_refl Hg) as [Hc Hf].
  simpl. unfold ejecutar_sentencia. rewrite Hc, generarReporte_codigo by done.
  by rewrite Hf, <- length_filter_existsb.
Qed.

(** While the process has not exited, the two counters add up to the
    number of tests of the script: every test is counted once, as passed or
    as failed. *)
Theorem correr_total g :
  codigo (correr g) = None ->
  total (correr g) = Z.of_nat (length (filter es_test g)).
Proof. intros H. unfold correr in *. by rewrite correr_desde_total. Qed.

(** [assertEqual] returns normally exactly when its two arguments are
    the same value and that value is not [NaN]. *)
Theorem assertEqual_spec (actual esperado : valor) mensaje :
  assertEqual actual esperado mensaje = Ok tt <->
  actual = esperado /\ actual <> NaN.
Proof. by rewrite assertEqual_Ok, estrictamente_igual_sii. Qed.

(** Without a message of its own, [assertThrows] returns normally
    exactly when [fn] throws an error whose message does not contain
    "Se esperaba que". *)
Theorem assertThrows_spec {A} (fn : js A) :
  assertThrows fn None = Ok tt <->
  exists error, fn = Lanza error /\
    includes (message error) "Se esperaba que" = false.
Proof.
  destruct fn as [a|error].
  - rewrite assertThrows_Ok. split; [done | by intros (? & ? & _)].
  - rewrite assertThrows_Lanza. split.
    + destruct (includes _ _) eqn:E; [done | by exists error].
    + by intros (? & [= <-] & ->).
Qed.

(** The script writes 37 lines, none of them through
    [console.error]. *)
Theorem guion_escrito :
  length (escrito (correr guion)) = 37%nat /\
  Forall (fun r => exists s, r = Log s) (escrito (correr guion)).
Proof.
  split; [by vm_compute|].
  apply Forall_forall. intros r Hr. vm_compute in Hr.
  repeat (apply elem_of_cons in Hr as [->|Hr]; [by eexists|]).
  by apply elem_of_nil in Hr.
Qed.

End PropiedadesPruebas.

(** ** Witnesses *)

Section TestigosPruebas.

Lemma espera_igual_sii_testigo :
  espera_igual [8; 1; -100; 2; 5] 9 "Debería ser 9 (suma de [8, 1])" = Ok tt <->
  es_ganancia_maxima [8; 1; -100; 2; 5] 9.
Proof.
  apply espera_igual_sii; [done | unfold acotada, MAX_SAFE_INTEGER; simpl; lia].
Defined.

Lemma assertThrows_ciega_testigo :
  assertThrows (Ok (Num 0))
    (Some "Debería lanzar error para array vacío") = Ok tt.
Proof. apply assertThrows_ciega; [by vm_compute | done]. Defined.

Lemma correr_codigo_testigo :
  codigo (correr ([STest "falla" (assertEqual (Num 1) (Num 2) None)] ++ [SReporte])) =
  if existsb falla [STest "falla" (assertEqual (Num 1) (Num 2) None)]
  then Some 1 else None.
Proof. apply correr_codigo. reflexivity. Defined.

Lemma correr_total_testigo :
  total (correr guion) = Z.of_nat (length (filter es_test guion)).
Proof. apply correr_total. by vm_compute. Defined.

End TestigosPruebas.
